(** * Expense Query & Summary Engine: repository, cache adapter and service

    A shallow embedding of
      - backend/dist/repositories/expense-repository.js  (ExpenseRepository)
      - backend/dist/services/expense-service.js          (ExpenseService)
      - backend/dist/config/redis.js                      (RedisClient)
      - backend/dist/utils/date-helpers.js                (DateHelpers)
      - backend/dist/models/expense.js                    (transformExpenseToResponse)
      - backend/dist/models/expense-category.js           (EXPENSE_CATEGORIES)
      - backend/dist/models/api-response.js               (createPaginatedResponse)
    together with the parts of the host (JSON, base64, Date, ObjectId, the
    document store and the key/value server) those files call into.

    Conventions of the embedding:
      - an [async] method is a state-and-exception computation [M W A];
        [await] is sequencing, a rejected promise is a thrown [Exn];
      - a JavaScript number is a binary64 value ([binary64], the values and
        the addition of [SpecFloat] at precision 53): the amounts, their
        sums, and every number JSON writes or reads. The counters and the
        page arithmetic of the service, which are integers or NaN, are held
        as [number] ([NaN] or [Num z]); [Num z] stands for the JavaScript
        number of that value as long as [|z| < 2^53];
      - a string is the byte string of its UTF-8 form; a [Date] is its time
        value in milliseconds;
      - log calls have no effect on any result and are left out. *)

From Stdlib Require Import ZArith Lia List Ascii String Sorted Permutation Decimal DecimalZ.
From Stdlib Require SpecFloat DecimalFacts DecimalPos.
From stdpp Require Import gmap strings list.

Local Open Scope string_scope.
Local Open Scope list_scope.
Local Open Scope Z_scope.

(** ** Exceptions and the computation monad *)

(** [ApiError] is the class of models/api-response; [Error] stands for every
    other thrown value (BSON, driver and Redis client errors, TypeError). *)
Inductive Exn : Type :=
  | ApiError (message : string) (statusCode : Z)
  | Error (message : string).

Definition instanceof_ApiError (e : Exn) : bool :=
  match e with ApiError _ _ => true | Error _ => false end.

Definition M (W A : Type) : Type := W -> (Exn + A) * W.

Definition ret {W A} (a : A) : M W A := fun w => (inr a, w).
Definition throw {W A} (e : Exn) : M W A := fun w => (inl e, w).
Definition bind {W A B} (m : M W A) (k : A -> M W B) : M W B :=
  fun w => match m w with
           | (inr a, w') => k a w'
           | (inl e, w') => (inl e, w')
           end.
Definition try_catch {W A} (m : M W A) (h : Exn -> M W A) : M W A :=
  fun w => match m w with
           | (inl e, w') => h e w'
           | r => r
           end.

(** A synchronous step that either throws or returns. *)
Definition lift_sum {W A} (r : Exn + A) : M W A := fun w => (r, w).

(** Run a computation on a component of the state. *)
Definition zoom {W V A} (get : W -> V) (set : V -> W -> W) (m : M V A) : M W A :=
  fun w => let '(r, v) := m (get w) in (r, set v w).

(** [Promise.all] of two promises: both run to completion; the result
    rejects with the first rejection in argument order. *)
Definition promise_all2 {W A B} (m1 : M W A) (m2 : M W B) : M W (A * B) :=
  fun w => let '(r1, w1) := m1 w in
           let '(r2, w2) := m2 w1 in
           match r1, r2 with
           | inl e, _ => (inl e, w2)
           | inr _, inl e => (inl e, w2)
           | inr a, inr b => (inr (a, b), w2)
           end.

Declare Scope js_scope.
Delimit Scope js_scope with js.
Notation "x <-- m ;; k" := (bind m (fun x => k))
  (at level 100, m at next level, right associativity) : js_scope.
Notation "m ;;; k" := (bind m (fun _ => k))
  (at level 100, right associativity) : js_scope.

(** The two catch blocks of the code base. *)
Definition rethrow_ApiError_or {W A} (message : string) (e : Exn) : M W A :=
  if instanceof_ApiError e then throw e else throw (ApiError message 500).
Definition wrap_as {W A} (message : string) (e : Exn) : M W A :=
  throw (ApiError message 500).

(** How the error handler classifies what reaches it: an [ApiError] by its
    status code, anything else as a 500. *)
Definition is_server_error (e : Exn) : bool :=
  match e with ApiError _ c => 500 <=? c | Error _ => true end.
Definition is_client_error (e : Exn) : bool :=
  match e with ApiError _ c => (400 <=? c) && (c <? 500) | Error _ => false end.

(** ** Numbers *)

(** The numbers that count and page: NaN or an integer. [Num z] is the
    number of the language with that value when [|z| < 2^53]. *)
Inductive number : Type := NaN | Num (z : Z).

Global Instance number_eq_dec : EqDecision number.
Proof. solve_decision. Defined.

Definition number_truthy (n : number) : bool :=
  match n with NaN => false | Num z => negb (z =? 0) end.
Definition number_sub (a b : number) : number :=
  match a, b with Num x, Num y => Num (x - y) | _, _ => NaN end.
Definition number_mul (a b : number) : number :=
  match a, b with Num x, Num y => Num (x * y) | _, _ => NaN end.
(** [a || d] on numbers. *)
Definition number_or (a : number) (d : Z) : Z :=
  match a with Num z => if z =? 0 then d else z | NaN => d end.

(** *** binary64

    The numbers of the language: signed zeros, finite values [m * 2^e],
    infinities and NaN, with the addition of the format at precision 53
    (round to nearest, ties to even). *)

Definition binary64 : Type := SpecFloat.spec_float.

Global Instance binary64_eq_dec : EqDecision binary64.
Proof. unfold binary64. solve_decision. Defined.

Module Double.

Definition zero : binary64 := SpecFloat.S754_zero false.

Definition add (x y : binary64) : binary64 := SpecFloat.SFadd 53 1024 x y.

(** [$sum]: from 0, one addition per element, in the order of the list. *)
Definition sum (l : list binary64) : binary64 := fold_left add l zero.

(** The finite values of the format and its two infinities and NaN, each in
    its one canonical form. *)
Definition is_binary64 (x : binary64) : bool := SpecFloat.valid_binary 53 1024 x.

Definition finite (x : binary64) : bool :=
  match x with
  | SpecFloat.S754_zero _ | SpecFloat.S754_finite _ _ _ => true
  | _ => false
  end.

(** Rounding a ratio of positive integers to the nearest value, ties to
    the even mantissa. [reaches l P Q] is [2^l <= P/Q]; [ilog2 P Q] is the
    integer part of the binary logarithm of [P/Q]. *)
Definition reaches (l P Q : Z) : bool :=
  if 0 <=? l then Q * 2 ^ l <=? P else Q <=? P * 2 ^ (- l).

Definition ilog2 (P Q : Z) : Z :=
  let a := Z.log2 P - Z.log2 Q in
  if reaches a P Q then a else a - 1.

Definition round_half_even (P Q : Z) : Z :=
  let q := P / Q in
  match 2 * (P mod Q) ?= Q with
  | Lt => q
  | Gt => q + 1
  | Eq => if Z.even q then q else q + 1
  end.

Definition nearest (negative : bool) (P Q : Z) : binary64 :=
  if P <=? 0 then SpecFloat.S754_zero negative
  else
    let e := Z.max (ilog2 P Q - 52) (-1074) in
    let m := if 0 <=? e then round_half_even P (Q * 2 ^ e)
             else round_half_even (P * 2 ^ (- e)) Q in
    let '(m, e) := if m =? 2 ^ 53 then (2 ^ 52, e + 1) else (m, e) in
    match m with
    | Zpos p => if e <=? 971 then SpecFloat.S754_finite negative p e
                else SpecFloat.S754_infinity negative
    | _ => SpecFloat.S754_zero negative
    end.

(** The value of the decimal [digits * 10^exponent], and of an integer. *)
Definition of_decimal (negative : bool) (digits exponent : Z) : binary64 :=
  if 0 <=? exponent then nearest negative (digits * 10 ^ exponent) 1
  else nearest negative digits (10 ^ (- exponent)).

Definition of_Z (z : Z) : binary64 := nearest (z <? 0) (Z.abs z) 1.

(** The integer a value is, when it is one. *)
Definition integral (x : binary64) : option Z :=
  match x with
  | SpecFloat.S754_zero _ => Some 0
  | SpecFloat.S754_finite s m e =>
      let sign := if s then -1 else 1 in
      if 0 <=? e then Some (sign * (Zpos m * 2 ^ e))
      else if Zpos m mod 2 ^ (- e) =? 0 then Some (sign * (Zpos m / 2 ^ (- e)))
      else None
  | _ => None
  end.


End Double.

(** ** Characters *)

Definition ascii_code (c : ascii) : Z := Z.of_N (N_of_ascii c).
Definition ascii_of_code (z : Z) : ascii := ascii_of_N (Z.to_N z).

Definition is_digit (c : ascii) : bool :=
  (48 <=? ascii_code c) && (ascii_code c <=? 57).
Definition is_hex (c : ascii) : bool :=
  is_digit c
  || ((97 <=? ascii_code c) && (ascii_code c <=? 102))
  || ((65 <=? ascii_code c) && (ascii_code c <=? 70)).
Definition to_lower (c : ascii) : ascii :=
  if (65 <=? ascii_code c) && (ascii_code c <=? 90)
  then ascii_of_code (ascii_code c + 32) else c.
Definition is_space (c : ascii) : bool :=
  let n := ascii_code c in (n =? 32) || (n =? 9) || (n =? 10) || (n =? 13).

Definition chars (s : string) : list ascii := list_ascii_of_string s.
Definition text (l : list ascii) : string := string_of_list_ascii l.

(** Decimal digits of an integer. *)
Fixpoint uint_chars (u : Decimal.uint) : list ascii :=
  match u with
  | Nil => []
  | D0 u => "0"%char :: uint_chars u
  | D1 u => "1"%char :: uint_chars u
  | D2 u => "2"%char :: uint_chars u
  | D3 u => "3"%char :: uint_chars u
  | D4 u => "4"%char :: uint_chars u
  | D5 u => "5"%char :: uint_chars u
  | D6 u => "6"%char :: uint_chars u
  | D7 u => "7"%char :: uint_chars u
  | D8 u => "8"%char :: uint_chars u
  | D9 u => "9"%char :: uint_chars u
  end.

Definition int_chars (i : Decimal.int) : list ascii :=
  match i with
  | Pos u => uint_chars u
  | Neg u => "-"%char :: uint_chars u
  end.

(** [str || ''] style truthiness of an optional string. *)
Definition string_truthy (s : option string) : bool :=
  match s with Some (String _ _) => true | _ => false end.

(** ** Number::toString

    The digits are the shortest that read back as the value, as the
    language requires; the value of a decimal is taken with
    [Double.of_decimal]. *)

Module NumberToString.

(** [P/Q < 10^n] *)
Definition below_pow10 (n P Q : Z) : bool :=
  if 0 <=? n then P <? Q * 10 ^ n else P * 10 ^ (- n) <? Q.

(** The least [n] with [P/Q < 10^n], sought upwards from below an estimate
    by the binary logarithm (log 2 = 0.30103 to five places). *)
Fixpoint magnitude_from (fuel : nat) (n P Q : Z) : Z :=
  match fuel with
  | O => n
  | S fuel' => if below_pow10 n P Q then n else magnitude_from fuel' (n + 1) P Q
  end.
Definition magnitude (P Q : Z) : Z :=
  magnitude_from 6 (Double.ilog2 P Q * 30103 / 100000 - 1) P Q.

Fixpoint strip_zeros (fuel : nat) (s j : Z) : Z * Z :=
  match fuel with
  | O => (s, j)
  | S fuel' =>
      if (s mod 10 =? 0) && negb (s =? 0) then strip_zeros fuel' (s / 10) (j + 1) else (s, j)
  end.

(** The decimals [s * 10^(n-k)] next to [P/Q], the nearer first and the
    even one first on a tie, without their trailing zeros. *)
Definition candidates (P Q n k : Z) : list (Z * Z) :=
  let '(A, B) := if 0 <=? k - n then (P * 10 ^ (k - n), Q) else (P, Q * 10 ^ (n - k)) in
  let lo := A / B in
  let hi := lo + 1 in
  let order := match 2 * (A mod B) ?= B with
               | Lt => [lo; hi]
               | Gt => [hi; lo]
               | Eq => if Z.even lo then [lo; hi] else [hi; lo]
               end in
  map (fun s => strip_zeros 20 s (n - k)) (List.filter (fun s => 0 <? s) order).

Fixpoint shortest_from (fuel : nat) (k : Z) (x : binary64) (P Q n : Z) : option (Z * Z) :=
  match fuel with
  | O => None
  | S fuel' =>
      match List.find (fun c => bool_decide (Double.of_decimal false (fst c) (snd c) = x))
                      (candidates P Q n k) with
      | Some c => Some c
      | None => shortest_from fuel' (k + 1) x P Q n
      end
  end.

(** The digits [s] and the exponent [j] with [s * 10^j] reading back as
    [m * 2^e], [s] as short as possible. Seventeen digits always suffice;
    the decimal expansion of [m * 2^e] stands behind them. *)
Definition digits_of (m : positive) (e : Z) : Z * Z :=
  let '(P, Q) := if 0 <=? e then (Zpos m * 2 ^ e, 1) else (Zpos m, 2 ^ (- e)) in
  match shortest_from 17 1 (SpecFloat.S754_finite false m e) P Q (magnitude P Q) with
  | Some c => c
  | None => if 0 <=? e then (Zpos m * 2 ^ e, 0) else (Zpos m * 5 ^ (- e), e)
  end.

Definition decimal (s : Z) : list ascii := uint_chars (Pos.to_uint (Z.to_pos s)).

(** Steps 6 to 10: [s] has [k] digits and the value is [s * 10^(n-k)]. *)
Definition format (s j : Z) : list ascii :=
  let ds := decimal s in
  let k := Z.of_nat (List.length ds) in
  let n := k + j in
  if (k <=? n) && (n <=? 21) then ds ++ List.repeat "0"%char (Z.to_nat (n - k))
  else if (0 <? n) && (n <=? 21)
  then take (Z.to_nat n) ds ++ "."%char :: drop (Z.to_nat n) ds
  else if (-6 <? n) && (n <=? 0)
  then "0"%char :: "."%char :: List.repeat "0"%char (Z.to_nat (- n)) ++ ds
  else
    let exponent := "e"%char :: (if n - 1 <? 0 then "-"%char else "+"%char)
                                :: decimal (Z.abs (n - 1)) in
    match ds with
    | [] => []
    | [d] => d :: exponent
    | d :: rest => d :: "."%char :: rest ++ exponent
    end.

Definition apply (x : binary64) : list ascii :=
  match x with
  | SpecFloat.S754_nan => chars "NaN"
  | SpecFloat.S754_infinity s => chars (if s then "-Infinity" else "Infinity")
  | SpecFloat.S754_zero _ => chars "0"
  | SpecFloat.S754_finite s m e =>
      (if s then ["-"%char] else []) ++ let '(d, j) := digits_of m e in format d j
  end.

End NumberToString.

(** ** ObjectId (the driver's 12-byte identifier in its 24-hex string form)

    A string is a valid identifier when it is 24 hexadecimal characters,
    the form the validators admit ([mongoIdSchema], /^[0-9a-fA-F]{24}$/). *)

Record ObjectId : Type := { toHexString : string }.

Global Instance ObjectId_eq_dec : EqDecision ObjectId.
Proof. solve_decision. Defined.

Module ObjectId.

Definition isValid (s : string) : bool :=
  (Z.of_nat (String.length s) =? 24) && forallb is_hex (chars s).

(** [new ObjectId(s)]: throws on anything but 24 hex characters; the
    identifier is case-insensitive in its hex form. *)
Definition new (s : string) : Exn + ObjectId :=
  if isValid s
  then inr {| toHexString := text (map to_lower (chars s)) |}
  else inl (Error "input must be a 24 character hex string, 12 byte Uint8Array, or an integer").

End ObjectId.

(** ** Date (time value in milliseconds since the epoch) and the host clock *)

Definition Date : Type := Z.

(** What the process reads from its host: the clock ([new Date()]), the
    local time zone adjustment in milliseconds (taken as a fixed offset) and
    the engine's date-string parser ([new Date(s)]; [None] is the invalid
    date, whose time value is NaN). *)
Record Runtime : Type := {
  now : Date;
  LocalTZA : Z;
  Date_parse : string -> option Date;
}.

Module DateOps.

Definition msPerDay : Z := 86400000.

(** Day number to civil (year, month 1..12, day) and back, proleptic
    Gregorian calendar. *)
Definition civil_from_days (z0 : Z) : Z * Z * Z :=
  let z := z0 + 719468 in
  let era := z / 146097 in
  let doe := z - era * 146097 in
  let yoe := (doe - doe / 1460 + doe / 36524 - doe / 146096) / 365 in
  let y := yoe + era * 400 in
  let doy := doe - (365 * yoe + yoe / 4 - yoe / 100) in
  let mp := (5 * doy + 2) / 153 in
  let d := doy - (153 * mp + 2) / 5 + 1 in
  let m := if mp <? 10 then mp + 3 else mp - 9 in
  (if m <=? 2 then y + 1 else y, m, d).

Definition days_from_civil (y0 m d : Z) : Z :=
  let y := if m <=? 2 then y0 - 1 else y0 in
  let era := y / 400 in
  let yoe := y - era * 400 in
  let doy := (153 * (if 2 <? m then m - 3 else m + 9) + 2) / 5 + d - 1 in
  let doe := yoe * 365 + yoe / 4 - yoe / 100 + doy in
  era * 146097 + doe - 719468.

Definition localDay (rt : Runtime) (t : Date) : Z := (t + LocalTZA rt) / msPerDay.
Definition localTimeInDay (rt : Runtime) (t : Date) : Z := (t + LocalTZA rt) mod msPerDay.

(** [d.setHours(h, m, s, ms)] in local time. *)
Definition setHours (rt : Runtime) (h m s ms : Z) (t : Date) : Date :=
  localDay rt t * msPerDay + (((h * 60 + m) * 60 + s) * 1000 + ms) - LocalTZA rt.

(** [d.setDate(d.getDate() + k)]. *)
Definition addDays (rt : Runtime) (k : Z) (t : Date) : Date :=
  let '(y, m, d) := civil_from_days (localDay rt t) in
  (days_from_civil y m 1 + (d + k) - 1) * msPerDay + localTimeInDay rt t - LocalTZA rt.

(** [d.setMonth(d.getMonth() + k)]: the day of the month is kept and
    overflows into the following month when the target month is shorter. *)
Definition addMonths (rt : Runtime) (k : Z) (t : Date) : Date :=
  let '(y, m, d) := civil_from_days (localDay rt t) in
  let m0 := (m - 1) + k in
  (days_from_civil (y + m0 / 12) (m0 mod 12 + 1) 1 + d - 1) * msPerDay
  + localTimeInDay rt t - LocalTZA rt.

Definition digit_char (d : Z) : ascii := ascii_of_code (48 + d mod 10).

(** [n] written with exactly [w] decimal digits (low-order digits kept). *)
Fixpoint pad (w : nat) (n : Z) : list ascii :=
  match w with
  | O => []
  | S w' => pad w' (n / 10) ++ [digit_char n]
  end.

(** [d.toISOString()], also what [JSON.stringify] writes for a Date. *)
Definition toISOString (t : Date) : string :=
  let '(y, m, d) := civil_from_days (t / msPerDay) in
  let r := t mod msPerDay in
  let year := if (0 <=? y) && (y <=? 9999) then pad 4 y
              else (if y <? 0 then "-"%char else "+"%char) :: pad 6 (Z.abs y) in
  text (year ++ "-"%char :: pad 2 m ++ "-"%char :: pad 2 d ++ "T"%char
        :: pad 2 (r / 3600000) ++ ":"%char :: pad 2 (r / 60000 mod 60) ++ ":"%char
        :: pad 2 (r / 1000 mod 60) ++ "."%char :: pad 3 (r mod 1000) ++ ["Z"%char]).

(** [d.getFullYear()], [d.getMonth()] (0 to 11) and [d.getDate()], in local
    time. *)
Definition getFullYear (rt : Runtime) (t : Date) : Z :=
  let '(y, _, _) := civil_from_days (localDay rt t) in y.
Definition getMonth (rt : Runtime) (t : Date) : Z :=
  let '(_, m, _) := civil_from_days (localDay rt t) in m - 1.
Definition getDate (rt : Runtime) (t : Date) : Z :=
  let '(_, _, d) := civil_from_days (localDay rt t) in d.

(** [new Date(year, month, date)]: local midnight of day [date] of month
    [month] (0-based; both may run over or under); a year from 0 to 99
    stands for 1900 + year. *)
Definition make (rt : Runtime) (year month date : Z) : Date :=
  let yr := if (0 <=? year) && (year <=? 99) then 1900 + year else year in
  (days_from_civil (yr + month / 12) (month mod 12 + 1) 1 + date - 1) * msPerDay
  - LocalTZA rt.

End DateOps.

(** ** JavaScript values and JSON *)

(** Objects are property lists in insertion order. *)
#[warnings="-register-all"]
Inductive value : Type :=
  | VUndefined
  | VNull
  | VBool (b : bool)
  | VNum (n : number)
  | VDouble (x : binary64)  (* a number that is not an integer below 2^53 *)
  | VStr (s : string)
  | VDate (t : Date)
  | VArr (items : list value)
  | VObj (props : list (string * value)).

(** [if (v)] *)
Definition truthy (v : value) : bool :=
  match v with
  | VUndefined | VNull => false
  | VBool b => b
  | VNum n => number_truthy n
  | VDouble x => match x with
                 | SpecFloat.S754_zero _ | SpecFloat.S754_nan => false
                 | _ => true
                 end
  | VStr s => string_truthy (Some s)
  | VDate _ | VArr _ | VObj _ => true
  end.

Definition opt_value {A} (f : A -> value) (o : option A) : value :=
  match o with Some a => f a | None => VUndefined end.

(** A number as a [value]: [VNum] when it is NaN or an integer below 2^53
    in magnitude, [VDouble] otherwise, so that a number has one form. *)
Definition safe_integer (x : binary64) : option Z :=
  match Double.integral x with
  | Some z => if Z.abs z <? 2 ^ 53 then Some z else None
  | None => None
  end.

Definition js_number (x : binary64) : value :=
  match x with
  | SpecFloat.S754_nan => VNum NaN
  | _ => match safe_integer x with
         | Some z => VNum (Num z)
         | None => VDouble x
         end
  end.

Module JSON.

Definition dquote : ascii := ascii_of_code 34.
Definition backslash : ascii := ascii_of_code 92.

Definition hex_digit (n : Z) : ascii :=
  if n <? 10 then ascii_of_code (48 + n) else ascii_of_code (87 + n).

(** QuoteJSONString, one character. *)
Definition quote_char (c : ascii) : list ascii :=
  let n := ascii_code c in
  if n =? 34 then [backslash; dquote]
  else if n =? 92 then [backslash; backslash]
  else if n =? 8 then [backslash; "b"%char]
  else if n =? 12 then [backslash; "f"%char]
  else if n =? 10 then [backslash; "n"%char]
  else if n =? 13 then [backslash; "r"%char]
  else if n =? 9 then [backslash; "t"%char]
  else if n <? 32 then [backslash; "u"%char; "0"%char; "0"%char; hex_digit (n / 16); hex_digit (n mod 16)]
  else [c].

Definition quote (s : string) : list ascii :=
  dquote :: flat_map quote_char (chars s) ++ [dquote].

Definition number_chars (n : number) : list ascii :=
  match n with
  | NaN => chars "null"
  | Num z => int_chars (Z.to_int z)
  end.

(** A finite number is written by Number::toString, any other as [null]. *)
Definition double_chars (x : binary64) : list ascii :=
  if Double.finite x then NumberToString.apply x else chars "null".

(** SerializeJSONProperty: a Date is written through [toISOString]; inside
    an array [undefined] is written as [null]; a property whose value is
    [undefined] is left out. *)
Fixpoint write (v : value) : list ascii :=
  match v with
  | VUndefined | VNull => chars "null"
  | VBool b => chars (if b then "true" else "false")
  | VNum n => number_chars n
  | VDouble x => double_chars x
  | VStr s => quote s
  | VDate t => quote (DateOps.toISOString t)
  | VArr items =>
      "["%char ::
      (fix elements (l : list value) : list ascii :=
         match l with
         | [] => []
         | x :: l' => write x ++ match l' with [] => [] | _ :: _ => ","%char :: elements l' end
         end) items ++ ["]"%char]
  | VObj props =>
      "{"%char ::
      (fix members (first : bool) (l : list (string * value)) : list ascii :=
         match l with
         | [] => []
         | (k, x) :: l' =>
             match x with
             | VUndefined => members first l'
             | _ => (if first then [] else [","%char])
                    ++ quote k ++ ":"%char :: write x ++ members false l'
             end
         end) true props ++ ["}"%char]
  end.

(** [JSON.stringify(v)]: [undefined] for [undefined], a string otherwise. *)
Definition stringify (v : value) : option string :=
  match v with
  | VUndefined => None
  | _ => Some (text (write v))
  end.

(** *** Reading *)

Fixpoint skip_ws (s : list ascii) : list ascii :=
  match s with
  | c :: s' => if is_space c then skip_ws s' else s
  | [] => []
  end.

Definition hex_value (c : ascii) : option Z :=
  let n := ascii_code c in
  if is_digit c then Some (n - 48)
  else if (97 <=? n) && (n <=? 102) then Some (n - 87)
  else if (65 <=? n) && (n <=? 70) then Some (n - 55)
  else None.

Definition hex4 (a b c d : ascii) : option Z :=
  match hex_value a, hex_value b, hex_value c, hex_value d with
  | Some x, Some y, Some z, Some w => Some (((x * 16 + y) * 16 + z) * 16 + w)
  | _, _, _, _ => None
  end.

Definition unescape (e : ascii) : option ascii :=
  let m := ascii_code e in
  if (m =? 34) || (m =? 92) || (m =? 47) then Some e
  else if m =? 98 then Some (ascii_of_code 8)
  else if m =? 102 then Some (ascii_of_code 12)
  else if m =? 110 then Some (ascii_of_code 10)
  else if m =? 114 then Some (ascii_of_code 13)
  else if m =? 116 then Some (ascii_of_code 9)
  else None.

Definition cons_fst {A B} (a : A) (r : option (list A * B)) : option (list A * B) :=
  match r with Some (l, b) => Some (a :: l, b) | None => None end.

(** The characters of a string literal after its opening quote. An escape
    [\uXXXX] above 7F has no image in a byte string and is refused. *)
Fixpoint read_string (s : list ascii) : option (list ascii * list ascii) :=
  match s with
  | [] => None
  | c :: s' =>
      let n := ascii_code c in
      if n =? 34 then Some ([], s')
      else if n =? 92 then
        match s' with
        | [] => None
        | e :: s'' =>
            if ascii_code e =? 117 then
              match s'' with
              | a :: b :: c' :: d :: s3 =>
                  match hex4 a b c' d with
                  | Some code => if code <? 128 then cons_fst (ascii_of_code code) (read_string s3) else None
                  | None => None
                  end
              | _ => None
              end
            else
              match unescape e with
              | Some ch => cons_fst ch (read_string s'')
              | None => None
              end
        end
      else if n <? 32 then None
      else cons_fst c (read_string s')
  end.

Fixpoint read_digits (s : list ascii) : list ascii * list ascii :=
  match s with
  | c :: s' => if is_digit c then let '(ds, r) := read_digits s' in (c :: ds, r) else ([], s)
  | [] => ([], [])
  end.

Definition digits_value (ds : list ascii) : Z :=
  fold_left (fun a c => 10 * a + (ascii_code c - 48)) ds 0.

(** A fraction is a point and at least one digit. *)
Definition read_fraction (s : list ascii) : option (list ascii * list ascii) :=
  match s with
  | c :: s' =>
      if ascii_code c =? 46
      then match read_digits s' with
           | ([], _) => None
           | (ds, r) => Some (ds, r)
           end
      else Some ([], s)
  | [] => Some ([], [])
  end.

(** An exponent is [e] or [E], an optional sign and at least one digit. *)
Definition read_exponent (s : list ascii) : option (Z * list ascii) :=
  match s with
  | c :: s' =>
      if (ascii_code c =? 101) || (ascii_code c =? 69) then
        let '(sign, s1) :=
          match s' with
          | c' :: s'' => if ascii_code c' =? 45 then (-1, s'')
                         else if ascii_code c' =? 43 then (1, s'') else (1, s')
          | [] => (1, s')
          end in
        match read_digits s1 with
        | ([], _) => None
        | (ds, r) => Some (sign * digits_value ds, r)
        end
      else Some (0, s)
  | [] => Some (0, [])
  end.

(** A number literal: an optional minus, an integer part without a leading
    zero, an optional fraction and an optional exponent; its value is the
    binary64 nearest to the decimal. *)
Definition read_double (s : list ascii) : option (binary64 * list ascii) :=
  let '(negative, s1) :=
    match s with
    | c :: s' => if ascii_code c =? 45 then (true, s') else (false, s)
    | [] => (false, s)
    end in
  match read_digits s1 with
  | ([], _) => None
  | (d :: ds, s2) =>
      if (ascii_code d =? 48) && match ds with [] => false | _ :: _ => true end then None
      else
        match read_fraction s2 with
        | None => None
        | Some (frac, s3) =>
            match read_exponent s3 with
            | None => None
            | Some (e, rest) =>
                Some (Double.of_decimal negative (digits_value ((d :: ds) ++ frac))
                        (e - Z.of_nat (List.length frac)), rest)
            end
        end
  end.

Definition read_number (s : list ascii) : option (value * list ascii) :=
  match read_double s with
  | Some (x, rest) => Some (js_number x, rest)
  | None => None
  end.

Fixpoint strip_prefix (p s : list ascii) : option (list ascii) :=
  match p, s with
  | [], _ => Some s
  | a :: p', b :: s' => if Ascii.eqb a b then strip_prefix p' s' else None
  | _ :: _, [] => None
  end.

Fixpoint read_value (fuel : nat) (s : list ascii) : option (value * list ascii) :=
  match fuel with
  | O => None
  | S fuel' =>
      match skip_ws s with
      | [] => None
      | c :: s' =>
          let n := ascii_code c in
          if n =? 34 then
            match read_string s' with
            | Some (str, r) => Some (VStr (text str), r)
            | None => None
            end
          else if n =? 91 then
            match skip_ws s' with
            | c' :: r => if ascii_code c' =? 93 then Some (VArr [], r)
                         else match read_elements fuel' s' with
                              | Some (l, r') => Some (VArr l, r')
                              | None => None
                              end
            | [] => None
            end
          else if n =? 123 then
            match skip_ws s' with
            | c' :: r => if ascii_code c' =? 125 then Some (VObj [], r)
                         else match read_members fuel' s' with
                              | Some (l, r') => Some (VObj l, r')
                              | None => None
                              end
            | [] => None
            end
          else if n =? 116 then
            match strip_prefix (chars "rue") s' with Some r => Some (VBool true, r) | None => None end
          else if n =? 102 then
            match strip_prefix (chars "alse") s' with Some r => Some (VBool false, r) | None => None end
          else if n =? 110 then
            match strip_prefix (chars "ull") s' with Some r => Some (VNull, r) | None => None end
          else read_number (c :: s')
      end
  end
with read_elements (fuel : nat) (s : list ascii) : option (list value * list ascii) :=
  match fuel with
  | O => None
  | S fuel' =>
      match read_value fuel' s with
      | Some (v, r) =>
          match skip_ws r with
          | c :: r' =>
              if ascii_code c =? 44 then
                match read_elements fuel' r' with
                | Some (l, r'') => Some (v :: l, r'')
                | None => None
                end
              else if ascii_code c =? 93 then Some ([v], r')
              else None
          | [] => None
          end
      | None => None
      end
  end
with read_members (fuel : nat) (s : list ascii) : option (list (string * value) * list ascii) :=
  match fuel with
  | O => None
  | S fuel' =>
      match skip_ws s with
      | q :: s1 =>
          if ascii_code q =? 34 then
            match read_string s1 with
            | Some (k, r) =>
                match skip_ws r with
                | colon :: r1 =>
                    if ascii_code colon =? 58 then
                      match read_value fuel' r1 with
                      | Some (v, r2) =>
                          match skip_ws r2 with
                          | c :: r3 =>
                              if ascii_code c =? 44 then
                                match read_members fuel' r3 with
                                | Some (l, r4) => Some ((text k, v) :: l, r4)
                                | None => None
                                end
                              else if ascii_code c =? 125 then Some ([(text k, v)], r3)
                              else None
                          | [] => None
                          end
                      | None => None
                      end
                    else None
                | [] => None
                end
            | None => None
            end
          else None
      | [] => None
      end
  end.

(** [JSON.parse(s)]; [None] is the thrown SyntaxError. *)
Definition parse (s : string) : option value :=
  match read_value (S (List.length (chars s))) (chars s) with
  | Some (v, r) => match skip_ws r with [] => Some v | _ :: _ => None end
  | None => None
  end.

(** What [parse] recovers of a value that went through [stringify]. *)
Fixpoint norm (v : value) : value :=
  match v with
  | VUndefined => VNull
  | VNum NaN => VNull
  | VDouble x => if Double.finite x then js_number x else VNull
  | VDate t => VStr (DateOps.toISOString t)
  | VArr items => VArr (map norm items)
  | VObj props =>
      VObj ((fix members (l : list (string * value)) : list (string * value) :=
               match l with
               | [] => []
               | (k, x) :: l' =>
                   match x with
                   | VUndefined => members l'
                   | _ => (k, norm x) :: members l'
                   end
               end) props)
  | VNull | VBool _ | VNum (Num _) | VStr _ => v
  end.

End JSON.

(** ** Base64 ([Buffer.from(s).toString('base64')]) *)

Definition b64_char (n : Z) : ascii :=
  if n <? 26 then ascii_of_code (65 + n)
  else if n <? 52 then ascii_of_code (71 + n)
  else if n <? 62 then ascii_of_code (n - 4)
  else if n =? 62 then "+"%char else "/"%char.

Fixpoint base64_chars (l : list ascii) : list ascii :=
  match l with
  | [] => []
  | [a] =>
      let x := ascii_code a * 65536 in
      [b64_char (x / 262144); b64_char (x / 4096 mod 64); "="%char; "="%char]
  | [a; b] =>
      let x := ascii_code a * 65536 + ascii_code b * 256 in
      [b64_char (x / 262144); b64_char (x / 4096 mod 64); b64_char (x / 64 mod 64); "="%char]
  | a :: b :: c :: r =>
      let x := ascii_code a * 65536 + ascii_code b * 256 + ascii_code c in
      b64_char (x / 262144) :: b64_char (x / 4096 mod 64)
      :: b64_char (x / 64 mod 64) :: b64_char (x mod 64) :: base64_chars r
  end.

Definition base64 (s : string) : string := text (base64_chars (chars s)).

(** ** The key/value server and RedisClient (config/redis.js) *)

(** Keys with their value and, when set through [setEx], their time to
    live in seconds; no time passes within a statement, so no entry expires.
    The server refuses a [setEx] whose time to live is not positive.
    [reachable] is false when the client is not connected or the server
    does not answer: every command then rejects. *)
Record Redis : Type := {
  reachable : bool;
  data : gmap string (string * option Z);
}.

Module Glob.

(** The body of a [[...]] class up to its closing bracket: whether [x] is in
    it, and the pattern after the class. *)
Fixpoint class_body (p : list ascii) (x : ascii) (m : bool) : bool * list ascii :=
  match p with
  | [] => (m, [])
  | c :: p' =>
      if ascii_code c =? 92 then
        match p' with
        | e :: p'' => class_body p'' x (m || Ascii.eqb e x)
        | [] => (m || Ascii.eqb c x, [])
        end
      else if ascii_code c =? 93 then (m, p')
      else
        match p' with
        | d :: e :: p'' =>
            if ascii_code d =? 45 then
              let lo := Z.min (ascii_code c) (ascii_code e) in
              let hi := Z.max (ascii_code c) (ascii_code e) in
              class_body p'' x (m || ((lo <=? ascii_code x) && (ascii_code x <=? hi)))
            else class_body p' x (m || Ascii.eqb c x)
        | _ => class_body p' x (m || Ascii.eqb c x)
        end
  end.

(** Glob-style matching of the KEYS command: [*], [?], [[...]] and [\]. *)
Fixpoint matches (fuel : nat) (p s : list ascii) : bool :=
  match fuel with
  | O => false
  | S fuel' =>
      match p with
      | [] => match s with [] => true | _ :: _ => false end
      | c :: p' =>
          if ascii_code c =? 42 then
            (fix star (s : list ascii) : bool :=
               matches fuel' p' s
               || match s with [] => false | _ :: s' => star s' end) s
          else
            match s with
            | [] => false
            | x :: s' =>
                if ascii_code c =? 63 then matches fuel' p' s'
                else if ascii_code c =? 91 then
                  let '(neg, body) :=
                    match p' with
                    | h :: b => if ascii_code h =? 94 then (true, b) else (false, p')
                    | [] => (false, p')
                    end in
                  let '(m, rest) := class_body body x false in
                  xorb neg m && matches fuel' rest s'
                else if ascii_code c =? 92 then
                  match p' with
                  | e :: p'' => Ascii.eqb e x && matches fuel' p'' s'
                  | [] => Ascii.eqb c x && matches fuel' [] s'
                  end
                else Ascii.eqb c x && matches fuel' p' s'
            end
      end
  end.

Definition glob (pattern key : string) : bool :=
  matches (S (String.length pattern)) (chars pattern) (chars key).

End Glob.

Module RedisClient.

Definition getClient : M Redis unit :=
  fun r => if reachable r then (inr tt, r) else (inl (Error "Redis not connected"), r).

(** [if (ttlSeconds) setEx(key, ttlSeconds, value) else set(key, value)] *)
Definition set (key value : string) (ttlSeconds : option Z) : M Redis unit :=
  (getClient ;;;
   fun r =>
     let put ttl := (inr tt, {| reachable := reachable r;
                                data := <[key := (value, ttl)]> (data r) |}) in
     match ttlSeconds with
     | Some t =>
         if t =? 0 then put None
         else if t <? 0 then (inl (Error "ERR invalid expire time in 'setex' command"), r)
         else put (Some t)
     | None => put None
     end)%js.

Definition get (key : string) : M Redis (option string) :=
  (getClient ;;;
   fun r => (inr (fst <$> data r !! key), r))%js.

Definition delete (key : string) : M Redis unit :=
  (getClient ;;;
   fun r => (inr tt, {| reachable := reachable r; data := base.delete key (data r) |}))%js.

(** [exists(key)]: whether the server counts one key. *)
Definition exists_ (key : string) : M Redis bool :=
  (getClient ;;;
   fun r => (inr (bool_decide (is_Some (data r !! key))), r))%js.

(** [keys(pattern)] then [del(keys)] when there are any. *)
Definition deletePattern (pattern : string) : M Redis unit :=
  (getClient ;;;
   fun r => (inr tt,
             {| reachable := reachable r;
                data := filter (fun kv => Glob.glob pattern (fst kv) = false) (data r) |}))%js.

Definition setJson (key : string) (v : value) (ttlSeconds : option Z) : M Redis unit :=
  match JSON.stringify v with
  | Some jsonString => set key jsonString ttlSeconds
  | None => (getClient ;;; throw (Error "Invalid argument type"))%js
  end.

(** [null] when the key is absent or empty, and when the text does not parse. *)
Definition getJson (key : string) : M Redis value :=
  (jsonString <-- get key ;;
   if string_truthy jsonString then
     match jsonString ≫= JSON.parse with
     | Some v => ret v
     | None => ret VNull
     end
   else ret VNull)%js.

Definition getUserCacheKey (userId : string) : string := "user:" +:+ userId.

Definition getExpensesCacheKey (userId : string) (filters : option string) : string :=
  let filterHash := if string_truthy filters
                    then ":" +:+ base64 (default "" filters) else "" in
  "expenses:" +:+ userId +:+ filterHash.

Definition getExpenseSummaryCacheKey (userId : string) (period : option string) : string :=
  let periodKey := if string_truthy period then ":" +:+ default "" period else "" in
  "expense_summary:" +:+ userId +:+ periodKey.

End RedisClient.

(** ** Documents (models/expense) *)

Record Expense : Type := {
  _id : ObjectId;
  userId : ObjectId;
  title : string;
  description : option string;
  amount : binary64;
  category : string;
  createdAt : Date;
  updatedAt : Date;
}.

Global Instance Expense_eq_dec : EqDecision Expense.
Proof. solve_decision. Defined.

Module CreateExpenseDto.
Record t : Type := {
  title : string;
  description : option string;
  amount : binary64;
  category : string;
}.
End CreateExpenseDto.

(** Fields that are absent from the update are [None]. *)
Module UpdateExpenseDto.
Record t : Type := {
  title : option string;
  description : option string;
  amount : option binary64;
  category : option string;
}.
End UpdateExpenseDto.

Module ExpenseFilter.
Record t : Type := {
  userId : ObjectId;
  startDate : option Date;
  endDate : option Date;
  category : option string;
  limit : option number;
  offset : option number;
}.
End ExpenseFilter.

Module ExpenseQueryParams.
Record t : Type := {
  period : option string;
  startDate : option string;
  endDate : option string;
  category : option string;
  page : option string;
  limit : option string;
}.
End ExpenseQueryParams.

Module CategoryTotal.
Record t : Type := {
  category : string;
  amount : binary64;
  count : Z;
}.
End CategoryTotal.

Record ExpenseSummary : Type := {
  totalAmount : binary64;
  totalCount : Z;
  categoryBreakdown : list CategoryTotal.t;
}.

(** models/expense-category *)
Definition EXPENSE_CATEGORIES : list string :=
  ["Groceries"; "Leisure"; "Electronics"; "Utilities"; "Clothing"; "Health"; "Others"].
Definition isValidExpenseCategory (category : string) : bool :=
  bool_decide (category ∈ EXPENSE_CATEGORIES).

Definition transformExpenseToResponse (expense : Expense) : value :=
  VObj [("id", VStr (toHexString (_id expense)));
        ("userId", VStr (toHexString (userId expense)));
        ("title", VStr (title expense));
        ("description", opt_value VStr (description expense));
        ("amount", js_number (amount expense));
        ("category", VStr (category expense));
        ("createdAt", VDate (createdAt expense));
        ("updatedAt", VDate (updatedAt expense))].

(** ** The document store as the repository sees it *)

(** A query document over the expenses collection: equality on [_id],
    [userId] and [category], [$gte] / [$lte] on [createdAt]. *)
Record Query : Type := {
  q_id : option ObjectId;
  q_userId : option ObjectId;
  q_gte : option Date;
  q_lte : option Date;
  q_category : option string;
}.

Definition holds {A} (f : A -> bool) (o : option A) : bool :=
  match o with Some a => f a | None => true end.

Definition matches (q : Query) (e : Expense) : bool :=
  holds (fun i => bool_decide (_id e = i)) (q_id q)
  && holds (fun u => bool_decide (userId e = u)) (q_userId q)
  && holds (fun d => d <=? createdAt e) (q_gte q)
  && holds (fun d => createdAt e <=? d) (q_lte q)
  && holds (fun c => bool_decide (category e = c)) (q_category q).

(** The document handed to [insertOne]: the dto's fields, the owner and
    the two timestamps; the store assigns [_id]. *)
Record NewExpense : Type := {
  new_fields : CreateExpenseDto.t;
  new_userId : ObjectId;
  new_createdAt : Date;
  new_updatedAt : Date;
}.

(** [{ $set: { ...updates, updatedAt } }] *)
Record UpdateDoc : Type := {
  set_fields : UpdateExpenseDto.t;
  set_updatedAt : Date;
}.

Record InsertOneResult : Type := { insertedId : option ObjectId }.
Record DeleteResult : Type := { deletedCount : Z }.

(** The collection operations the repository calls, over a store state [S].
    Any of them may reject. [find_sorted q skip limit] is
    [find(q).sort({createdAt: -1}).skip(skip).limit(limit).toArray()];
    [scan] feeds an aggregation pipeline with the collection's documents. *)
Record Driver (S : Type) : Type := {
  insertOne : NewExpense -> M S InsertOneResult;
  findOne : Query -> M S (option Expense);
  find_sorted : Query -> Z -> Z -> M S (list Expense);
  countDocuments : Query -> M S Z;
  findOneAndUpdate : Query -> UpdateDoc -> M S (option Expense);
  deleteOne : Query -> M S DeleteResult;
  scan : M S (list Expense);
}.
Arguments insertOne {S}.
Arguments findOne {S}.
Arguments find_sorted {S}.
Arguments countDocuments {S}.
Arguments findOneAndUpdate {S}.
Arguments deleteOne {S}.
Arguments scan {S}.

(** *** A store that behaves: documents in insertion order, unique [_id] *)

Record Collection : Type := {
  docs : list Expense;
  nextId : Z;
}.

Module Mongo.

(** The store assigns identifiers from a counter, written as 24 hex digits. *)
Fixpoint hex_pad (w : nat) (n : Z) : list ascii :=
  match w with
  | O => []
  | S w' => hex_pad w' (n / 16) ++ [JSON.hex_digit (n mod 16)]
  end.

Definition oid_of (n : Z) : ObjectId := {| toHexString := text (hex_pad 24 n) |}.

Definition materialize (oid : ObjectId) (d : NewExpense) : Expense :=
  {| _id := oid;
     userId := new_userId d;
     title := CreateExpenseDto.title (new_fields d);
     description := CreateExpenseDto.description (new_fields d);
     amount := CreateExpenseDto.amount (new_fields d);
     category := CreateExpenseDto.category (new_fields d);
     createdAt := new_createdAt d;
     updatedAt := new_updatedAt d |}.

Definition insertOne (d : NewExpense) : M Collection InsertOneResult :=
  fun c =>
    let oid := oid_of (nextId c) in
    if existsb (fun e => bool_decide (_id e = oid)) (docs c)
    then (inl (Error "E11000 duplicate key error"),
          {| docs := docs c; nextId := nextId c + 1 |})
    else (inr {| insertedId := Some oid |},
          {| docs := docs c ++ [materialize oid d]; nextId := nextId c + 1 |}).

Definition findOne (q : Query) : M Collection (option Expense) :=
  fun c => (inr (head (List.filter (matches q) (docs c))), c).

(** Newest first; documents with equal [createdAt] keep their insertion
    order. *)
Fixpoint insert_desc (e : Expense) (l : list Expense) : list Expense :=
  match l with
  | [] => [e]
  | x :: l' => if createdAt x <=? createdAt e then e :: l else x :: insert_desc e l'
  end.
Definition sort_desc (l : list Expense) : list Expense := foldr insert_desc [] l.

(** A limit of 0 means no limit; a negative limit is taken by magnitude. *)
Definition page {A} (skip limit : Z) (l : list A) : list A :=
  let l' := drop (Z.to_nat skip) l in
  if limit =? 0 then l' else take (Z.to_nat (Z.abs limit)) l'.

Definition find_sorted (q : Query) (skip limit : Z) : M Collection (list Expense) :=
  fun c =>
    if skip <? 0
    then (inl (Error "Skip value must be non-negative"), c)
    else (inr (page skip limit (sort_desc (List.filter (matches q) (docs c)))), c).

Definition countDocuments (q : Query) : M Collection Z :=
  fun c => (inr (Z.of_nat (List.length (List.filter (matches q) (docs c)))), c).

Definition apply_set (u : UpdateDoc) (e : Expense) : Expense :=
  {| _id := _id e;
     userId := userId e;
     title := default (title e) (UpdateExpenseDto.title (set_fields u));
     description := match UpdateExpenseDto.description (set_fields u) with
                    | Some d => Some d
                    | None => description e
                    end;
     amount := default (amount e) (UpdateExpenseDto.amount (set_fields u));
     category := default (category e) (UpdateExpenseDto.category (set_fields u));
     createdAt := createdAt e;
     updatedAt := set_updatedAt u |}.

(** The first matching document is replaced in place. *)
Fixpoint update_first (q : Query) (u : UpdateDoc) (l : list Expense)
  : option Expense * list Expense :=
  match l with
  | [] => (None, [])
  | e :: l' =>
      if matches q e then (Some (apply_set u e), apply_set u e :: l')
      else let '(r, l'') := update_first q u l' in (r, e :: l'')
  end.

Definition findOneAndUpdate (q : Query) (u : UpdateDoc) : M Collection (option Expense) :=
  fun c => let '(r, l) := update_first q u (docs c) in
           (inr r, {| docs := l; nextId := nextId c |}).

Fixpoint delete_first (q : Query) (l : list Expense) : Z * list Expense :=
  match l with
  | [] => (0, [])
  | e :: l' =>
      if matches q e then (1, l')
      else let '(n, l'') := delete_first q l' in (n, e :: l'')
  end.

Definition deleteOne (q : Query) : M Collection DeleteResult :=
  fun c => let '(n, l) := delete_first q (docs c) in
           (inr {| deletedCount := n |}, {| docs := l; nextId := nextId c |}).

Definition scan : M Collection (list Expense) := fun c => (inr (docs c), c).

(** [deleteMany(q)]: every matching document goes; the count is reported. *)
Definition deleteMany (q : Query) : M Collection DeleteResult :=
  fun c => (inr {| deletedCount := Z.of_nat (List.length (List.filter (matches q) (docs c))) |},
            {| docs := List.filter (fun e => negb (matches q e)) (docs c);
               nextId := nextId c |}).

Definition driver : Driver Collection :=
  Build_Driver Collection insertOne findOne find_sorted countDocuments
               findOneAndUpdate deleteOne scan.

End Mongo.

(** ** ExpenseRepository (repositories/expense-repository.js) *)

(** The four stages after [$match] of the summary pipeline. *)
Module Pipeline.

(** [{ $group: { _id: null, totalAmount: {$sum: '$amount'},
                 totalCount: {$sum: 1}, categories: {$push: {category, amount}} } }]
    No input document, no group. *)
Record Totals : Type := {
  g_totalAmount : binary64;
  g_totalCount : Z;
  g_categories : list (string * binary64);
}.

Definition group_all (l : list Expense) : list Totals :=
  match l with
  | [] => []
  | _ :: _ =>
      [{| g_totalAmount := Double.sum (map amount l);
          g_totalCount := foldr Z.add 0 (map (fun _ => 1) l);
          g_categories := map (fun e => (category e, amount e)) l |}]
  end.

(** [{ $unwind: '$categories' }]: one document per array element. *)
Definition unwind (l : list Totals) : list (binary64 * Z * (string * binary64)) :=
  flat_map (fun g => map (fun c => (g_totalAmount g, g_totalCount g, c)) (g_categories g)) l.

(** [{ $group: { _id: {totalAmount, totalCount},
                 categoryBreakdown: {$push: {category, amount}} } }]
    Groups appear in the order of their first document. *)
Fixpoint push_group (k : binary64 * Z) (c : string * binary64)
    (gs : list (binary64 * Z * list (string * binary64)))
  : list (binary64 * Z * list (string * binary64)) :=
  match gs with
  | [] => [(k, [c])]
  | (k', cs) :: gs' =>
      if bool_decide (k' = k) then (k', cs ++ [c]) :: gs'
      else (k', cs) :: push_group k c gs'
  end.

Definition regroup (l : list (binary64 * Z * (string * binary64)))
  : list (binary64 * Z * list (string * binary64)) :=
  fold_left (fun gs d => push_group (fst d) (snd d) gs) l [].

(** [$setUnion] of one array: its distinct elements. *)
Definition setUnion (l : list string) : list string := remove_dups l.

(** [{ $project: ... }]: per distinct category, the [$sum] of the amounts
    and the [$size] of the [$filter]ed breakdown. *)
Definition project (g : binary64 * Z * list (string * binary64)) : ExpenseSummary :=
  let '(totalAmount, totalCount, categoryBreakdown) := g in
  {| totalAmount := totalAmount;
     totalCount := totalCount;
     categoryBreakdown :=
       map (fun category =>
              let items := List.filter (fun this => bool_decide (fst this = category))
                                       categoryBreakdown in
              {| CategoryTotal.category := category;
                 CategoryTotal.amount := Double.sum (map snd items);
                 CategoryTotal.count := Z.of_nat (List.length items) |})
           (setUnion (map fst categoryBreakdown)) |}.

Definition run (matchStage : Query) (collection : list Expense) : list ExpenseSummary :=
  map project (regroup (unwind (group_all (List.filter (matches matchStage) collection)))).

End Pipeline.

Definition no_query : Query :=
  {| q_id := None; q_userId := None; q_gte := None; q_lte := None; q_category := None |}.

Module ExpenseRepository.
Section Repository.

Context {S : Type} (collection : Driver S) (rt : Runtime).

Definition findById (id : string) : M S (option Expense) :=
  try_catch
    (if negb (ObjectId.isValid id) then ret None
     else (oid <-- lift_sum (ObjectId.new id) ;;
           findOne collection
             {| q_id := Some oid; q_userId := None; q_gte := None; q_lte := None;
                q_category := None |})%js)
    (wrap_as "Failed to find expense").

Definition create (userId : string) (expenseData : CreateExpenseDto.t) : M S Expense :=
  try_catch
    (if negb (ObjectId.isValid userId) then throw (ApiError "Invalid user ID" 400)
     else (uid <-- lift_sum (ObjectId.new userId) ;;
           result <-- insertOne collection
                        {| new_fields := expenseData; new_userId := uid;
                           new_createdAt := now rt; new_updatedAt := now rt |} ;;
           match insertedId result with
           | None => throw (ApiError "Failed to create expense" 500)
           | Some oid =>
               createdExpense <-- findById (toHexString oid) ;;
               match createdExpense with
               | None => throw (ApiError "Failed to retrieve created expense" 500)
               | Some e => ret e
               end
           end)%js)
    (rethrow_ApiError_or "Failed to create expense").

Definition findByIdAndUserId (id userId : string) : M S (option Expense) :=
  try_catch
    (if negb (ObjectId.isValid id) || negb (ObjectId.isValid userId) then ret None
     else (oid <-- lift_sum (ObjectId.new id) ;;
           uid <-- lift_sum (ObjectId.new userId) ;;
           findOne collection
             {| q_id := Some oid; q_userId := Some uid; q_gte := None; q_lte := None;
                q_category := None |})%js)
    (wrap_as "Failed to find expense").

(** The query of [findWithFilters] and of the [$match] stage: the owner,
    the bounds that are given, and (listing only) a non-empty category. *)
Definition build_query (userId : ObjectId) (startDate endDate : option Date)
    (category : option string) : Query :=
  {| q_id := None;
     q_userId := Some userId;
     q_gte := startDate;
     q_lte := endDate;
     q_category := if string_truthy category then category else None |}.

Definition findWithFilters (filters : ExpenseFilter.t) : M S (list Expense * Z) :=
  try_catch
    (let query := build_query (ExpenseFilter.userId filters) (ExpenseFilter.startDate filters)
                    (ExpenseFilter.endDate filters) (ExpenseFilter.category filters) in
     let limit := number_or (default NaN (ExpenseFilter.limit filters)) 20 in
     let offset := number_or (default NaN (ExpenseFilter.offset filters)) 0 in
     promise_all2 (find_sorted collection query offset limit)
                  (countDocuments collection query))
    (wrap_as "Failed to fetch expenses").

Definition updateByIdAndUserId (id userId : string) (updates : UpdateExpenseDto.t)
  : M S (option Expense) :=
  try_catch
    (if negb (ObjectId.isValid id) || negb (ObjectId.isValid userId) then ret None
     else (let updateDoc := {| set_fields := updates; set_updatedAt := now rt |} in
           oid <-- lift_sum (ObjectId.new id) ;;
           uid <-- lift_sum (ObjectId.new userId) ;;
           findOneAndUpdate collection
             {| q_id := Some oid; q_userId := Some uid; q_gte := None; q_lte := None;
                q_category := None |} updateDoc)%js)
    (wrap_as "Failed to update expense").

Definition deleteByIdAndUserId (id userId : string) : M S bool :=
  try_catch
    (if negb (ObjectId.isValid id) || negb (ObjectId.isValid userId) then ret false
     else (oid <-- lift_sum (ObjectId.new id) ;;
           uid <-- lift_sum (ObjectId.new userId) ;;
           result <-- deleteOne collection
                        {| q_id := Some oid; q_userId := Some uid; q_gte := None;
                           q_lte := None; q_category := None |} ;;
           if deletedCount result =? 1 then ret true else ret false)%js)
    (wrap_as "Failed to delete expense").

Definition aggregate {R} (pipeline : list Expense -> list R) : M S (list R) :=
  (l <-- scan collection ;; ret (pipeline l))%js.

Definition getSummary (userId : string) (startDate endDate : option Date) : M S ExpenseSummary :=
  try_catch
    (if negb (ObjectId.isValid userId) then throw (ApiError "Invalid user ID" 400)
     else (uid <-- lift_sum (ObjectId.new userId) ;;
           let matchStage := build_query uid startDate endDate None in
           result <-- aggregate (Pipeline.run matchStage) ;;
           match result with
           | [] => ret {| totalAmount := Double.zero; totalCount := 0;
                          categoryBreakdown := [] |}
           | r :: _ => ret r
           end)%js)
    (wrap_as "Failed to get expense summary").

Definition getRecentByUserId (userId : string) (limit : Z) : M S (list Expense) :=
  try_catch
    (if negb (ObjectId.isValid userId) then throw (ApiError "Invalid user ID" 400)
     else (uid <-- lift_sum (ObjectId.new userId) ;;
           find_sorted collection (build_query uid None None None) 0 limit)%js)
    (wrap_as "Failed to get recent expenses").

Definition countByUserId (userId : string) : M S Z :=
  try_catch
    (if negb (ObjectId.isValid userId) then throw (ApiError "Invalid user ID" 400)
     else (uid <-- lift_sum (ObjectId.new userId) ;;
           countDocuments collection (build_query uid None None None))%js)
    (wrap_as "Failed to count expenses").

(** [deleteMany] is the one collection operation of the repository that
    [Driver] does not list. *)
Context (deleteMany : Query -> M S DeleteResult).

Definition deleteAllByUserId (userId : string) : M S Z :=
  try_catch
    (if negb (ObjectId.isValid userId) then ret 0
     else (uid <-- lift_sum (ObjectId.new userId) ;;
           result <-- deleteMany (build_query uid None None None) ;;
           ret (deletedCount result))%js)
    (wrap_as "Failed to delete expenses").

End Repository.
End ExpenseRepository.

(** ** DateHelpers (utils/date-helpers.js) *)

(** [s.split(sep)[0]]: the characters before the first [sep]. *)
Fixpoint split_head (sep : ascii) (s : list ascii) : list ascii :=
  match s with
  | [] => []
  | c :: s' => if Ascii.eqb c sep then [] else c :: split_head sep s'
  end.

Module DateRange.
Record t : Type := { startDate : Date; endDate : Date }.
End DateRange.

Module DateHelpers.
Section Helpers.

Context (rt : Runtime).

Definition getPastWeekRange : DateRange.t :=
  {| DateRange.startDate := DateOps.setHours rt 0 0 0 0 (DateOps.addDays rt (-7) (now rt));
     DateRange.endDate := DateOps.setHours rt 23 59 59 999 (now rt) |}.

Definition getPastMonthRange : DateRange.t :=
  {| DateRange.startDate := DateOps.setHours rt 0 0 0 0 (DateOps.addMonths rt (-1) (now rt));
     DateRange.endDate := DateOps.setHours rt 23 59 59 999 (now rt) |}.

Definition getPast3MonthsRange : DateRange.t :=
  {| DateRange.startDate := DateOps.setHours rt 0 0 0 0 (DateOps.addMonths rt (-3) (now rt));
     DateRange.endDate := DateOps.setHours rt 23 59 59 999 (now rt) |}.

Definition parseDate (dateString : string) : option Date := Date_parse rt dateString.

Definition getCustomRange (startDateString endDateString : string) : option DateRange.t :=
  match parseDate startDateString, parseDate endDateString with
  | Some startDate, Some endDate =>
      if endDate <? startDate then None
      else Some {| DateRange.startDate := DateOps.setHours rt 0 0 0 0 startDate;
                   DateRange.endDate := DateOps.setHours rt 23 59 59 999 endDate |}
  | _, _ => None
  end.

Definition getDateRange (period startDateString endDateString : option string)
  : option DateRange.t :=
  match period with
  | Some p =>
      if String.eqb p "week" then Some getPastWeekRange
      else if String.eqb p "month" then Some getPastMonthRange
      else if String.eqb p "3months" then Some getPast3MonthsRange
      else if String.eqb p "custom" then
        if negb (string_truthy startDateString) || negb (string_truthy endDateString)
        then None
        else getCustomRange (default "" startDateString) (default "" endDateString)
      else None
  | None => None
  end.

Definition formatDate (date : Date) : string :=
  text (split_head "T"%char (chars (DateOps.toISOString date))).

Definition getStartOfMonth (date : Date) : Date :=
  let startOfMonth := DateOps.make rt (DateOps.getFullYear rt date) (DateOps.getMonth rt date) 1 in
  DateOps.setHours rt 0 0 0 0 startOfMonth.

Definition getEndOfMonth (date : Date) : Date :=
  let endOfMonth :=
    DateOps.make rt (DateOps.getFullYear rt date) (DateOps.getMonth rt date + 1) 0 in
  DateOps.setHours rt 23 59 59 999 endOfMonth.

End Helpers.
End DateHelpers.

(** ** parseInt (no radix argument) *)

Definition digit_value (radix : Z) (c : ascii) : option Z :=
  match JSON.hex_value c with
  | Some d => if d <? radix then Some d else None
  | None => None
  end.

Fixpoint read_int (radix : Z) (s : list ascii) (acc : option Z) : option Z :=
  match s with
  | [] => acc
  | c :: s' =>
      match digit_value radix c with
      | Some d => read_int radix s' (Some (default 0 acc * radix + d))
      | None => acc
      end
  end.

(** One white-space character or line terminator at the head of a string,
    those above ASCII in their UTF-8 form: U+00A0, U+1680, U+2000 to U+200A,
    U+2028, U+2029, U+202F, U+205F, U+3000 and U+FEFF. *)
Definition strip_space (s : list ascii) : option (list ascii) :=
  match s with
  | c1 :: s1 =>
      let a := ascii_code c1 in
      if is_space c1 || (a =? 11) || (a =? 12) then Some s1
      else
        match s1 with
        | c2 :: s2 =>
            let b := ascii_code c2 in
            if (a =? 194) && (b =? 160) then Some s2
            else
              match s2 with
              | c3 :: s3 =>
                  let d := ascii_code c3 in
                  if ((a =? 225) && (b =? 154) && (d =? 128))
                     || ((a =? 226) && (b =? 128)
                         && (((128 <=? d) && (d <=? 138)) || (d =? 168) || (d =? 169)
                             || (d =? 175)))
                     || ((a =? 226) && (b =? 129) && (d =? 159))
                     || ((a =? 227) && (b =? 128) && (d =? 128))
                     || ((a =? 239) && (b =? 187) && (d =? 191))
                  then Some s3 else None
              | [] => None
              end
        | [] => None
        end
  | [] => None
  end.

Fixpoint trim_from (fuel : nat) (s : list ascii) : list ascii :=
  match fuel with
  | O => s
  | S fuel' => match strip_space s with
               | Some s' => trim_from fuel' s'
               | None => s
               end
  end.

Definition trim_start (s : list ascii) : list ascii := trim_from (List.length s) s.

(** The number of an integer: the nearest binary64 value, which is an
    integer again. An integer beyond the largest value of the format is
    Infinity in the host and keeps its value here. *)
Definition integer_number (n : Z) : number :=
  match Double.integral (Double.of_Z n) with
  | Some z => Num z
  | None => Num n
  end.

Definition parseInt (s : string) : number :=
  let s0 := trim_start (chars s) in
  let '(sign, s1) :=
    match s0 with
    | c :: s' => if ascii_code c =? 45 then (-1, s')
                 else if ascii_code c =? 43 then (1, s') else (1, s0)
    | [] => (1, s0)
    end in
  let '(radix, s2) :=
    match s1 with
    | z :: x :: s' => if (ascii_code z =? 48) && ((ascii_code x =? 120) || (ascii_code x =? 88))
                      then (16, s') else (10, s1)
    | _ => (10, s1)
    end in
  match read_int radix s2 None with
  | Some n => integer_number (sign * n)
  | None => NaN
  end.

(** ** ExpenseService (services/expense-service.js) *)

Record World (S : Type) : Type := { store : S; redis : Redis }.
Arguments store {S}.
Arguments redis {S}.
Arguments Build_World {S}.

Definition EXPENSE_CACHE_TTL : Z := 1800.
Definition SUMMARY_CACHE_TTL : Z := 3600.

Definition summary_value (s : ExpenseSummary) : value :=
  VObj [("totalAmount", js_number (totalAmount s));
        ("totalCount", VNum (Num (totalCount s)));
        ("categoryBreakdown",
         VArr (map (fun c => VObj [("category", VStr (CategoryTotal.category c));
                                   ("amount", js_number (CategoryTotal.amount c));
                                   ("count", VNum (Num (CategoryTotal.count c)))])
                   (categoryBreakdown s)))].

Module ExpenseService.
Section Service.

Context {S : Type} (collection : Driver S) (rt : Runtime).

Definition repository {A} (m : M S A) : M (World S) A :=
  zoom store (fun s w => {| store := s; redis := redis w |}) m.
Definition redisClient {A} (m : M Redis A) : M (World S) A :=
  zoom redis (fun r w => {| store := store w; redis := r |}) m.

Definition getExpensesCacheKey (userId : string) (filters : ExpenseFilter.t) : string :=
  let filterString :=
    JSON.stringify
      (VObj [("startDate", opt_value VDate (ExpenseFilter.startDate filters));
             ("endDate", opt_value VDate (ExpenseFilter.endDate filters));
             ("category", opt_value VStr (ExpenseFilter.category filters));
             ("limit", opt_value VNum (ExpenseFilter.limit filters));
             ("offset", opt_value VNum (ExpenseFilter.offset filters))]) in
  RedisClient.getExpensesCacheKey userId filterString.

Definition cacheExpenses (cacheKey : string) (data : value) : M (World S) unit :=
  try_catch (redisClient (RedisClient.setJson cacheKey data (Some EXPENSE_CACHE_TTL)))
            (fun _ => ret tt).

Definition getCachedExpenses (cacheKey : string) : M (World S) value :=
  try_catch (redisClient (RedisClient.getJson cacheKey)) (fun _ => ret VNull).

Definition cacheSummary (cacheKey : string) (summary : value) : M (World S) unit :=
  try_catch (redisClient (RedisClient.setJson cacheKey summary (Some SUMMARY_CACHE_TTL)))
            (fun _ => ret tt).

Definition getCachedSummary (cacheKey : string) : M (World S) value :=
  try_catch (redisClient (RedisClient.getJson cacheKey)) (fun _ => ret VNull).

Definition invalidateUserCaches (userId : string) : M (World S) unit :=
  try_catch
    (redisClient
       (promise_all2 (RedisClient.deletePattern ("expenses:" +:+ userId +:+ "*"))
                     (RedisClient.deletePattern ("expense_summary:" +:+ userId +:+ "*")))
     ;;; ret tt)%js
    (fun _ => ret tt).

Definition createExpense (userId : string) (expenseData : CreateExpenseDto.t)
  : M (World S) value :=
  try_catch
    (expense <-- repository (ExpenseRepository.create collection rt userId expenseData) ;;
     let expenseResponse := transformExpenseToResponse expense in
     invalidateUserCaches userId ;;;
     ret expenseResponse)%js
    (rethrow_ApiError_or "Failed to create expense").

Definition getExpenses (userId : string) (queryParams : ExpenseQueryParams.t)
  : M (World S) value :=
  try_catch
    (let page := parseInt (if string_truthy (ExpenseQueryParams.page queryParams)
                           then default "" (ExpenseQueryParams.page queryParams) else "1") in
     let limit := parseInt (if string_truthy (ExpenseQueryParams.limit queryParams)
                            then default "" (ExpenseQueryParams.limit queryParams) else "20") in
     let offset := number_mul (number_sub page (Num 1)) limit in
     let dateRange :=
       if string_truthy (ExpenseQueryParams.period queryParams)
       then DateHelpers.getDateRange rt (ExpenseQueryParams.period queryParams)
              (ExpenseQueryParams.startDate queryParams)
              (ExpenseQueryParams.endDate queryParams)
       else None in
     uid <-- lift_sum (ObjectId.new userId) ;;
     let filters :=
       {| ExpenseFilter.userId := uid;
          ExpenseFilter.startDate := DateRange.startDate <$> dateRange;
          ExpenseFilter.endDate := DateRange.endDate <$> dateRange;
          ExpenseFilter.category := ExpenseQueryParams.category queryParams;
          ExpenseFilter.limit := Some limit;
          ExpenseFilter.offset := Some offset |} in
     let cacheKey := getExpensesCacheKey userId filters in
     cachedResult <-- getCachedExpenses cacheKey ;;
     if truthy cachedResult then ret cachedResult
     else
       found <-- repository (ExpenseRepository.findWithFilters collection filters) ;;
       let expenseResponses := map transformExpenseToResponse (fst found) in
       let result := VObj [("expenses", VArr expenseResponses);
                           ("total", VNum (Num (snd found)));
                           ("page", VNum page);
                           ("limit", VNum limit)] in
       cacheExpenses cacheKey result ;;;
       ret result)%js
    (rethrow_ApiError_or "Failed to get expenses").

Definition getExpenseById (expenseId userId : string) : M (World S) value :=
  try_catch
    (expense <-- repository (ExpenseRepository.findByIdAndUserId collection expenseId userId) ;;
     match expense with
     | None => throw (ApiError "Expense not found" 404)
     | Some e => ret (transformExpenseToResponse e)
     end)%js
    (rethrow_ApiError_or "Failed to get expense").

Definition updateExpense (expenseId userId : string) (updates : UpdateExpenseDto.t)
  : M (World S) value :=
  try_catch
    (updatedExpense <-- repository
        (ExpenseRepository.updateByIdAndUserId collection rt expenseId userId updates) ;;
     match updatedExpense with
     | None => throw (ApiError "Expense not found" 404)
     | Some e =>
         invalidateUserCaches userId ;;;
         ret (transformExpenseToResponse e)
     end)%js
    (rethrow_ApiError_or "Failed to update expense").

Definition deleteExpense (expenseId userId : string) : M (World S) unit :=
  try_catch
    (deleted <-- repository
        (ExpenseRepository.deleteByIdAndUserId collection expenseId userId) ;;
     if negb deleted then throw (ApiError "Expense not found" 404)
     else invalidateUserCaches userId)%js
    (rethrow_ApiError_or "Failed to delete expense").

Definition getExpenseSummary (userId : string) (queryParams : ExpenseQueryParams.t)
  : M (World S) value :=
  try_catch
    (let dateRange :=
       if string_truthy (ExpenseQueryParams.period queryParams)
       then DateHelpers.getDateRange rt (ExpenseQueryParams.period queryParams)
              (ExpenseQueryParams.startDate queryParams)
              (ExpenseQueryParams.endDate queryParams)
       else None in
     let cacheKey := RedisClient.getExpenseSummaryCacheKey userId
                       (ExpenseQueryParams.period queryParams) in
     cachedSummary <-- getCachedSummary cacheKey ;;
     if truthy cachedSummary then ret cachedSummary
     else
       summary <-- repository
           (ExpenseRepository.getSummary collection userId
              (DateRange.startDate <$> dateRange) (DateRange.endDate <$> dateRange)) ;;
       cacheSummary cacheKey (summary_value summary) ;;;
       ret (summary_value summary))%js
    (rethrow_ApiError_or "Failed to get expense summary").

Definition getRecentExpenses (userId : string) (limit : Z) : M (World S) value :=
  try_catch
    (expenses <-- repository (ExpenseRepository.getRecentByUserId collection userId limit) ;;
     ret (VArr (map transformExpenseToResponse expenses)))%js
    (wrap_as "Failed to get recent expenses").

End Service.
End ExpenseService.

(** The three mutations of the service, as one request type. *)
Inductive Mutation : Type :=
  | Create (expenseData : CreateExpenseDto.t)
  | Update (expenseId : string) (updates : UpdateExpenseDto.t)
  | Delete (expenseId : string).

Definition mutate {S} (collection : Driver S) (rt : Runtime) (userId : string) (m : Mutation)
  : M (World S) value :=
  match m with
  | Create d => ExpenseService.createExpense collection rt userId d
  | Update i u => ExpenseService.updateExpense collection rt i userId u
  | Delete i => (ExpenseService.deleteExpense collection i userId ;;; ret VUndefined)%js
  end.

(** ** Fixtures used by the examples *)

Definition rt0 : Runtime :=
  {| now := 1709251199999; LocalTZA := 0; Date_parse := fun _ => None |}.

Definition alice : string := "65e0a1b2c3d4e5f601234567".
Definition bob : string := "65e0a1b2c3d4e5f6012345ff".

(** An expense of a whole amount, and one of the amount [digits / 100]. *)
Definition dto (t : string) (a : Z) (c : string) : CreateExpenseDto.t :=
  {| CreateExpenseDto.title := t; CreateExpenseDto.description := None;
     CreateExpenseDto.amount := Double.of_Z a; CreateExpenseDto.category := c |}.

Definition priced (t : string) (hundredths : Z) (c : string) : CreateExpenseDto.t :=
  {| CreateExpenseDto.title := t; CreateExpenseDto.description := None;
     CreateExpenseDto.amount := Double.of_decimal false hundredths (-2);
     CreateExpenseDto.category := c |}.

Definition empty_collection : Collection := {| docs := []; nextId := 1 |}.

Definition no_params : ExpenseQueryParams.t :=
  {| ExpenseQueryParams.period := None; ExpenseQueryParams.startDate := None;
     ExpenseQueryParams.endDate := None; ExpenseQueryParams.category := None;
     ExpenseQueryParams.page := None; ExpenseQueryParams.limit := None |}.

Definition cold {S} (s : S) : World S :=
  {| store := s; redis := {| reachable := true; data := ∅ |} |}.

(** A driver whose insert acknowledges without an identifier, and one whose
    reads find nothing. *)
Definition unacknowledged : Driver Collection :=
  Build_Driver Collection (fun _ c => (inr {| insertedId := None |}, c))
    Mongo.findOne Mongo.find_sorted Mongo.countDocuments Mongo.findOneAndUpdate
    Mongo.deleteOne Mongo.scan.
Definition blind : Driver Collection :=
  Build_Driver Collection Mongo.insertOne (fun _ c => (inr None, c))
    Mongo.find_sorted Mongo.countDocuments Mongo.findOneAndUpdate
    Mongo.deleteOne Mongo.scan.

(** ** Vocabulary of the statements *)

(** What a reachable cache holds under a key, as [getJson] reports it. *)
Definition cached (r : Redis) (key : string) : value :=
  match data r !! key with
  | Some (jsonString, _) =>
      if string_truthy (Some jsonString) then default VNull (JSON.parse jsonString) else VNull
  | None => VNull
  end.

(** The world after a successful [setJson]. *)
Definition stored {S} (key : string) (v : value) (ttl : Z) (w : World S) : World S :=
  match JSON.stringify v with
  | Some jsonString =>
      {| store := store w;
         redis := {| reachable := reachable (redis w);
                     data := <[key := (jsonString, Some ttl)]> (data (redis w)) |} |}
  | None => w
  end.

Definition filter_fields (filters : ExpenseFilter.t) : value :=
  VObj [("startDate", opt_value VDate (ExpenseFilter.startDate filters));
        ("endDate", opt_value VDate (ExpenseFilter.endDate filters));
        ("category", opt_value VStr (ExpenseFilter.category filters));
        ("limit", opt_value VNum (ExpenseFilter.limit filters));
        ("offset", opt_value VNum (ExpenseFilter.offset filters))].

(** A date parser for the form YYYY-MM-DD (read as midnight UTC), enough
    for the examples; every other string is an invalid date here. *)
Definition parse_day (s : string) : option Date :=
  match chars s with
  | [y1; y2; y3; y4; d1; m1; m2; d2; a1; a2] =>
      if (ascii_code d1 =? 45) && (ascii_code d2 =? 45)
         && forallb is_digit [y1; y2; y3; y4; m1; m2; a1; a2]
      then
        let n c := ascii_code c - 48 in
        let y := ((n y1 * 10 + n y2) * 10 + n y3) * 10 + n y4 in
        let m := n m1 * 10 + n m2 in
        let d := n a1 * 10 + n a2 in
        if (1 <=? m) && (m <=? 12) && (1 <=? d) && (d <=? 31)
        then Some (DateOps.days_from_civil y m d * DateOps.msPerDay) else None
      else None
  | _ => None
  end.

(** A host one hour east of Greenwich. *)
Definition day_runtime : Runtime :=
  {| now := 1709251199999; LocalTZA := 3600000; Date_parse := parse_day |}.

(** The collection after creating three expenses for [alice]. *)
Definition week_of_expenses : Collection :=
  let run d c := snd (ExpenseRepository.create Mongo.driver rt0 alice d c) in
  run (dto "tv" 3000 "Electronics")
    (run (dto "bread" 2000 "Groceries") (run (dto "milk" 1000 "Groceries") empty_collection)).

(** What [deletePattern] leaves of the cache, and the world after
    [invalidateUserCaches]. *)
Definition purge (pattern : string) (r : Redis) : Redis :=
  {| reachable := reachable r;
     data := filter (fun kv => Glob.glob pattern (fst kv) = false) (data r) |}.

Definition invalidated {S} (user : string) (w : World S) : World S :=
  if reachable (redis w)
  then {| store := store w;
          redis := purge ("expense_summary:" +:+ user +:+ "*")
                         (purge ("expenses:" +:+ user +:+ "*") (redis w)) |}
  else w.

(** The cache adapter going away and coming back; its contents stay. *)
Definition set_reachable {S} (b : bool) (w : World S) : World S :=
  {| store := store w; redis := {| reachable := b; data := data (redis w) |} |}.

(** The filter and the response that [getExpenses] builds. *)
Definition listing_filters (rt : Runtime) (uid : ObjectId) (queryParams : ExpenseQueryParams.t)
  : ExpenseFilter.t :=
  let page := parseInt (if string_truthy (ExpenseQueryParams.page queryParams)
                        then default "" (ExpenseQueryParams.page queryParams) else "1") in
  let limit := parseInt (if string_truthy (ExpenseQueryParams.limit queryParams)
                         then default "" (ExpenseQueryParams.limit queryParams) else "20") in
  let dateRange :=
    if string_truthy (ExpenseQueryParams.period queryParams)
    then DateHelpers.getDateRange rt (ExpenseQueryParams.period queryParams)
           (ExpenseQueryParams.startDate queryParams) (ExpenseQueryParams.endDate queryParams)
    else None in
  {| ExpenseFilter.userId := uid;
     ExpenseFilter.startDate := DateRange.startDate <$> dateRange;
     ExpenseFilter.endDate := DateRange.endDate <$> dateRange;
     ExpenseFilter.category := ExpenseQueryParams.category queryParams;
     ExpenseFilter.limit := Some limit;
     ExpenseFilter.offset := Some (number_mul (number_sub page (Num 1)) limit) |}.

Definition listing (queryParams : ExpenseQueryParams.t) (found : list Expense * Z) : value :=
  VObj [("expenses", VArr (map transformExpenseToResponse (fst found)));
        ("total", VNum (Num (snd found)));
        ("page", VNum (parseInt (if string_truthy (ExpenseQueryParams.page queryParams)
                                 then default "" (ExpenseQueryParams.page queryParams)
                                 else "1")));
        ("limit", VNum (parseInt (if string_truthy (ExpenseQueryParams.limit queryParams)
                                  then default "" (ExpenseQueryParams.limit queryParams)
                                  else "20")))].

(** The date bounds that [getExpenseSummary] hands to the repository. *)
Definition summary_bounds (rt : Runtime) (queryParams : ExpenseQueryParams.t)
  : option Date * option Date :=
  let dateRange :=
    if string_truthy (ExpenseQueryParams.period queryParams)
    then DateHelpers.getDateRange rt (ExpenseQueryParams.period queryParams)
           (ExpenseQueryParams.startDate queryParams) (ExpenseQueryParams.endDate queryParams)
    else None in
  (DateRange.startDate <$> dateRange, DateRange.endDate <$> dateRange).

(** A pattern character that stands for itself. *)
Definition literal (c : ascii) : bool :=
  let n := ascii_code c in
  negb ((n =? 42) || (n =? 63) || (n =? 91) || (n =? 92)).

Definition summary_params (period : option string) : ExpenseQueryParams.t :=
  {| ExpenseQueryParams.period := period; ExpenseQueryParams.startDate := None;
     ExpenseQueryParams.endDate := None; ExpenseQueryParams.category := None;
     ExpenseQueryParams.page := None; ExpenseQueryParams.limit := None |}.

(** The world in which the week's summary has been read once, through a
    working cache. *)
Definition week_summarised : World Collection :=
  snd (ExpenseService.getExpenseSummary Mongo.driver rt0 alice (summary_params None)
         (cold week_of_expenses)).

(** The order [sort({createdAt: -1})] asks for, and what the server may
    answer to [find(q).sort({createdAt: -1}).skip(skip).limit(limit)] over
    the documents [all]: a page of some arrangement of the matching
    documents that is newest first. Nothing orders documents of equal
    [createdAt]. *)
Definition newer_or_same (a b : Expense) : Prop := createdAt b <= createdAt a.

Definition answers (all : list Expense) (q : Query) (skip limit : Z) (r : list Expense) : Prop :=
  exists l, Permutation l (List.filter (matches q) all)
            /\ StronglySorted newer_or_same l
            /\ r = Mongo.page skip limit l.

(** A driver whose reads answer within that contract over the documents it
    holds, and leave them alone. *)
Definition lawful {S} (collection : Driver S) (docs_of : S -> list Expense) : Prop :=
  forall q skip limit s,
    0 <= skip ->
    (exists r, find_sorted collection q skip limit s = (inr r, s)
               /\ answers (docs_of s) q skip limit r)
    /\ countDocuments collection q s
       = (inr (Z.of_nat (List.length (List.filter (matches q) (docs_of s)))), s).

Definition page_filter (uid : ObjectId) (startDate endDate : option Date)
    (category : option string) (limit offset : Z) : ExpenseFilter.t :=
  {| ExpenseFilter.userId := uid;
     ExpenseFilter.startDate := startDate;
     ExpenseFilter.endDate := endDate;
     ExpenseFilter.category := category;
     ExpenseFilter.limit := Some (Num limit);
     ExpenseFilter.offset := Some (Num offset) |}.

(** Expenses of [alice] numbered from 1, the k-th created at time [t k]. *)
Definition numbered (t : Z -> Z) (n : nat) : list Expense :=
  map (fun k => {| _id := Mongo.oid_of (Z.of_nat k);
                   userId := {| toHexString := alice |};
                   title := "expense"; description := None; amount := Double.of_Z 100;
                   category := "Others";
                   createdAt := t (Z.of_nat k); updatedAt := t (Z.of_nat k) |})
      (seq 1 n).

Definition of_alice : Query :=
  {| q_id := None; q_userId := Some {| toHexString := alice |}; q_gte := None;
     q_lte := None; q_category := None |}.

(** The two inner loops of [JSON.write] and the inner loop of [JSON.norm],
    by name. *)
Fixpoint elements_text (l : list value) : list ascii :=
  match l with
  | [] => []
  | x :: l' => JSON.write x ++ match l' with [] => [] | _ :: _ => ","%char :: elements_text l' end
  end.

Fixpoint members_text (first : bool) (l : list (string * value)) : list ascii :=
  match l with
  | [] => []
  | (k, x) :: l' =>
      match x with
      | VUndefined => members_text first l'
      | _ => (if first then [] else [","%char])
             ++ JSON.quote k ++ ":"%char :: JSON.write x ++ members_text false l'
      end
  end.

Fixpoint norm_members (l : list (string * value)) : list (string * value) :=
  match l with
  | [] => []
  | (k, x) :: l' =>
      match x with
      | VUndefined => norm_members l'
      | _ => (k, JSON.norm x) :: norm_members l'
      end
  end.

(** ** Vocabulary of numbers and their texts *)

(** What may follow a number: nothing, or a character that continues
    neither its digits nor a fraction nor an exponent. *)
Definition ends_number (rest : list ascii) : Prop :=
  match rest with
  | [] => True
  | c :: _ => is_digit c = false /\ ascii_code c <> 46 /\ ascii_code c <> 101 /\ ascii_code c <> 69
  end.

(** The ratio [P/Q] is the value [m * 2^e]. *)
Definition is_value (P Q : Z) (m : positive) (e : Z) : Prop :=
  if 0 <=? e then P = Zpos m * 2 ^ e * Q else P * 2 ^ (- e) = Zpos m * Q.

(** One more digit to the right of a decimal. *)
Definition digit_step (a : Z) (c : ascii) : Z := 10 * a + (ascii_code c - 48).

(** A value whose numbers are numbers of the language, each in its one
    form: an integer is below 2^53 in magnitude, and any other number is a
    binary64 value that [js_number] leaves as it is. *)
Fixpoint proper (v : value) : bool :=
  match v with
  | VNum (Num z) => Z.abs z <? 2 ^ 53
  | VDouble x => Double.is_binary64 x
                 && match js_number x with VDouble _ => true | _ => false end
  | VArr items => forallb proper items
  | VObj props => forallb (fun kv => proper (snd kv)) props
  | _ => true
  end.

(** What may follow a value inside a JSON text: nothing, a comma or a
    closing bracket. *)
Definition delimited (rest : list ascii) : Prop :=
  match rest with
  | [] => True
  | c :: _ => ascii_code c = 44 \/ ascii_code c = 93 \/ ascii_code c = 125
  end.

(** What the main statement says of one value. *)
Definition reads_back (v : value) : Prop :=
  forall fuel rest,
    delimited rest -> (List.length (JSON.write v) <= fuel)%nat ->
    JSON.read_value fuel (JSON.write v ++ rest) = Some (JSON.norm v, rest).

(** The world in which the summary of February 2024 has been read once
    under the period [custom]. *)
Definition custom_summarised : World Collection :=
  snd (ExpenseService.getExpenseSummary Mongo.driver day_runtime alice
         {| ExpenseQueryParams.period := Some "custom";
            ExpenseQueryParams.startDate := Some "2024-02-01";
            ExpenseQueryParams.endDate := Some "2024-02-29";
            ExpenseQueryParams.category := None;
            ExpenseQueryParams.page := None;
            ExpenseQueryParams.limit := None |}
         (cold week_of_expenses)).

(** ** Proof support: what [simpl] leaves folded, and unfolding the monad *)

Arguments ExpenseRepository.findById : simpl never.
Arguments ExpenseRepository.create : simpl never.
Arguments ExpenseRepository.findByIdAndUserId : simpl never.
Arguments ExpenseRepository.findWithFilters : simpl never.
Arguments ExpenseRepository.updateByIdAndUserId : simpl never.
Arguments ExpenseRepository.deleteByIdAndUserId : simpl never.
Arguments ExpenseRepository.getSummary : simpl never.
Arguments ExpenseRepository.getRecentByUserId : simpl never.
Arguments ExpenseService.getExpensesCacheKey : simpl never.
Arguments ExpenseService.cacheExpenses : simpl never.
Arguments ExpenseService.getCachedExpenses : simpl never.
Arguments ExpenseService.cacheSummary : simpl never.
Arguments ExpenseService.getCachedSummary : simpl never.
Arguments ExpenseService.invalidateUserCaches : simpl never.
Arguments RedisClient.getExpensesCacheKey : simpl never.
Arguments RedisClient.getExpenseSummaryCacheKey : simpl never.
Arguments RedisClient.getJson : simpl never.
Arguments RedisClient.setJson : simpl never.
Arguments RedisClient.deletePattern : simpl never.
Arguments DateHelpers.getDateRange : simpl never.
Arguments JSON.stringify : simpl never.
Arguments JSON.parse : simpl never.
Arguments parseInt : simpl never.
Arguments base64 : simpl never.
Arguments Mongo.oid_of : simpl never.
Arguments Mongo.materialize : simpl never.

Ltac run :=
  unfold try_catch, bind, ret, throw, lift_sum, zoom, promise_all2,
    rethrow_ApiError_or, wrap_as; simpl.

(** ** Further fixtures and vocabulary *)

(** A store that cannot be reached: every operation rejects. *)
Definition offline {S : Type} : Driver S :=
  let down {A} : M S A := throw (Error "MongoNetworkError") in
  Build_Driver S (fun _ => down) (fun _ => down) (fun _ _ _ => down) (fun _ => down)
    (fun _ _ => down) (fun _ => down) down.

(** A listing request, field by field, and the number [getExpenses] reads
    off an optional parameter with a default. *)
Definition listing_request (period startDate endDate category page limit : option string)
  : ExpenseQueryParams.t :=
  {| ExpenseQueryParams.period := period;
     ExpenseQueryParams.startDate := startDate;
     ExpenseQueryParams.endDate := endDate;
     ExpenseQueryParams.category := category;
     ExpenseQueryParams.page := page;
     ExpenseQueryParams.limit := limit |}.

Definition parsed_or (o : option string) (d : string) : number :=
  parseInt (if string_truthy o then default "" o else d).

(** The date part of the ISO form: the year (four digits, or a sign and six
    digits), the month and the day of the month, in universal time. *)
Definition date_part_text (t : Date) : list ascii :=
  let '(y, m, d) := DateOps.civil_from_days (t / DateOps.msPerDay) in
  (if (0 <=? y) && (y <=? 9999) then DateOps.pad 4 y
   else (if y <? 0 then "-"%char else "+"%char) :: DateOps.pad 6 (Z.abs y))
  ++ "-"%char :: DateOps.pad 2 m ++ "-"%char :: DateOps.pad 2 d.

(** Month arithmetic on constants, ahead of [lia]. *)
Ltac month_constants :=
  repeat match goal with
         | |- context [?a / 12] =>
             let q := eval vm_compute in (a / 12) in progress change (a / 12) with q
         | |- context [?a mod 12] =>
             let r := eval vm_compute in (a mod 12) in progress change (a mod 12) with r
         end;
  unfold DateOps.days_from_civil;
  repeat match goal with
         | |- context [?a <=? 2] =>
             let b := eval vm_compute in (a <=? 2) in progress change (a <=? 2) with b
         | |- context [2 <? ?a] =>
             let b := eval vm_compute in (2 <? a) in progress change (2 <? a) with b
         end;
  cbv iota.

(** Whether an instant falls on one of the local days from [first] to
    [last]. *)
Definition on_local_days (rt : Runtime) (first last : Z) (t : Date) : bool :=
  (first <=? DateOps.localDay rt t) && (DateOps.localDay rt t <=? last).

(** ** Response envelopes (models/api-response.js) *)

(** [Math.ceil(a / b)]. The quotient of two integers below 2^53 in
    magnitude is rounded to the right side of the next integer, so the
    ceiling is the exact one; a quotient by 0 is Infinity, -Infinity or NaN,
    none of which is a finite number (a response writes each as [null]),
    and is [NaN] here. *)
Definition Math_ceil_div (a b : number) : number :=
  match a, b with
  | Num x, Num y => if y =? 0 then NaN else Num (- (- x / y))
  | _, _ => NaN
  end.

Definition createPaginatedResponse (data : value) (page limit total : number)
    (message : string) : value :=
  VObj [("success", VBool true);
        ("message", VStr message);
        ("data", data);
        ("pagination", VObj [("page", VNum page);
                             ("limit", VNum limit);
                             ("total", VNum total);
                             ("pages", VNum (Math_ceil_div total limit))])].

(** ** Vocabulary of the summary *)





(** Three expenses of [alice]: 0.20 and 0.10 in Groceries, and 0.30 in
    Leisure between them. *)
Definition small_change : Collection :=
  let run d c := snd (ExpenseRepository.create Mongo.driver rt0 alice d c) in
  run (priced "gum" 10 "Groceries")
    (run (priced "stamp" 30 "Leisure") (run (priced "bag" 20 "Groceries") empty_collection)).

(** * Properties *)

Example parseInt_examples :
  map parseInt ["42"; "  -7"; "0x1F"; "12px"; "abc"; ""; "+5"; "1e3"; "9007199254740993"]
  = [Num 42; Num (-7); Num 31; Num 12; NaN; NaN; Num 5; Num 1; Num 9007199254740992]
  /\ parseInt (text [ascii_of_code 194; ascii_of_code 160; "5"%char]) = Num 5.
Proof. split; vm_compute; reflexivity. Qed.

Example toISOString_epoch : DateOps.toISOString 0 = "1970-01-01T00:00:00.000Z".
Proof. reflexivity. Qed.
Example toISOString_2024 : DateOps.toISOString 1709251199999 = "2024-02-29T23:59:59.999Z".
Proof. reflexivity. Qed.
Example toISOString_1969 : DateOps.toISOString (-1) = "1969-12-31T23:59:59.999Z".
Proof. reflexivity. Qed.

Example base64_limit_offset :
  base64 "{'limit':20,'offset':0}" = "eydsaW1pdCc6MjAsJ29mZnNldCc6MH0=".
Proof. reflexivity. Qed.

Example stringify_listing_filter :
  JSON.stringify (VObj [("startDate", VUndefined); ("endDate", VDate 0);
                        ("category", VStr "Groceries"); ("limit", VNum (Num 20));
                        ("offset", VNum NaN)])
  = Some (text (chars "{" ++ JSON.quote "endDate" ++ chars ":" ++ JSON.quote "1970-01-01T00:00:00.000Z"
                ++ chars "," ++ JSON.quote "category" ++ chars ":" ++ JSON.quote "Groceries"
                ++ chars "," ++ JSON.quote "limit" ++ chars ":20," ++ JSON.quote "offset" ++ chars ":null}")).
Proof. reflexivity. Qed.

Example parse_stringify_sample :
  let v := VObj [("a", VArr [VNum (Num (-12)); VUndefined; VBool true; VArr []; VObj []]);
                 ("b", VUndefined); ("c", VStr "x\y"); ("d", VDate 1709251199999)] in
  (JSON.stringify v ≫= JSON.parse) = Some (JSON.norm v).
Proof. vm_compute. reflexivity. Qed.

(** ** Strings and identifiers *)

Lemma chars_text (l : list ascii) : chars (text l) = l.
Proof. apply list_ascii_of_string_of_list_ascii. Qed.

Lemma text_chars (s : string) : text (chars s) = s.
Proof. apply string_of_list_ascii_of_string. Qed.

Lemma length_text (l : list ascii) : String.length (text l) = List.length l.
Proof. induction l as [|a l IH]; simpl; [reflexivity | now rewrite IH]. Qed.

Lemma chars_app (s t : string) : chars (s +:+ t) = chars s ++ chars t.
Proof. induction s as [|a s IH]; simpl; [reflexivity | now rewrite IH]. Qed.

Lemma hex_digit_ok (d : Z) :
  0 <= d < 16 ->
  is_hex (JSON.hex_digit d) = true /\ to_lower (JSON.hex_digit d) = JSON.hex_digit d.
Proof.
  intros Hd.
  assert (d = 0 \/ d = 1 \/ d = 2 \/ d = 3 \/ d = 4 \/ d = 5 \/ d = 6 \/ d = 7 \/
          d = 8 \/ d = 9 \/ d = 10 \/ d = 11 \/ d = 12 \/ d = 13 \/ d = 14 \/ d = 15)
    as Hcases by lia.
  repeat (destruct Hcases as [-> | Hcases]; [split; reflexivity |]).
  subst d; split; reflexivity.
Qed.

Lemma hex_pad_length (w : nat) (n : Z) : List.length (Mongo.hex_pad w n) = w.
Proof.
  revert n; induction w as [|w IH]; intros n; simpl; [reflexivity |].
  rewrite length_app, IH; simpl; lia.
Qed.

Lemma hex_pad_hex (w : nat) (n : Z) : forallb is_hex (Mongo.hex_pad w n) = true.
Proof.
  revert n; induction w as [|w IH]; intros n; simpl; [reflexivity |].
  rewrite forallb_app, IH; simpl.
  destruct (hex_digit_ok (n mod 16)) as [-> _]; [apply Z.mod_pos_bound; lia | reflexivity].
Qed.

Lemma hex_pad_lower (w : nat) (n : Z) :
  map to_lower (Mongo.hex_pad w n) = Mongo.hex_pad w n.
Proof.
  revert n; induction w as [|w IH]; intros n; simpl; [reflexivity |].
  rewrite map_app, IH; simpl.
  destruct (hex_digit_ok (n mod 16)) as [_ ->]; [apply Z.mod_pos_bound; lia | reflexivity].
Qed.

Lemma oid_of_valid (n : Z) : ObjectId.isValid (toHexString (Mongo.oid_of n)) = true.
Proof.
  unfold ObjectId.isValid.
  change (toHexString (Mongo.oid_of n)) with (text (Mongo.hex_pad 24 n)).
  rewrite length_text, hex_pad_length, chars_text, hex_pad_hex; reflexivity.
Qed.

Lemma oid_of_new (n : Z) : ObjectId.new (toHexString (Mongo.oid_of n)) = inr (Mongo.oid_of n).
Proof.
  unfold ObjectId.new; rewrite oid_of_valid.
  change (toHexString (Mongo.oid_of n)) with (text (Mongo.hex_pad 24 n)).
  rewrite chars_text, hex_pad_lower; reflexivity.
Qed.

Lemma new_valid (s : string) (o : ObjectId) : ObjectId.new s = inr o -> ObjectId.isValid s = true.
Proof. unfold ObjectId.new; destruct (ObjectId.isValid s); [reflexivity | discriminate]. Qed.

Lemma new_invalid (s : string) :
  ObjectId.isValid s = false -> exists e, ObjectId.new s = inl (Error e).
Proof. unfold ObjectId.new; intros ->; eauto. Qed.

Lemma valid_new (s : string) : ObjectId.isValid s = true -> exists o, ObjectId.new s = inr o.
Proof. unfold ObjectId.new; intros ->; eauto. Qed.

(** ** The behaving store *)

Lemma filter_none {A} (f : A -> bool) (l : list A) :
  (forall x, x ∈ l -> f x = false) -> List.filter f l = [].
Proof.
  induction l as [|a l IH]; intros H; simpl; [reflexivity |].
  rewrite (H a) by constructor.
  apply IH; intros x Hx; apply H; now constructor.
Qed.

Lemma update_first_none (q : Query) (u : UpdateDoc) (l : list Expense) :
  (forall x, x ∈ l -> matches q x = false) -> Mongo.update_first q u l = (None, l).
Proof.
  induction l as [|a l IH]; intros H; simpl; [reflexivity |].
  rewrite (H a) by constructor.
  rewrite IH; [reflexivity | intros x Hx; apply H; now constructor].
Qed.

Lemma delete_first_none (q : Query) (l : list Expense) :
  (forall x, x ∈ l -> matches q x = false) -> Mongo.delete_first q l = (0, l).
Proof.
  induction l as [|a l IH]; intros H; simpl; [reflexivity |].
  rewrite (H a) by constructor.
  rewrite IH; [reflexivity | intros x Hx; apply H; now constructor].
Qed.

Lemma NoDup_map_inj {A B} (f : A -> B) (l : list A) (x y : A) :
  NoDup (map f l) -> x ∈ l -> y ∈ l -> f x = f y -> x = y.
Proof.
  induction l as [|a l IH]; intros Hnd Hx Hy Hf; [inversion Hx |].
  simpl in Hnd; apply NoDup_cons in Hnd as [Hna Hnd].
  apply elem_of_cons in Hx as [-> | Hx]; apply elem_of_cons in Hy as [-> | Hy]; auto.
  - exfalso; apply Hna; rewrite Hf; apply list_elem_of_In, in_map, list_elem_of_In; auto.
  - exfalso; apply Hna; rewrite <- Hf; apply list_elem_of_In, in_map, list_elem_of_In; auto.
Qed.

Lemma matches_id_user (i u : ObjectId) (x : Expense) :
  matches {| q_id := Some i; q_userId := Some u; q_gte := None; q_lte := None;
             q_category := None |} x = true ->
  _id x = i /\ userId x = u.
Proof.
  unfold matches; simpl; rewrite !andb_true_r.
  intros H; apply andb_true_iff in H as [H1 H2].
  apply bool_decide_eq_true in H1, H2; auto.
Qed.

(** ** Malformed caller identifier on the listing path *)

Lemma getExpenses_rejects_malformed {S} (collection : Driver S) (rt : Runtime)
    (user : string) (queryParams : ExpenseQueryParams.t) (w : World S) :
  ObjectId.isValid user = false ->
  ExpenseService.getExpenses collection rt user queryParams w
  = (inl (ApiError "Failed to get expenses" 500), w).
Proof.
  intros Hbad.
  destruct (new_invalid _ Hbad) as [msg Hnew].
  unfold ExpenseService.getExpenses; run.
  rewrite Hnew; reflexivity.
Qed.

(** C10. For every userId string that is not a structurally valid
    24-hex-character identifier, [getExpenses] throws the server-class
    error "Failed to get expenses" (500): the ObjectId constructor throws,
    the generic handler catches and re-wraps; neither the store nor the
    cache is touched, and the outcome is neither an empty listing nor a
    client-class error. This holds over every driver. *)
Theorem getExpenses_malformed_user {S} (collection : Driver S) (rt : Runtime)
    (user : string) (queryParams : ExpenseQueryParams.t) (w : World S) :
  ObjectId.isValid user = false ->
  exists e,
    ExpenseService.getExpenses collection rt user queryParams w = (inl e, w)
    /\ e = ApiError "Failed to get expenses" 500
    /\ is_server_error e = true /\ is_client_error e = false.
Proof.
  intros Hbad. eexists. split; [apply getExpenses_rejects_malformed, Hbad |].
  repeat split.
Qed.

Lemma getExpenses_malformed_user_witness :
  ObjectId.isValid "not-an-id" = false
  /\ ExpenseService.getExpenses Mongo.driver rt0 "not-an-id" no_params (cold empty_collection)
     = (inl (ApiError "Failed to get expenses" 500), cold empty_collection).
Proof.
  split; [reflexivity |].
  destruct (getExpenses_malformed_user Mongo.driver rt0 "not-an-id" no_params
              (cold empty_collection) eq_refl) as (e & Hrun & -> & _).
  exact Hrun.
Defined.

(** ** Outcomes of [create] *)

Lemma findById_found (c : Collection) (oid : ObjectId) (e : Expense) :
  ObjectId.new (toHexString oid) = inr oid ->
  head (List.filter (matches {| q_id := Some oid; q_userId := None; q_gte := None;
                                q_lte := None; q_category := None |}) (docs c)) = Some e ->
  forall rt : Runtime,
  ExpenseRepository.findById Mongo.driver (toHexString oid) c = (inr (Some e), c).
Proof.
  intros Hnew Hhead rt.
  unfold ExpenseRepository.findById; run.
  rewrite (new_valid _ _ Hnew); simpl.
  rewrite Hnew; unfold Mongo.findOne; simpl.
  now rewrite Hhead.
Qed.

Lemma head_filter_id_fresh (l : list Expense) (e : Expense) :
  (forall x, x ∈ l -> _id x <> _id e) ->
  head (List.filter (matches {| q_id := Some (_id e); q_userId := None; q_gte := None;
                                q_lte := None; q_category := None |}) (l ++ [e])) = Some e.
Proof.
  intros Hfresh.
  rewrite List.filter_app, filter_none; simpl.
  - unfold matches; simpl. rewrite bool_decide_eq_true_2 by reflexivity. reflexivity.
  - intros x Hx. unfold matches; simpl. rewrite !andb_true_r.
    apply bool_decide_eq_false. now apply Hfresh.
Qed.

(** C9 (amended). [create] fails with the client-class error "Invalid user
    ID" (400) when the owning-user identifier is not structurally valid; it
    fails with a server-class error (500) when the insert reports no
    insertion id and when the read-back returns nothing; otherwise it
    returns the record the read-back returned, which on a store that keeps
    what it is given is the fully materialized new record, owned by the
    caller, with creation and update timestamps both equal to "now". *)
Theorem create_outcomes {S} (collection : Driver S) (rt : Runtime)
    (user : string) (expenseData : CreateExpenseDto.t) (s : S) :
  (ObjectId.isValid user = false ->
   ExpenseRepository.create collection rt user expenseData s
   = (inl (ApiError "Invalid user ID" 400), s))
  /\ (forall uid, ObjectId.new user = inr uid ->
      let doc := {| new_fields := expenseData; new_userId := uid;
                    new_createdAt := now rt; new_updatedAt := now rt |} in
      (forall r s1, insertOne collection doc s = (inr r, s1) -> insertedId r = None ->
         ExpenseRepository.create collection rt user expenseData s
         = (inl (ApiError "Failed to create expense" 500), s1))
      /\ (forall r oid s1 s2,
            insertOne collection doc s = (inr r, s1) -> insertedId r = Some oid ->
            ExpenseRepository.findById collection (toHexString oid) s1 = (inr None, s2) ->
            ExpenseRepository.create collection rt user expenseData s
            = (inl (ApiError "Failed to retrieve created expense" 500), s2))
      /\ (forall r oid s1 s2 e,
            insertOne collection doc s = (inr r, s1) -> insertedId r = Some oid ->
            ExpenseRepository.findById collection (toHexString oid) s1 = (inr (Some e), s2) ->
            ExpenseRepository.create collection rt user expenseData s = (inr e, s2))
      /\ (forall c : Collection,
            (forall x, x ∈ docs c -> _id x <> Mongo.oid_of (nextId c)) ->
            let e := Mongo.materialize (Mongo.oid_of (nextId c)) doc in
            ExpenseRepository.create Mongo.driver rt user expenseData c
            = (inr e, {| docs := docs c ++ [e]; nextId := nextId c + 1 |})
            /\ userId e = uid /\ createdAt e = now rt /\ updatedAt e = now rt)).
Proof.
  split.
  - intros Hbad. unfold ExpenseRepository.create; run. now rewrite Hbad.
  - intros uid Hnew doc.
    pose proof (new_valid _ _ Hnew) as Hok.
    split; [| split; [| split]].
    + intros r s1 Hins Hnone. unfold ExpenseRepository.create; run.
      rewrite Hok; simpl. rewrite Hnew. fold doc. rewrite Hins, Hnone. reflexivity.
    + intros r oid s1 s2 Hins Hsome Hfind. unfold ExpenseRepository.create; run.
      rewrite Hok; simpl. rewrite Hnew. fold doc. rewrite Hins, Hsome.
      now rewrite Hfind.
    + intros r oid s1 s2 e Hins Hsome Hfind. unfold ExpenseRepository.create; run.
      rewrite Hok; simpl. rewrite Hnew. fold doc. rewrite Hins, Hsome.
      now rewrite Hfind.
    + intros c Hnew_id e. split; [| repeat split].
      set (oid := Mongo.oid_of (nextId c)) in *.
      assert (Hfresh : existsb (fun x => bool_decide (_id x = oid)) (docs c) = false).
      { apply not_true_iff_false; intros Hex.
        apply existsb_exists in Hex as (x & Hx & Heq).
        apply bool_decide_eq_true in Heq. apply (Hnew_id x); [now apply list_elem_of_In | exact Heq]. }
      assert (Hhead : head (List.filter
                 (matches {| q_id := Some oid; q_userId := None; q_gte := None;
                             q_lte := None; q_category := None |})
                 (docs c ++ [e])) = Some e)
        by (apply (head_filter_id_fresh (docs c) e); exact Hnew_id).
      pose proof (findById_found {| docs := docs c ++ [e]; nextId := nextId c + 1 |}
                    oid e (oid_of_new _) Hhead rt) as Hfind.
      unfold ExpenseRepository.create; run.
      rewrite Hok; simpl. rewrite Hnew. unfold Mongo.insertOne. fold doc oid.
      rewrite Hfresh. cbv beta iota zeta. cbn [insertedId].
      fold e. now rewrite Hfind.
Qed.

Lemma create_outcomes_witness :
  ExpenseRepository.create Mongo.driver rt0 "not-an-id" (dto "milk" 250 "Groceries")
    empty_collection
  = (inl (ApiError "Invalid user ID" 400), empty_collection)
  /\ ExpenseRepository.create unacknowledged rt0 alice (dto "milk" 250 "Groceries")
       empty_collection
     = (inl (ApiError "Failed to create expense" 500), empty_collection)
  /\ (exists c, ExpenseRepository.create blind rt0 alice (dto "milk" 250 "Groceries")
                  empty_collection
                = (inl (ApiError "Failed to retrieve created expense" 500), c))
  /\ (exists e c, ExpenseRepository.create Mongo.driver rt0 alice (dto "milk" 250 "Groceries")
                    empty_collection = (inr e, c)
                  /\ createdAt e = now rt0 /\ updatedAt e = now rt0).
Proof.
  pose (d := dto "milk" 250 "Groceries").
  destruct (create_outcomes Mongo.driver rt0 "not-an-id" d empty_collection) as [Hbad _].
  destruct (create_outcomes unacknowledged rt0 alice d empty_collection) as [_ Hunack].
  destruct (create_outcomes blind rt0 alice d empty_collection) as [_ Hblind].
  destruct (Hunack _ eq_refl) as (Hnoid & _).
  destruct (Hblind _ eq_refl) as (_ & Hlost & _ & Hkept).
  split; [| split; [| split]].
  - apply Hbad; reflexivity.
  - eapply Hnoid; reflexivity.
  - eexists. eapply Hlost; reflexivity.
  - destruct (Hkept empty_collection) as (Hrun & _ & Hc & Hu); [intros x Hx; inversion Hx |].
    do 2 eexists. split; [exact Hrun | split; [exact Hc | exact Hu]].
Defined.

(** C9 as stated fails on its first case: a malformed owning-user
    identifier yields a client-class (400) error, not a server-class one. *)
Lemma create_malformed_user_is_client_error :
  exists e, fst (ExpenseRepository.create Mongo.driver rt0 "not-an-id"
                   (dto "milk" 250 "Groceries") empty_collection) = inl e
            /\ is_server_error e = false /\ is_client_error e = true.
Proof. eexists; repeat split; reflexivity. Qed.

(** ** The cache adapter as the service sees it *)

Lemma getJson_spec (key : string) (r : Redis) :
  RedisClient.getJson key r
  = if reachable r then (inr (cached r key), r) else (inl (Error "Redis not connected"), r).
Proof.
  unfold RedisClient.getJson, RedisClient.get, RedisClient.getClient, cached; run.
  destruct (reachable r); [| reflexivity].
  destruct (data r !! key) as [[s t]|]; simpl; [| reflexivity].
  destruct s; simpl; [reflexivity |].
  destruct (JSON.parse _); reflexivity.
Qed.

Lemma World_eta {S} (w : World S) : {| store := store w; redis := redis w |} = w.
Proof. destruct w; reflexivity. Qed.

Lemma getCachedExpenses_spec {S} (key : string) (w : World S) :
  ExpenseService.getCachedExpenses key w
  = (inr (if reachable (redis w) then cached (redis w) key else VNull), w).
Proof.
  unfold ExpenseService.getCachedExpenses, ExpenseService.redisClient; run.
  rewrite getJson_spec. destruct (reachable (redis w)); now rewrite World_eta.
Qed.

Lemma getCachedSummary_spec {S} (key : string) (w : World S) :
  ExpenseService.getCachedSummary key w
  = (inr (if reachable (redis w) then cached (redis w) key else VNull), w).
Proof.
  unfold ExpenseService.getCachedSummary, ExpenseService.redisClient; run.
  rewrite getJson_spec. destruct (reachable (redis w)); now rewrite World_eta.
Qed.

Lemma setJson_spec (key : string) (v : value) (ttl : Z) (r : Redis) :
  0 < ttl ->
  RedisClient.setJson key v (Some ttl) r
  = if reachable r
    then match JSON.stringify v with
         | Some jsonString =>
             (inr tt, {| reachable := reachable r;
                         data := <[key := (jsonString, Some ttl)]> (data r) |})
         | None => (inl (Error "Invalid argument type"), r)
         end
    else (inl (Error "Redis not connected"), r).
Proof.
  intros Httl.
  unfold RedisClient.setJson, RedisClient.set, RedisClient.getClient; run.
  destruct (JSON.stringify v); destruct r as [[] d]; simpl; try reflexivity.
  rewrite (proj2 (Z.eqb_neq ttl 0)), (proj2 (Z.ltb_ge ttl 0)) by lia. reflexivity.
Qed.

Lemma cacheExpenses_spec {S} (key : string) (v : value) (w : World S) :
  ExpenseService.cacheExpenses key v w
  = (inr tt, if reachable (redis w) then stored key v EXPENSE_CACHE_TTL w else w).
Proof.
  unfold ExpenseService.cacheExpenses, ExpenseService.redisClient, stored; run.
  rewrite setJson_spec by reflexivity.
  destruct (reachable (redis w)); [| now rewrite World_eta].
  destruct (JSON.stringify v); [reflexivity | now rewrite World_eta].
Qed.

Lemma cacheSummary_spec {S} (key : string) (v : value) (w : World S) :
  ExpenseService.cacheSummary key v w
  = (inr tt, if reachable (redis w) then stored key v SUMMARY_CACHE_TTL w else w).
Proof.
  unfold ExpenseService.cacheSummary, ExpenseService.redisClient, stored; run.
  rewrite setJson_spec by reflexivity.
  destruct (reachable (redis w)); [| now rewrite World_eta].
  destruct (JSON.stringify v); [reflexivity | now rewrite World_eta].
Qed.

Lemma store_stored {S} (key : string) (v : value) (ttl : Z) (w : World S) :
  store (stored key v ttl w) = store w.
Proof. unfold stored; destruct (JSON.stringify v); reflexivity. Qed.

(** ** Cache keys *)

Lemma listing_key (user : string) (filters : ExpenseFilter.t) :
  ExpenseService.getExpensesCacheKey user filters
  = "expenses:" +:+ user +:+ ":" +:+ base64 (text (JSON.write (filter_fields filters))).
Proof. reflexivity. Qed.

Lemma summary_key (user : string) (period : option string) :
  RedisClient.getExpenseSummaryCacheKey user period
  = "expense_summary:" +:+ user +:+
    match period with
    | Some (String c p) => ":" +:+ String c p
    | Some EmptyString | None => ""
    end.
Proof.
  unfold RedisClient.getExpenseSummaryCacheKey.
  destruct period as [[|c p]|]; reflexivity.
Qed.

(** C6. The listing cache key is [expenses:<userId>] followed by a colon and
    the base64 encoding of the JSON text of the object with exactly the
    fields startDate, endDate, category, limit, offset in that order (the
    suffix is never left out, and the owner field of the filter plays no
    part), so filters that agree on these five fields have the same key;
    the summary cache key is [expense_summary:<userId>] followed by
    nothing but the period token, and [getExpenseSummary] answers from the
    entry under that key whatever start and end dates the request names. *)
Theorem cache_key_shape (user : string) (filters : ExpenseFilter.t) (period : option string) :
  ExpenseService.getExpensesCacheKey user filters
  = "expenses:" +:+ user +:+ ":" +:+ base64 (text (JSON.write (filter_fields filters)))
  /\ (forall filters' : ExpenseFilter.t,
        ExpenseFilter.startDate filters' = ExpenseFilter.startDate filters ->
        ExpenseFilter.endDate filters' = ExpenseFilter.endDate filters ->
        ExpenseFilter.category filters' = ExpenseFilter.category filters ->
        ExpenseFilter.limit filters' = ExpenseFilter.limit filters ->
        ExpenseFilter.offset filters' = ExpenseFilter.offset filters ->
        ExpenseService.getExpensesCacheKey user filters'
        = ExpenseService.getExpensesCacheKey user filters)
  /\ RedisClient.getExpenseSummaryCacheKey user period
     = "expense_summary:" +:+ user +:+
       match period with
       | Some (String c p) => ":" +:+ String c p
       | Some EmptyString | None => ""
       end
  /\ forall S (collection : Driver S) (rt : Runtime) (startDate endDate : option string)
            (category page limit : option string) (w : World S),
       reachable (redis w) = true ->
       truthy (cached (redis w) (RedisClient.getExpenseSummaryCacheKey user period)) = true ->
       ExpenseService.getExpenseSummary collection rt user
         {| ExpenseQueryParams.period := period;
            ExpenseQueryParams.startDate := startDate;
            ExpenseQueryParams.endDate := endDate;
            ExpenseQueryParams.category := category;
            ExpenseQueryParams.page := page;
            ExpenseQueryParams.limit := limit |} w
       = (inr (cached (redis w) (RedisClient.getExpenseSummaryCacheKey user period)), w).
Proof.
  split; [apply listing_key | split; [| split; [apply summary_key |]]].
  { intros filters' Hs He Hc Hl Ho. rewrite !listing_key. unfold filter_fields.
    now rewrite Hs, He, Hc, Hl, Ho. }
  intros S collection rt startDate endDate category page limit w Hup Hhit.
  unfold ExpenseService.getExpenseSummary; run.
  rewrite getCachedSummary_spec, Hup, Hhit. reflexivity.
Qed.

Lemma cache_key_shape_witness :
  exists v,
    ExpenseService.getExpenseSummary Mongo.driver day_runtime alice
      {| ExpenseQueryParams.period := Some "custom";
         ExpenseQueryParams.startDate := Some "2024-02-01";
         ExpenseQueryParams.endDate := Some "2024-02-29";
         ExpenseQueryParams.category := None;
         ExpenseQueryParams.page := None;
         ExpenseQueryParams.limit := None |} custom_summarised
    = (inr v, custom_summarised)
    /\ ExpenseService.getExpenseSummary Mongo.driver day_runtime alice
         {| ExpenseQueryParams.period := Some "custom";
            ExpenseQueryParams.startDate := Some "1999-01-01";
            ExpenseQueryParams.endDate := Some "1999-01-02";
            ExpenseQueryParams.category := None;
            ExpenseQueryParams.page := None;
            ExpenseQueryParams.limit := None |} custom_summarised
       = (inr v, custom_summarised).
Proof.
  destruct (cache_key_shape alice (page_filter {| toHexString := alice |} None None None 20 0)
              (Some "custom")) as (_ & _ & _ & Hsame).
  eexists. split; apply Hsame; reflexivity.
Defined.

(** The key of the first page of the unfiltered listing: the suffix is the
    base64 text of the object holding limit 20 and offset 0. *)
Example listing_key_first_page :
  ExpenseService.getExpensesCacheKey alice
    (page_filter {| toHexString := alice |} None None None 20 0)
  = "expenses:65e0a1b2c3d4e5f601234567:eyJsaW1pdCI6MjAsIm9mZnNldCI6MH0=".
Proof. reflexivity. Qed.

(** ** Date-range resolution *)

Lemma setHours_localDay (rt : Runtime) (h m s ms : Z) (t : Date) :
  0 <= ((h * 60 + m) * 60 + s) * 1000 + ms < DateOps.msPerDay ->
  DateOps.localDay rt (DateOps.setHours rt h m s ms t) = DateOps.localDay rt t
  /\ DateOps.localTimeInDay rt (DateOps.setHours rt h m s ms t)
     = ((h * 60 + m) * 60 + s) * 1000 + ms.
Proof.
  intros Hk. unfold DateOps.setHours, DateOps.localDay, DateOps.localTimeInDay.
  set (k := ((h * 60 + m) * 60 + s) * 1000 + ms) in *.
  set (M := DateOps.msPerDay) in *.
  assert (HM : 0 < M) by reflexivity.
  set (d := (t + LocalTZA rt) / M).
  replace (d * M + k - LocalTZA rt + LocalTZA rt) with (k + d * M) by lia.
  rewrite Z.div_add, Z.mod_add by lia.
  rewrite Z.div_small, Z.mod_small by lia. split; lia.
Qed.




Example custom_range_february :
  DateHelpers.getDateRange day_runtime (Some "custom") (Some "2024-02-01") (Some "2024-02-29")
  = Some {| DateRange.startDate := 1706742000000; DateRange.endDate := 1709247599999 |}.
Proof. reflexivity. Qed.

Example custom_range_reversed :
  DateHelpers.getDateRange day_runtime (Some "custom") (Some "2024-02-29") (Some "2024-02-01")
  = None.
Proof. reflexivity. Qed.

(** ** The summary pipeline *)

Lemma sum_ones {A} (l : list A) : foldr Z.add 0 (map (fun _ => 1) l) = Z.of_nat (List.length l).
Proof. induction l as [|a l IH]; simpl foldr; simpl List.length; [reflexivity | lia]. Qed.






Lemma regroup_same_key (k : binary64 * Z) (cs acc : list (string * binary64)) :
  fold_left (fun gs d => Pipeline.push_group (fst d) (snd d) gs)
            (map (fun c => (k, c)) cs) [(k, acc)]
  = [(k, acc ++ cs)].
Proof.
  revert acc; induction cs as [|c cs IH]; intros acc; simpl.
  - now rewrite app_nil_r.
  - rewrite bool_decide_eq_true_2 by reflexivity.
    rewrite IH, <- app_assoc. reflexivity.
Qed.

(** The three middle stages collapse to one document carrying the grand
    totals and the (category, amount) pairs of the matching expenses. *)
Lemma pipeline_middle (l : list Expense) :
  l <> [] ->
  Pipeline.regroup (Pipeline.unwind (Pipeline.group_all l))
  = [(Double.sum (map amount l), Z.of_nat (List.length l),
      map (fun e => (category e, amount e)) l)].
Proof.
  destruct l as [|e l]; [congruence | intros _].
  unfold Pipeline.group_all, Pipeline.unwind, Pipeline.regroup.
  cbn [flat_map Pipeline.g_categories Pipeline.g_totalAmount Pipeline.g_totalCount].
  rewrite app_nil_r, sum_ones.
  set (k := (Double.sum (map amount (e :: l)), Z.of_nat (List.length (e :: l)))).
  change (map (fun e0 => (category e0, amount e0)) (e :: l))
    with ((category e, amount e) :: map (fun e0 => (category e0, amount e0)) l).
  cbn [map fold_left Pipeline.push_group fst snd].
  now rewrite regroup_same_key.
Qed.






(** The end-to-end scenario of the specification: 10, 20 and 30 in
    Groceries, Groceries and Electronics (here 1000, 2000 and 3000). *)
Example summary_of_the_week :
  fst (ExpenseRepository.getSummary Mongo.driver alice None None week_of_expenses)
  = inr {| totalAmount := Double.of_Z 6000; totalCount := 3;
           categoryBreakdown :=
             [{| CategoryTotal.category := "Groceries"; CategoryTotal.amount := Double.of_Z 3000;
                 CategoryTotal.count := 2 |};
              {| CategoryTotal.category := "Electronics";
                 CategoryTotal.amount := Double.of_Z 3000;
                 CategoryTotal.count := 1 |}] |}.
Proof. vm_compute. reflexivity. Qed.


(** ** Reads and mutations, step by step *)

Lemma deletePattern_spec (pattern : string) (r : Redis) :
  RedisClient.deletePattern pattern r
  = if reachable r then (inr tt, purge pattern r) else (inl (Error "Redis not connected"), r).
Proof.
  unfold RedisClient.deletePattern, RedisClient.getClient, purge; run.
  destruct r as [[] d]; reflexivity.
Qed.

Lemma invalidateUserCaches_spec {S} (user : string) (w : World S) :
  ExpenseService.invalidateUserCaches user w = (inr tt, invalidated user w).
Proof.
  unfold ExpenseService.invalidateUserCaches, ExpenseService.redisClient, invalidated,
    RedisClient.deletePattern, RedisClient.getClient, purge.
  destruct w as [s [[|] d]]; reflexivity.
Qed.

Lemma store_invalidated {S} (user : string) (w : World S) :
  store (invalidated user w) = store w.
Proof. unfold invalidated; destruct (reachable (redis w)); reflexivity. Qed.

Lemma repository_run {S A} (m : M S A) (w : World S) :
  ExpenseService.repository m w
  = (fst (m (store w)), {| store := snd (m (store w)); redis := redis w |}).
Proof. unfold ExpenseService.repository, zoom. destruct (m (store w)); reflexivity. Qed.

(** [getExpenses] on a request whose cache lookup misses or fails. *)
Lemma getExpenses_read_through {S} (collection : Driver S) (rt : Runtime) (user : string)
    (queryParams : ExpenseQueryParams.t) (w : World S) (uid : ObjectId) :
  ObjectId.new user = inr uid ->
  let filters := listing_filters rt uid queryParams in
  let key := ExpenseService.getExpensesCacheKey user filters in
  truthy (if reachable (redis w) then cached (redis w) key else VNull) = false ->
  ExpenseService.getExpenses collection rt user queryParams w
  = match ExpenseRepository.findWithFilters collection filters (store w) with
    | (inr found, s') =>
        let w' := {| store := s'; redis := redis w |} in
        (inr (listing queryParams found),
         if reachable (redis w)
         then stored key (listing queryParams found) EXPENSE_CACHE_TTL w' else w')
    | (inl e, s') =>
        (inl (if instanceof_ApiError e then e else ApiError "Failed to get expenses" 500),
         {| store := s'; redis := redis w |})
    end.
Proof.
  intros Huid filters key Hmiss.
  unfold ExpenseService.getExpenses; run.
  rewrite Huid. fold (listing_filters rt uid queryParams). fold filters. fold key.
  rewrite getCachedExpenses_spec, Hmiss, repository_run.
  destruct (ExpenseRepository.findWithFilters collection filters (store w)) as [[e|found] s'];
    simpl.
  - destruct (instanceof_ApiError e); reflexivity.
  - fold (listing queryParams found). rewrite cacheExpenses_spec. reflexivity.
Qed.

(** [getExpenses] on a request whose cache lookup hits. *)
Lemma getExpenses_hit {S} (collection : Driver S) (rt : Runtime) (user : string)
    (queryParams : ExpenseQueryParams.t) (w : World S) (uid : ObjectId) :
  ObjectId.new user = inr uid ->
  let key := ExpenseService.getExpensesCacheKey user (listing_filters rt uid queryParams) in
  reachable (redis w) = true ->
  truthy (cached (redis w) key) = true ->
  ExpenseService.getExpenses collection rt user queryParams w = (inr (cached (redis w) key), w).
Proof.
  intros Huid key Hup Hhit.
  unfold ExpenseService.getExpenses; run.
  rewrite Huid. fold (listing_filters rt uid queryParams). fold key.
  rewrite getCachedExpenses_spec, Hup, Hhit. reflexivity.
Qed.

Lemma getExpenseSummary_read_through {S} (collection : Driver S) (rt : Runtime)
    (user : string) (queryParams : ExpenseQueryParams.t) (w : World S) :
  let key := RedisClient.getExpenseSummaryCacheKey user (ExpenseQueryParams.period queryParams) in
  truthy (if reachable (redis w) then cached (redis w) key else VNull) = false ->
  ExpenseService.getExpenseSummary collection rt user queryParams w
  = match ExpenseRepository.getSummary collection user (fst (summary_bounds rt queryParams))
            (snd (summary_bounds rt queryParams)) (store w) with
    | (inr summary, s') =>
        let w' := {| store := s'; redis := redis w |} in
        (inr (summary_value summary),
         if reachable (redis w)
         then stored key (summary_value summary) SUMMARY_CACHE_TTL w' else w')
    | (inl e, s') =>
        (inl (if instanceof_ApiError e then e else ApiError "Failed to get expense summary" 500),
         {| store := s'; redis := redis w |})
    end.
Proof.
  intros key Hmiss.
  unfold ExpenseService.getExpenseSummary; run.
  fold key. rewrite getCachedSummary_spec, Hmiss, repository_run.
  unfold summary_bounds; simpl.
  match goal with
  | |- context [ExpenseRepository.getSummary collection user ?a ?b (store w)] =>
      destruct (ExpenseRepository.getSummary collection user a b (store w)) as [[e|summary] s']
  end; simpl.
  - destruct (instanceof_ApiError e); reflexivity.
  - rewrite cacheSummary_spec. reflexivity.
Qed.

(** The three mutations: the repository's outcome decides the result; the
    cache only changes when the write succeeded. *)
Lemma mutate_run {S} (collection : Driver S) (rt : Runtime) (user : string) (m : Mutation)
    (w : World S) :
  mutate collection rt user m w
  = match m with
    | Create d =>
        match ExpenseRepository.create collection rt user d (store w) with
        | (inr e, s') => (inr (transformExpenseToResponse e),
                          invalidated user {| store := s'; redis := redis w |})
        | (inl e, s') =>
            (inl (if instanceof_ApiError e then e else ApiError "Failed to create expense" 500),
             {| store := s'; redis := redis w |})
        end
    | Update i u =>
        match ExpenseRepository.updateByIdAndUserId collection rt i user u (store w) with
        | (inr (Some e), s') => (inr (transformExpenseToResponse e),
                                 invalidated user {| store := s'; redis := redis w |})
        | (inr None, s') => (inl (ApiError "Expense not found" 404),
                             {| store := s'; redis := redis w |})
        | (inl e, s') =>
            (inl (if instanceof_ApiError e then e else ApiError "Failed to update expense" 500),
             {| store := s'; redis := redis w |})
        end
    | Delete i =>
        match ExpenseRepository.deleteByIdAndUserId collection i user (store w) with
        | (inr true, s') => (inr VUndefined,
                             invalidated user {| store := s'; redis := redis w |})
        | (inr false, s') => (inl (ApiError "Expense not found" 404),
                              {| store := s'; redis := redis w |})
        | (inl e, s') =>
            (inl (if instanceof_ApiError e then e else ApiError "Failed to delete expense" 500),
             {| store := s'; redis := redis w |})
        end
    end.
Proof.
  destruct m as [d | i u | i]; unfold mutate.
  - unfold ExpenseService.createExpense; run. rewrite repository_run.
    destruct (ExpenseRepository.create collection rt user d (store w)) as [[e|e] s']; simpl.
    + destruct (instanceof_ApiError e); reflexivity.
    + rewrite invalidateUserCaches_spec. reflexivity.
  - unfold ExpenseService.updateExpense; run. rewrite repository_run.
    destruct (ExpenseRepository.updateByIdAndUserId collection rt i user u (store w))
      as [[e|[e|]] s']; simpl.
    + destruct (instanceof_ApiError e); reflexivity.
    + rewrite invalidateUserCaches_spec. reflexivity.
    + reflexivity.
  - unfold ExpenseService.deleteExpense; run. rewrite repository_run.
    destruct (ExpenseRepository.deleteByIdAndUserId collection i user (store w))
      as [[e|[|]] s']; simpl.
    + destruct (instanceof_ApiError e); reflexivity.
    + rewrite invalidateUserCaches_spec. reflexivity.
    + reflexivity.
Qed.

(** ** Ownership isolation *)

(** C3. For an expense [e] of the collection, identified by the string
    [expenseId], and a caller [B] that is not its owner (a different or a
    malformed user identifier), [updateByIdAndUserId] returns the not-found
    signal and [deleteByIdAndUserId] returns false, the collection is left
    as it was (the service reports "Expense not found", 404), and the
    outcome is exactly the one obtained for an identifier that no document
    carries: both methods match on the expense id and the owner together. *)
Theorem ownership_isolation (rt : Runtime) (c : Collection) (e : Expense)
    (expenseId B : string) (updates : UpdateExpenseDto.t) :
  NoDup (map _id (docs c)) ->
  e ∈ docs c ->
  ObjectId.new expenseId = inr (_id e) ->
  ObjectId.new B <> inr (userId e) ->
  ExpenseRepository.updateByIdAndUserId Mongo.driver rt expenseId B updates c = (inr None, c)
  /\ ExpenseRepository.deleteByIdAndUserId Mongo.driver expenseId B c = (inr false, c)
  /\ (forall r : Redis,
        let w := {| store := c; redis := r |} in
        mutate Mongo.driver rt B (Update expenseId updates) w
        = (inl (ApiError "Expense not found" 404), w)
        /\ mutate Mongo.driver rt B (Delete expenseId) w
           = (inl (ApiError "Expense not found" 404), w))
  /\ forall missing : string,
       (forall x, x ∈ docs c -> ObjectId.new missing <> inr (_id x)) ->
       ExpenseRepository.updateByIdAndUserId Mongo.driver rt missing B updates c
       = ExpenseRepository.updateByIdAndUserId Mongo.driver rt expenseId B updates c
       /\ ExpenseRepository.deleteByIdAndUserId Mongo.driver missing B c
          = ExpenseRepository.deleteByIdAndUserId Mongo.driver expenseId B c.
Proof.
  intros Hnd He Hid HB.
  assert (Hnone : forall i, (forall x, x ∈ docs c -> ObjectId.new i = inr (_id x) ->
                                       ObjectId.new B <> inr (userId x)) ->
            ExpenseRepository.updateByIdAndUserId Mongo.driver rt i B updates c = (inr None, c)
            /\ ExpenseRepository.deleteByIdAndUserId Mongo.driver i B c = (inr false, c)).
  { intros i Hi.
    unfold ExpenseRepository.updateByIdAndUserId, ExpenseRepository.deleteByIdAndUserId; run.
    destruct (ObjectId.isValid i) eqn:Vi; [| destruct c; split; reflexivity].
    destruct (ObjectId.isValid B) eqn:VB; [| destruct c; split; reflexivity].
    simpl.
    destruct (valid_new _ Vi) as [oid Hoid]; destruct (valid_new _ VB) as [uid Huid].
    rewrite Hoid, Huid.
    unfold Mongo.findOneAndUpdate, Mongo.deleteOne.
    assert (Hno : forall x, x ∈ docs c ->
              matches {| q_id := Some oid; q_userId := Some uid; q_gte := None;
                         q_lte := None; q_category := None |} x = false).
    { intros x Hx. apply not_true_iff_false; intros Hm.
      apply matches_id_user in Hm as [Hxi Hxu].
      apply (Hi x Hx); congruence. }
    rewrite (update_first_none _ _ _ Hno), (delete_first_none _ _ Hno).
    destruct c; split; reflexivity. }
  destruct (Hnone expenseId) as [Hup Hdel].
  { intros x Hx Hxi.
    assert (x = e) as -> by (eapply NoDup_map_inj; eauto; congruence).
    exact HB. }
  split; [exact Hup | split; [exact Hdel | split]].
  { intros r w. rewrite !mutate_run. cbn [store redis w]. rewrite Hup, Hdel. split; reflexivity. }
  intros missing Hmiss.
  destruct (Hnone missing) as [Hup' Hdel'].
  { intros x Hx Hxi. exfalso. exact (Hmiss x Hx Hxi). }
  rewrite Hup, Hdel, Hup', Hdel'; split; reflexivity.
Qed.

Lemma ownership_isolation_witness :
  let c := snd (ExpenseRepository.create Mongo.driver rt0 alice (dto "milk" 250 "Groceries")
                  empty_collection) in
  let id := "000000000000000000000001" in
  ExpenseRepository.updateByIdAndUserId Mongo.driver rt0 id bob
    {| UpdateExpenseDto.title := Some "mine"; UpdateExpenseDto.description := None;
       UpdateExpenseDto.amount := None; UpdateExpenseDto.category := None |} c = (inr None, c)
  /\ ExpenseRepository.deleteByIdAndUserId Mongo.driver id bob c = (inr false, c).
Proof.
  intros c id.
  assert (He : exists e, docs c = [e] /\ ObjectId.new id = inr (_id e)
                         /\ ObjectId.new bob <> inr (userId e)).
  { eexists; split; [reflexivity | split; [reflexivity | discriminate]]. }
  destruct He as (e & Hdocs & Hid & HB).
  destruct (ownership_isolation rt0 c e id bob
              {| UpdateExpenseDto.title := Some "mine"; UpdateExpenseDto.description := None;
                 UpdateExpenseDto.amount := None; UpdateExpenseDto.category := None |})
    as (Hup & Hdel & _ & _).
  - rewrite Hdocs. simpl. constructor; [intros Hin; inversion Hin | constructor].
  - rewrite Hdocs. constructor.
  - exact Hid.
  - exact HB.
  - split; assumption.
Defined.

(** ** Pattern deletion *)

Lemma is_hex_literal (c : ascii) : is_hex c = true -> literal c = true.
Proof.
  destruct c as [[] [] [] [] [] [] [] []]; intros H; solve [reflexivity | discriminate H].
Qed.

Lemma matches_star_end (fuel : nat) (s : list ascii) :
  Glob.matches (S (S fuel)) ["*"%char] s = true.
Proof.
  cbn [Glob.matches]. change (ascii_code "*" =? 42) with true. cbv iota.
  induction s as [|x s IH]; [reflexivity |].
  cbn [Glob.matches orb]. exact IH.
Qed.

Lemma matches_literal_prefix (p s : list ascii) (fuel : nat) :
  forallb literal p = true ->
  (List.length p + 2 <= fuel)%nat ->
  Glob.matches fuel (p ++ ["*"%char]) (p ++ s) = true.
Proof.
  revert fuel; induction p as [|c p IH]; intros fuel Hlit Hfuel.
  - destruct fuel as [|[|fuel]]; simpl in Hfuel; try lia. apply matches_star_end.
  - simpl in Hlit. apply andb_true_iff in Hlit as [Hc Hp].
    destruct fuel as [|fuel]; simpl in Hfuel; [lia |].
    unfold literal in Hc. apply negb_true_iff in Hc.
    apply orb_false_iff in Hc as [Hc H92]. apply orb_false_iff in Hc as [Hc H91].
    apply orb_false_iff in Hc as [H42 H63].
    cbn [Glob.matches app]. rewrite H42, H63, H91, H92.
    rewrite (proj2 (Ascii.eqb_eq c c) eq_refl). simpl andb.
    apply IH; [exact Hp | lia].
Qed.

Lemma length_chars (s : string) : List.length (chars s) = String.length s.
Proof. induction s as [|a s IH]; simpl; [reflexivity | now rewrite IH]. Qed.

Lemma glob_prefix (prefix suffix : string) :
  forallb literal (chars prefix) = true ->
  Glob.glob (prefix +:+ "*") (prefix +:+ suffix) = true.
Proof.
  intros Hlit. unfold Glob.glob. rewrite !chars_app.
  apply matches_literal_prefix; [exact Hlit |].
  rewrite <- length_chars, chars_app, length_app, length_chars. simpl. lia.
Qed.

Lemma valid_literal (user : string) :
  ObjectId.isValid user = true -> forallb literal (chars user) = true.
Proof.
  unfold ObjectId.isValid. intros H. apply andb_true_iff in H as [_ H].
  apply forallb_forall. intros c Hc. apply is_hex_literal.
  exact (proj1 (forallb_forall _ _) H c Hc).
Qed.

Lemma purge_matching (pattern key : string) (r : Redis) :
  Glob.glob pattern key = true -> data (purge pattern r) !! key = None.
Proof.
  intros Hm. unfold purge; simpl. apply map_lookup_filter_None. right.
  intros x _ Hx. simpl in Hx. congruence.
Qed.

Lemma purge_absent (pattern key : string) (r : Redis) :
  data r !! key = None -> data (purge pattern r) !! key = None.
Proof. intros Hn. unfold purge; simpl. apply map_lookup_filter_None. now left. Qed.

Lemma invalidated_keys {S} (user suffix : string) (w : World S) :
  ObjectId.isValid user = true ->
  reachable (redis w) = true ->
  data (redis (invalidated user w)) !! ("expenses:" +:+ user +:+ suffix) = None
  /\ data (redis (invalidated user w)) !! ("expense_summary:" +:+ user +:+ suffix) = None.
Proof.
  intros Hok Hup. unfold invalidated. rewrite Hup. simpl redis.
  pose proof (valid_literal _ Hok) as Hlit.
  split.
  - apply purge_absent, purge_matching.
    change ("expenses:" +:+ user +:+ "*") with (("expenses:" +:+ user) +:+ "*").
    change ("expenses:" +:+ user +:+ suffix) with (("expenses:" +:+ user) +:+ suffix).
    apply glob_prefix. rewrite chars_app, forallb_app, Hlit. reflexivity.
  - apply purge_matching.
    change ("expense_summary:" +:+ user +:+ "*") with (("expense_summary:" +:+ user) +:+ "*").
    change ("expense_summary:" +:+ user +:+ suffix)
      with (("expense_summary:" +:+ user) +:+ suffix).
    apply glob_prefix. rewrite chars_app, forallb_app, Hlit. reflexivity.
Qed.

Lemma cached_absent (r : Redis) (key : string) : data r !! key = None -> cached r key = VNull.
Proof. unfold cached. now intros ->. Qed.

(** A mutation only succeeds for a well-formed caller. *)
Lemma mutate_success_valid {S} (collection : Driver S) (rt : Runtime) (user : string)
    (m : Mutation) (w w' : World S) (v : value) :
  mutate collection rt user m w = (inr v, w') -> ObjectId.isValid user = true.
Proof.
  rewrite mutate_run. destruct (ObjectId.isValid user) eqn:Hok; [reflexivity |].
  destruct m as [d | i u | i].
  - unfold ExpenseRepository.create; run. rewrite Hok. simpl. discriminate.
  - unfold ExpenseRepository.updateByIdAndUserId; run. rewrite Hok, orb_true_r. discriminate.
  - unfold ExpenseRepository.deleteByIdAndUserId; run. rewrite Hok, orb_true_r. discriminate.
Qed.

Lemma mutate_success_world {S} (collection : Driver S) (rt : Runtime) (user : string)
    (m : Mutation) (w w' : World S) (v : value) :
  mutate collection rt user m w = (inr v, w') ->
  exists s', w' = invalidated user {| store := s'; redis := redis w |}.
Proof.
  rewrite mutate_run. destruct m as [d | i u | i].
  - destruct (ExpenseRepository.create _ _ _ _ _) as [[e|e] s']; [discriminate |].
    intros [= _ <-]. eauto.
  - destruct (ExpenseRepository.updateByIdAndUserId _ _ _ _ _ _) as [[e|[e|]] s'];
      try discriminate.
    intros [= _ <-]. eauto.
  - destruct (ExpenseRepository.deleteByIdAndUserId _ _ _ _) as [[e|[|]] s']; try discriminate.
    intros [= _ <-]. eauto.
Qed.

(** On a miss, the response and the store after a read depend on the cache
    neither for its contents nor for its being reachable. *)
Lemma getExpenses_miss_independent {S} (collection : Driver S) (rt : Runtime) (user : string)
    (queryParams : ExpenseQueryParams.t) (w1 w2 : World S) :
  store w1 = store w2 ->
  (forall uid, ObjectId.new user = inr uid ->
     let key := ExpenseService.getExpensesCacheKey user (listing_filters rt uid queryParams) in
     truthy (if reachable (redis w1) then cached (redis w1) key else VNull) = false
     /\ truthy (if reachable (redis w2) then cached (redis w2) key else VNull) = false) ->
  fst (ExpenseService.getExpenses collection rt user queryParams w1)
  = fst (ExpenseService.getExpenses collection rt user queryParams w2)
  /\ store (snd (ExpenseService.getExpenses collection rt user queryParams w1))
     = store (snd (ExpenseService.getExpenses collection rt user queryParams w2)).
Proof.
  intros Hst Hmiss.
  destruct (ObjectId.isValid user) eqn:Hok.
  - destruct (valid_new _ Hok) as [uid Huid]. destruct (Hmiss uid Huid) as [H1 H2].
    rewrite (getExpenses_read_through collection rt user queryParams w1 uid Huid H1).
    rewrite (getExpenses_read_through collection rt user queryParams w2 uid Huid H2).
    rewrite Hst.
    destruct (ExpenseRepository.findWithFilters _ _ _) as [[e|found] s']; simpl.
    + split; reflexivity.
    + split; [reflexivity |].
      destruct (reachable (redis w1)), (reachable (redis w2));
        rewrite ?store_stored; reflexivity.
  - rewrite !getExpenses_rejects_malformed by exact Hok. split; [reflexivity | exact Hst].
Qed.

Lemma getExpenseSummary_miss_independent {S} (collection : Driver S) (rt : Runtime)
    (user : string) (queryParams : ExpenseQueryParams.t) (w1 w2 : World S) :
  store w1 = store w2 ->
  let key := RedisClient.getExpenseSummaryCacheKey user (ExpenseQueryParams.period queryParams) in
  truthy (if reachable (redis w1) then cached (redis w1) key else VNull) = false ->
  truthy (if reachable (redis w2) then cached (redis w2) key else VNull) = false ->
  fst (ExpenseService.getExpenseSummary collection rt user queryParams w1)
  = fst (ExpenseService.getExpenseSummary collection rt user queryParams w2)
  /\ store (snd (ExpenseService.getExpenseSummary collection rt user queryParams w1))
     = store (snd (ExpenseService.getExpenseSummary collection rt user queryParams w2)).
Proof.
  intros Hst key H1 H2.
  rewrite (getExpenseSummary_read_through collection rt user queryParams w1 H1).
  rewrite (getExpenseSummary_read_through collection rt user queryParams w2 H2).
  rewrite Hst.
  destruct (ExpenseRepository.getSummary _ _ _ _ _) as [[e|summary] s']; simpl.
  - split; reflexivity.
  - split; [reflexivity |].
    destruct (reachable (redis w1)), (reachable (redis w2)); rewrite ?store_stored; reflexivity.
Qed.

(** ** A failing cache *)

(** C7. With every cache operation failing, a listing, a summary and each
    mutation return what they return with a working cache that holds
    nothing for the request (a failed read is a miss, a failed write a
    no-op), the store ends in the same state, and the request succeeds
    whenever the repository operation does; a mutation returns the same
    result and leaves the same store whatever the working cache holds. This
    is so over every driver. *)
Theorem cache_failure_is_not_fatal {S} (collection : Driver S) (rt : Runtime) (user : string)
    (s : S) (d : gmap string (string * option Z)) :
  let down := {| store := s; redis := {| reachable := false; data := d |} |} in
  (forall queryParams,
     fst (ExpenseService.getExpenses collection rt user queryParams down)
     = fst (ExpenseService.getExpenses collection rt user queryParams (cold s))
     /\ store (snd (ExpenseService.getExpenses collection rt user queryParams down))
        = store (snd (ExpenseService.getExpenses collection rt user queryParams (cold s)))
     /\ forall uid found s',
          ObjectId.new user = inr uid ->
          ExpenseRepository.findWithFilters collection (listing_filters rt uid queryParams) s
          = (inr found, s') ->
          ExpenseService.getExpenses collection rt user queryParams down
          = (inr (listing queryParams found), {| store := s'; redis := redis down |}))
  /\ (forall queryParams,
        fst (ExpenseService.getExpenseSummary collection rt user queryParams down)
        = fst (ExpenseService.getExpenseSummary collection rt user queryParams (cold s))
        /\ store (snd (ExpenseService.getExpenseSummary collection rt user queryParams down))
           = store (snd (ExpenseService.getExpenseSummary collection rt user queryParams (cold s)))
        /\ forall summary s',
             ExpenseRepository.getSummary collection user (fst (summary_bounds rt queryParams))
               (snd (summary_bounds rt queryParams)) s = (inr summary, s') ->
             ExpenseService.getExpenseSummary collection rt user queryParams down
             = (inr (summary_value summary), {| store := s'; redis := redis down |}))
  /\ (forall m d',
        let up := {| store := s; redis := {| reachable := true; data := d' |} |} in
        fst (mutate collection rt user m down) = fst (mutate collection rt user m up)
        /\ store (snd (mutate collection rt user m down))
           = store (snd (mutate collection rt user m up))
        /\ redis (snd (mutate collection rt user m down)) = redis down).
Proof.
  intros down. split; [| split].
  - intros queryParams.
    destruct (getExpenses_miss_independent collection rt user queryParams down (cold s))
      as [Hr Hs]; [reflexivity | intros uid Huid; split; reflexivity |].
    split; [exact Hr | split; [exact Hs |]].
    intros uid found s' Huid Hfound.
    rewrite (getExpenses_read_through collection rt user queryParams down uid Huid eq_refl).
    simpl store. rewrite Hfound. reflexivity.
  - intros queryParams.
    destruct (getExpenseSummary_miss_independent collection rt user queryParams down (cold s))
      as [Hr Hs]; [reflexivity | reflexivity | reflexivity |].
    split; [exact Hr | split; [exact Hs |]].
    intros summary s' Hsum.
    rewrite (getExpenseSummary_read_through collection rt user queryParams down eq_refl).
    simpl store. rewrite Hsum. reflexivity.
  - intros m d' up. rewrite !mutate_run. simpl store.
    destruct m as [dto0 | i u | i].
    + destruct (ExpenseRepository.create _ _ _ _ _) as [[e|e] s']; simpl;
        rewrite ?store_invalidated; auto.
    + destruct (ExpenseRepository.updateByIdAndUserId _ _ _ _ _ _) as [[e|[e|]] s']; simpl;
        rewrite ?store_invalidated; auto.
    + destruct (ExpenseRepository.deleteByIdAndUserId _ _ _ _) as [[e|[|]] s']; simpl;
        rewrite ?store_invalidated; auto.
Qed.

Lemma cache_failure_is_not_fatal_witness :
  let down := set_reachable false week_summarised in
  exists found,
    ExpenseService.getExpenses Mongo.driver rt0 alice no_params down
    = (inr (listing no_params found), down)
    /\ snd found = 3.
Proof.
  intros down.
  destruct (cache_failure_is_not_fatal Mongo.driver rt0 alice week_of_expenses
              (data (redis week_summarised))) as [Hlist _].
  destruct (Hlist no_params) as (_ & _ & Hrun).
  eexists. split.
  - eapply Hrun; reflexivity.
  - reflexivity.
Defined.

(** ** Invalidation *)

(** C2 (amended). After every successful createExpense, updateExpense or
    deleteExpense for user U during which the cache adapter is reachable,
    and before the mutation returns, no cache key prefixed [expenses:<U>] or
    [expense_summary:<U>] is left, so that any subsequent listing or summary
    read for U returns what a read through to the post-mutation store
    returns. *)
Theorem invalidation_complete {S} (collection : Driver S) (rt : Runtime) (user : string)
    (m : Mutation) (w w' : World S) (v : value) :
  reachable (redis w) = true ->
  mutate collection rt user m w = (inr v, w') ->
  (forall suffix,
     data (redis w') !! ("expenses:" +:+ user +:+ suffix) = None
     /\ data (redis w') !! ("expense_summary:" +:+ user +:+ suffix) = None)
  /\ (forall rt' queryParams,
        fst (ExpenseService.getExpenses collection rt' user queryParams w')
        = fst (ExpenseService.getExpenses collection rt' user queryParams (cold (store w'))))
  /\ (forall rt' queryParams,
        fst (ExpenseService.getExpenseSummary collection rt' user queryParams w')
        = fst (ExpenseService.getExpenseSummary collection rt' user queryParams
                 (cold (store w')))).
Proof.
  intros Hup Hrun.
  pose proof (mutate_success_valid _ _ _ _ _ _ _ Hrun) as Hok.
  destruct (mutate_success_world _ _ _ _ _ _ _ Hrun) as [s' ->].
  set (w0 := {| store := s'; redis := redis w |}).
  assert (Hkeys : forall suffix,
             data (redis (invalidated user w0)) !! ("expenses:" +:+ user +:+ suffix) = None
             /\ data (redis (invalidated user w0)) !! ("expense_summary:" +:+ user +:+ suffix)
                = None)
    by (intros suffix; apply invalidated_keys; [exact Hok | exact Hup]).
  split; [exact Hkeys | split].
  - intros rt' queryParams.
    apply getExpenses_miss_independent; [reflexivity |].
    intros uid Huid key. split; [| reflexivity].
    assert (cached (redis (invalidated user w0)) key = VNull) as ->.
    { apply cached_absent. unfold key.
      rewrite listing_key.
      match goal with
      | |- _ !! ("expenses:" +:+ user +:+ ?suffix) = None => exact (proj1 (Hkeys suffix))
      end. }
    destruct (reachable (redis (invalidated user w0))); reflexivity.
  - intros rt' queryParams.
    apply getExpenseSummary_miss_independent; [reflexivity | | reflexivity].
    assert (cached (redis (invalidated user w0))
              (RedisClient.getExpenseSummaryCacheKey user (ExpenseQueryParams.period queryParams))
            = VNull) as ->.
    { apply cached_absent.
      rewrite summary_key.
      match goal with
      | |- _ !! ("expense_summary:" +:+ user +:+ ?suffix) = None => exact (proj2 (Hkeys suffix))
      end. }
    destruct (reachable (redis (invalidated user w0))); reflexivity.
Qed.

Lemma invalidation_complete_witness :
  exists v w',
    mutate Mongo.driver rt0 alice (Create (dto "rent" 10000 "Utilities")) week_summarised
    = (inr v, w')
    /\ data (redis w') !! "expense_summary:65e0a1b2c3d4e5f601234567" = None
    /\ fst (ExpenseService.getExpenseSummary Mongo.driver rt0 alice (summary_params None) w')
       = fst (ExpenseService.getExpenseSummary Mongo.driver rt0 alice (summary_params None)
                (cold (store w'))).
Proof.
  destruct (mutate Mongo.driver rt0 alice (Create (dto "rent" 10000 "Utilities"))
              week_summarised) as [[e|v] w'] eqn:Hrun; [vm_compute in Hrun; discriminate |].
  exists v, w'. split; [reflexivity |].
  destruct (invalidation_complete Mongo.driver rt0 alice _ week_summarised w' v eq_refl Hrun)
    as (Hkeys & _ & Hsum).
  split; [exact (proj2 (Hkeys "")) | apply Hsum].
Defined.

(** C2 as stated fails when the cache adapter is unreachable while the
    mutation runs: the write succeeds, the cached summary stays, and once
    the adapter answers again the summary read returns the total computed
    before the mutation (6000) instead of the store's (16000). *)
Lemma stale_summary_after_unreachable_invalidation :
  let w := set_reachable false week_summarised in
  exists v w',
    mutate Mongo.driver rt0 alice (Create (dto "rent" 10000 "Utilities")) w = (inr v, w')
    /\ data (redis w') !! "expense_summary:65e0a1b2c3d4e5f601234567" <> None
    /\ (exists stale fresh,
          fst (ExpenseService.getExpenseSummary Mongo.driver rt0 alice (summary_params None)
                 (set_reachable true w')) = inr stale
          /\ fst (ExpenseService.getExpenseSummary Mongo.driver rt0 alice (summary_params None)
                    (cold (store w'))) = inr fresh
          /\ JSON.stringify stale <> JSON.stringify fresh
          /\ fst (ExpenseService.getExpenseSummary Mongo.driver rt0 alice (summary_params None)
                    week_summarised) = inr stale).
Proof.
  intros w.
  destruct (mutate Mongo.driver rt0 alice (Create (dto "rent" 10000 "Utilities")) w)
    as [[e|v] w'] eqn:Hrun; [vm_compute in Hrun; discriminate |].
  exists v, w'. split; [reflexivity |].
  assert (Hw' : w' = snd (mutate Mongo.driver rt0 alice (Create (dto "rent" 10000 "Utilities")) w))
    by now rewrite Hrun.
  rewrite Hw'. clear Hrun Hw'.
  split.
  - vm_compute. discriminate.
  - eexists; eexists. split; [vm_compute; reflexivity |].
    split; [vm_compute; reflexivity |]. split; [vm_compute; discriminate | vm_compute; reflexivity].
Qed.

(** ** Sorting and paging *)

Lemma newer_or_same_trans : Transitive newer_or_same.
Proof. unfold Transitive, newer_or_same; intros; lia. Qed.

Lemma insert_desc_perm (e : Expense) (l : list Expense) :
  Permutation (Mongo.insert_desc e l) (e :: l).
Proof.
  induction l as [|x l IH]; simpl; [reflexivity |].
  destruct (createdAt x <=? createdAt e); [reflexivity |].
  rewrite IH. apply perm_swap.
Qed.

Lemma sort_desc_perm (l : list Expense) : Permutation (Mongo.sort_desc l) l.
Proof.
  induction l as [|x l IH]; simpl; [reflexivity |].
  rewrite insert_desc_perm. now constructor.
Qed.

Lemma insert_desc_sorted (e : Expense) (l : list Expense) :
  Sorted newer_or_same l -> Sorted newer_or_same (Mongo.insert_desc e l).
Proof.
  induction l as [|x l IH]; intros Hs; simpl.
  - repeat constructor.
  - destruct (Z.leb_spec (createdAt x) (createdAt e)).
    + constructor; [exact Hs | constructor; exact H].
    + inversion Hs as [|? ? Hs' Hhd]; subst.
      constructor; [apply IH; exact Hs' |].
      destruct l as [|y l]; simpl.
      * constructor. unfold newer_or_same. lia.
      * destruct (createdAt y <=? createdAt e).
        -- constructor. unfold newer_or_same. lia.
        -- inversion Hhd; subst. constructor. assumption.
Qed.

Lemma sort_desc_sorted (l : list Expense) : StronglySorted newer_or_same (Mongo.sort_desc l).
Proof.
  apply Sorted_StronglySorted; [exact newer_or_same_trans |].
  induction l as [|x l IH]; simpl; [constructor | now apply insert_desc_sorted].
Qed.

Lemma mongo_lawful : lawful Mongo.driver docs.
Proof.
  intros q skip limit c Hskip. split; [| reflexivity].
  exists (Mongo.page skip limit (Mongo.sort_desc (List.filter (matches q) (docs c)))).
  split.
  - simpl. unfold Mongo.find_sorted.
    destruct (Z.ltb_spec skip 0); [lia | reflexivity].
  - exists (Mongo.sort_desc (List.filter (matches q) (docs c))).
    split; [apply sort_desc_perm | split; [apply sort_desc_sorted | reflexivity]].
Qed.

(** With pairwise distinct keys there is one newest-first arrangement. *)
Lemma sorted_arrangement_unique (l1 l2 : list Expense) :
  StronglySorted newer_or_same l1 -> StronglySorted newer_or_same l2 ->
  Permutation l1 l2 -> NoDup (map createdAt l1) -> l1 = l2.
Proof.
  revert l2; induction l1 as [|a l1 IH]; intros l2 S1 S2 HP Hnd.
  - apply Permutation_nil in HP. now subst.
  - destruct l2 as [|b l2]; [apply Permutation_sym, Permutation_nil in HP; discriminate |].
    apply StronglySorted_inv in S1 as [S1 Ha]. apply StronglySorted_inv in S2 as [S2 Hb].
    simpl in Hnd. apply NoDup_cons in Hnd as [Hna Hnd].
    assert (a = b) as <-.
    { assert (Hain : In a (b :: l2)) by (eapply Permutation_in; [exact HP | now left]).
      assert (Hbin : In b (a :: l1))
        by (eapply Permutation_in; [apply Permutation_sym; exact HP | now left]).
      destruct Hain as [-> | Hain]; [reflexivity |].
      destruct Hbin as [-> | Hbin]; [reflexivity |].
      exfalso. apply Hna.
      pose proof (proj1 (Forall_forall _ _) Ha b (proj2 (list_elem_of_In _ _) Hbin)) as H1.
      pose proof (proj1 (Forall_forall _ _) Hb a (proj2 (list_elem_of_In _ _) Hain)) as H2.
      unfold newer_or_same in H1, H2.
      replace (createdAt a) with (createdAt b) by lia.
      apply list_elem_of_In, in_map, Hbin. }
    f_equal. apply IH; auto. eapply Permutation_cons_inv; exact HP.
Qed.

Lemma take_take_drop {A} (n m : nat) (l : list A) :
  take n l ++ take m (drop n l) = take (n + m) l.
Proof.
  revert l; induction n as [|n IH]; intros l; [reflexivity |].
  destruct l as [|x l]; simpl; [now destruct m | now rewrite IH].
Qed.

Lemma StronglySorted_take {A} (R : A -> A -> Prop) (n : nat) (l : list A) :
  StronglySorted R l -> StronglySorted R (take n l).
Proof.
  intros H; revert n; induction H as [|a l Hs IH Ha]; intros [|n]; simpl; constructor; auto.
  now apply Forall_take.
Qed.

Lemma NoDup_of_keys (l : list Expense) : NoDup (map createdAt l) -> NoDup l.
Proof.
  induction l as [|a l IH]; intros H; [constructor |].
  simpl in H. apply NoDup_cons in H as [Hna Hnd].
  apply NoDup_cons. split; [| now apply IH].
  intros Hin. apply Hna. apply list_elem_of_In, in_map, list_elem_of_In, Hin.
Qed.

Lemma findWithFilters_lawful {S} (collection : Driver S) (docs_of : S -> list Expense)
    (uid : ObjectId) (startDate endDate : option Date) (category : option string)
    (limit offset : Z) (s : S) :
  lawful collection docs_of -> 0 < limit -> 0 < offset \/ offset = 0 ->
  let q := ExpenseRepository.build_query uid startDate endDate category in
  exists r,
    ExpenseRepository.findWithFilters collection
      (page_filter uid startDate endDate category limit offset) s
    = (inr (r, Z.of_nat (List.length (List.filter (matches q) (docs_of s)))), s)
    /\ answers (docs_of s) q offset limit r.
Proof.
  intros Hlaw Hlim Hoff q.
  destruct (Hlaw q offset limit s) as [(r & Hfind & Hans) Hcount]; [lia |].
  exists r. split; [| exact Hans].
  unfold ExpenseRepository.findWithFilters; run. fold q.
  assert (Hl : (if limit =? 0 then 20 else limit) = limit)
    by (destruct (Z.eqb_spec limit 0); [lia | reflexivity]).
  assert (Ho : (if offset =? 0 then 0 else offset) = offset)
    by (destruct (Z.eqb_spec offset 0); [lia | reflexivity]).
  rewrite Hl, Ho, Hfind, Hcount. reflexivity.
Qed.

(** C4 (amended). [findWithFilters] returns its page ordered by creation
    timestamp descending, with nothing ordering equal timestamps; for every
    fixed filter whose matching records have pairwise distinct creation
    timestamps (whatever their number, 21 or more included), and on every
    driver that answers within the sort contract, page 1 with limit 20 and
    page 2 with limit 20 are disjoint and their ordered union equals page 1
    with limit 40. *)
Theorem pagination_determinism {S} (collection : Driver S) (docs_of : S -> list Expense)
    (uid : ObjectId) (startDate endDate : option Date) (category : option string) (s : S) :
  lawful collection docs_of ->
  let q := ExpenseRepository.build_query uid startDate endDate category in
  NoDup (map createdAt (List.filter (matches q) (docs_of s))) ->
  exists p1 p2 p40 total,
    ExpenseRepository.findWithFilters collection
      (page_filter uid startDate endDate category 20 0) s = (inr (p1, total), s)
    /\ ExpenseRepository.findWithFilters collection
         (page_filter uid startDate endDate category 20 20) s = (inr (p2, total), s)
    /\ ExpenseRepository.findWithFilters collection
         (page_filter uid startDate endDate category 40 0) s = (inr (p40, total), s)
    /\ total = Z.of_nat (List.length (List.filter (matches q) (docs_of s)))
    /\ p1 ++ p2 = p40
    /\ (forall x, x ∈ p1 -> x ∉ p2)
    /\ StronglySorted newer_or_same p40
    /\ (forall x, x ∈ p40 -> x ∈ docs_of s /\ matches q x = true).
Proof.
  intros Hlaw q Hnd.
  destruct (findWithFilters_lawful collection docs_of uid startDate endDate category 20 0 s
              Hlaw) as (p1 & H1 & l1 & P1 & S1 & ->); [lia | now right |].
  destruct (findWithFilters_lawful collection docs_of uid startDate endDate category 20 20 s
              Hlaw) as (p2 & H2 & l2 & P2 & S2 & ->); [lia | left; lia |].
  destruct (findWithFilters_lawful collection docs_of uid startDate endDate category 40 0 s
              Hlaw) as (p40 & H40 & l40 & P40 & S40 & ->); [lia | now right |].
  fold q in P1, P2, P40.
  assert (Hk1 : NoDup (map createdAt l1)) by (rewrite P1; exact Hnd).
  assert (l1 = l2) as <-
    by (apply sorted_arrangement_unique; auto; now rewrite P1, P2).
  assert (l1 = l40) as <-
    by (apply sorted_arrangement_unique; auto; now rewrite P1, P40).
  exists (take 20 l1), (take 20 (drop 20 l1)), (take 40 l1). eexists.
  split; [exact H1 | split; [exact H2 | split; [exact H40 | split; [reflexivity |]]]].
  assert (Happ : take 20 l1 ++ take 20 (drop 20 l1) = take 40 l1)
    by apply (take_take_drop 20 20).
  assert (Hnd40 : NoDup (take 40 l1)).
  { apply NoDup_of_keys in Hk1. rewrite <- (take_drop 40 l1) in Hk1.
    apply NoDup_app in Hk1. tauto. }
  split; [exact Happ | split; [| split]].
  - rewrite <- Happ in Hnd40. apply NoDup_app in Hnd40 as (_ & Hdis & _). exact Hdis.
  - apply StronglySorted_take. exact S1.
  - intros x Hx. apply elem_of_take in Hx as (i & Hx & _).
    apply list_elem_of_lookup_2 in Hx.
    assert (Hin : In x (List.filter (matches q) (docs_of s)))
      by (eapply Permutation_in; [exact P1 | now apply list_elem_of_In]).
    apply filter_In in Hin as [Hin Hm]. split; [now apply list_elem_of_In | exact Hm].
Qed.

Lemma pagination_determinism_witness :
  let c := {| docs := numbered (fun k => 1000 * k) 25; nextId := 26 |} in
  exists p1 p2 p40 total,
    ExpenseRepository.findWithFilters Mongo.driver
      (page_filter {| toHexString := alice |} None None None 20 0) c = (inr (p1, total), c)
    /\ ExpenseRepository.findWithFilters Mongo.driver
         (page_filter {| toHexString := alice |} None None None 20 20) c = (inr (p2, total), c)
    /\ ExpenseRepository.findWithFilters Mongo.driver
         (page_filter {| toHexString := alice |} None None None 40 0) c = (inr (p40, total), c)
    /\ total = 25
    /\ p1 ++ p2 = p40
    /\ (forall x, x ∈ p1 -> x ∉ p2).
Proof.
  intros c.
  destruct (pagination_determinism Mongo.driver docs {| toHexString := alice |} None None None
              c mongo_lawful) as (p1 & p2 & p40 & total & H1 & H2 & H40 & Ht & Happ & Hdis & _).
  - cbv zeta. refine (bool_decide_unpack _ _). vm_compute. exact I.
  - exists p1, p2, p40, total. repeat (split; [assumption |]). assumption.
Defined.

Lemma same_time_sorted (t : Z) (l : list Expense) :
  Forall (fun e => createdAt e = t) l -> StronglySorted newer_or_same l.
Proof.
  induction 1 as [|e l He Hl IH]; constructor; [exact IH |].
  eapply Forall_impl; [exact Hl |]. intros x Hx. unfold newer_or_same. simpl in Hx. lia.
Qed.

Lemma numbered_same_time (t : Z) (n : nat) :
  Forall (fun e => createdAt e = t) (numbered (fun _ => t) n).
Proof. unfold numbered. apply Forall_forall. intros e He.
  apply list_elem_of_In, in_map_iff in He as (k & <- & _). reflexivity.
Qed.

(** C4 as stated fails. The sort names the creation timestamp only: among
    documents of equal timestamp the behaving store returns them as they
    are stored, here with identifiers 2, 1, 3, which no tie-break on the
    identifier produces; and with 21 matching records of one timestamp the
    server may answer page 1 from one arrangement and page 2 from another,
    so that the two pages share a record and their union is not the page of
    40. *)
Lemma ties_are_not_broken_by_identifier :
  (let e k := {| _id := Mongo.oid_of k; userId := {| toHexString := alice |};
                 title := "expense"; description := None; amount := Double.of_Z 100;
                 category := "Others"; createdAt := 5000; updatedAt := 5000 |} in
   fst (ExpenseRepository.findWithFilters Mongo.driver
          (page_filter {| toHexString := alice |} None None None 20 0)
          {| docs := [e 2; e 1; e 3]; nextId := 4 |})
   = inr ([e 2; e 1; e 3], 3))
  /\ ~ (forall (all : list Expense) (q : Query) (r1 r2 r40 : list Expense),
          (21 <= List.length (List.filter (matches q) all))%nat ->
          answers all q 0 20 r1 -> answers all q 20 20 r2 -> answers all q 0 40 r40 ->
          r1 ++ r2 = r40 /\ (forall x, x ∈ r1 -> x ∉ r2)).
Proof.
  split; [reflexivity |].
  intros Hclaim.
  pose (all := numbered (fun _ => 5000) 21).
  assert (Hall : List.filter (matches of_alice) all = all) by (vm_compute; reflexivity).
  assert (Hfwd : StronglySorted newer_or_same all)
    by (apply (same_time_sorted 5000), numbered_same_time).
  assert (Hbwd : StronglySorted newer_or_same (rev all))
    by (apply (same_time_sorted 5000), Forall_rev, numbered_same_time).
  destruct (Hclaim all of_alice (Mongo.page 0 20 all) (Mongo.page 20 20 (rev all))
              (Mongo.page 0 40 all)) as [Heq _].
  - rewrite Hall. vm_compute. lia.
  - exists all. rewrite Hall. split; [reflexivity | split; [exact Hfwd | reflexivity]].
  - exists (rev all). rewrite Hall.
    split; [apply Permutation_sym, Permutation_rev | split; [exact Hbwd | reflexivity]].
  - exists all. rewrite Hall. split; [reflexivity | split; [exact Hfwd | reflexivity]].
  - apply (f_equal (fun l => nth 20 (map (fun x => toHexString (_id x)) l) "")) in Heq.
    vm_compute in Heq. discriminate Heq.
Qed.

(** ** JSON: reading back what was written *)

Lemma write_array (items : list value) :
  JSON.write (VArr items) = "["%char :: elements_text items ++ ["]"%char].
Proof. reflexivity. Qed.

Lemma write_object (props : list (string * value)) :
  JSON.write (VObj props) = "{"%char :: members_text true props ++ ["}"%char].
Proof. reflexivity. Qed.

Lemma norm_object (props : list (string * value)) :
  JSON.norm (VObj props) = VObj (norm_members props).
Proof. reflexivity. Qed.

Lemma value_ind_nested (P : value -> Prop) :
  P VUndefined -> P VNull -> (forall b, P (VBool b)) -> (forall n, P (VNum n)) ->
  (forall x, P (VDouble x)) ->
  (forall s, P (VStr s)) -> (forall t, P (VDate t)) ->
  (forall items, Forall P items -> P (VArr items)) ->
  (forall props, Forall (fun kv => P (snd kv)) props -> P (VObj props)) ->
  forall v, P v.
Proof.
  intros Hu Hn Hb Hnum Hdbl Hs Hd Ha Ho.
  refine (fix IH (v : value) : P v :=
            match v with
            | VUndefined => Hu
            | VNull => Hn
            | VBool b => Hb b
            | VNum n => Hnum n
            | VDouble x => Hdbl x
            | VStr s => Hs s
            | VDate t => Hd t
            | VArr items =>
                Ha items
                   ((fix all (l : list value) : Forall P l :=
                       match l with
                       | [] => List.Forall_nil _
                       | x :: l' => @List.Forall_cons _ P x l' (IH x) (all l')
                       end) items)
            | VObj props =>
                Ho props
                   ((fix all (l : list (string * value)) : Forall (fun kv => P (snd kv)) l :=
                       match l with
                       | [] => List.Forall_nil _
                       | (k, x) :: l' =>
                           @List.Forall_cons _ (fun kv => P (snd kv)) (k, x) l' (IH x) (all l')
                       end) props)
            end).
Qed.

Lemma read_string_char (c : ascii) (tl : list ascii) :
  JSON.read_string (JSON.quote_char c ++ tl) = JSON.cons_fst c (JSON.read_string tl).
Proof. destruct c as [[] [] [] [] [] [] [] []]; reflexivity. Qed.

Lemma read_string_quoted (cs tl : list ascii) :
  JSON.read_string (flat_map JSON.quote_char cs ++ JSON.dquote :: tl) = Some (cs, tl).
Proof.
  induction cs as [|c cs IH]; [reflexivity |].
  cbn [flat_map]. rewrite <- app_assoc, read_string_char, IH. reflexivity.
Qed.

Lemma quote_app (s : string) (tl : list ascii) :
  JSON.quote s ++ tl = JSON.dquote :: flat_map JSON.quote_char (chars s) ++ JSON.dquote :: tl.
Proof. unfold JSON.quote. cbn [app]. now rewrite <- app_assoc. Qed.

(** ** binary64: rounding an exactly representable ratio *)

Lemma digits2_size (m : positive) : SpecFloat.digits2_pos m = Pos.size m.
Proof. induction m as [m IH | m IH |]; simpl; [now rewrite IH | now rewrite IH | reflexivity]. Qed.

Lemma digits2_log2 (m : positive) : Zpos (SpecFloat.digits2_pos m) = Z.log2 (Zpos m) + 1.
Proof.
  rewrite digits2_size. destruct m as [m | m |]; simpl; [| | reflexivity];
    rewrite Pos2Z.inj_succ; lia.
Qed.

(** [reaches l P Q] compares after scaling both sides by a power of two
    large enough to clear the negative exponents. *)
Lemma reaches_scaled (l P Q K : Z) :
  0 <= K -> 0 <= l + K ->
  Double.reaches l P Q = true <-> Q * 2 ^ (l + K) <= P * 2 ^ K.
Proof.
  intros HK HlK. unfold Double.reaches.
  assert (H2K : 0 < 2 ^ K) by (apply Z.pow_pos_nonneg; lia).
  destruct (0 <=? l) eqn:Hl.
  - apply Z.leb_le in Hl. rewrite Z.pow_add_r by lia. rewrite Z.leb_le.
    split; intros H; nia.
  - apply Z.leb_gt in Hl. rewrite Z.leb_le.
    replace K with ((l + K) + - l) at 2 by lia.
    rewrite (Z.pow_add_r 2 (l + K) (- l)) by lia.
    assert (0 < 2 ^ (l + K)) by (apply Z.pow_pos_nonneg; lia).
    split; intros H'; nia.
Qed.

Lemma reaches_mono (l l' P Q : Z) :
  0 < P -> 0 < Q -> l' <= l -> Double.reaches l P Q = true -> Double.reaches l' P Q = true.
Proof.
  intros HP HQ Hle H.
  set (K := Z.abs l + Z.abs l').
  apply (reaches_scaled l P Q K) in H; [| lia | lia].
  apply (reaches_scaled l' P Q K); [lia | lia |].
  assert (2 ^ (l' + K) <= 2 ^ (l + K)) by (apply Z.pow_le_mono_r; lia).
  nia.
Qed.

Lemma ilog2_spec (P Q : Z) :
  0 < P -> 0 < Q ->
  Double.reaches (Double.ilog2 P Q) P Q = true
  /\ Double.reaches (Double.ilog2 P Q + 1) P Q = false.
Proof.
  intros HP HQ. unfold Double.ilog2.
  destruct (Z.log2_spec P HP) as [HP1 HP2].
  destruct (Z.log2_spec Q HQ) as [HQ1 HQ2].
  pose proof (Z.log2_nonneg P) as HlP. pose proof (Z.log2_nonneg Q) as HlQ.
  set (lp := Z.log2 P) in *. set (lq := Z.log2 Q) in *.
  set (a := lp - lq).
  assert (Hup : forall l, a + 1 <= l -> Double.reaches l P Q = false).
  { intros l Hl. destruct (Double.reaches l P Q) eqn:E; [exfalso | reflexivity].
    apply (reaches_mono l (a + 1) P Q HP HQ Hl) in E.
    apply (reaches_scaled (a + 1) P Q lq) in E; [| lia | lia].
    replace (a + 1 + lq) with (Z.succ lp) in E by lia.
    assert (0 < 2 ^ Z.succ lp) by (apply Z.pow_pos_nonneg; lia).
    nia. }
  assert (Hdown : Double.reaches (a - 1) P Q = true).
  { apply (reaches_scaled (a - 1) P Q (Z.succ lq)); [lia | lia |].
    replace (a - 1 + Z.succ lq) with lp by lia.
    assert (0 < 2 ^ lp) by (apply Z.pow_pos_nonneg; lia).
    nia. }
  destruct (Double.reaches a P Q) eqn:E.
  - split; [exact E | apply Hup; lia].
  - split; [exact Hdown |]. replace (a - 1 + 1) with a by lia. exact E.
Qed.

Lemma ilog2_unique (P Q l : Z) :
  0 < P -> 0 < Q ->
  Double.reaches l P Q = true -> Double.reaches (l + 1) P Q = false ->
  Double.ilog2 P Q = l.
Proof.
  intros HP HQ H1 H2. destruct (ilog2_spec P Q HP HQ) as [H3 H4].
  destruct (Z.lt_trichotomy (Double.ilog2 P Q) l) as [Hlt | [Heq | Hgt]]; [| exact Heq |].
  - apply (reaches_mono l (Double.ilog2 P Q + 1) P Q HP HQ) in H1; [congruence | lia].
  - apply (reaches_mono _ (l + 1) P Q HP HQ) in H3; [congruence | lia].
Qed.

Lemma round_half_even_exact (m Q : Z) : 0 < Q -> Double.round_half_even (m * Q) Q = m.
Proof.
  intros HQ. unfold Double.round_half_even.
  rewrite Z.mod_mul by lia. rewrite Z.div_mul by lia.
  replace (2 * 0) with 0 by lia. now rewrite (proj2 (Z.compare_lt_iff 0 Q) HQ).
Qed.

Lemma nearest_exact (negative : bool) (P Q : Z) (m : positive) (e : Z) :
  0 < Q -> Double.is_binary64 (SpecFloat.S754_finite negative m e) = true ->
  is_value P Q m e ->
  Double.nearest negative P Q = SpecFloat.S754_finite negative m e.
Proof.
  intros HQ Hvalid Hval.
  unfold Double.is_binary64, SpecFloat.valid_binary, SpecFloat.bounded,
    SpecFloat.canonical_mantissa, SpecFloat.fexp, SpecFloat.emin in Hvalid.
  apply andb_true_iff in Hvalid as [Hcan Hemax].
  apply Z.eqb_eq in Hcan. apply Z.leb_le in Hemax.
  rewrite digits2_log2 in Hcan.
  destruct (Z.log2_spec (Zpos m) eq_refl) as [Hm1 Hm2].
  pose proof (Z.log2_nonneg (Zpos m)) as Hlm.
  set (lm := Z.log2 (Zpos m)) in *.
  assert (HP : 0 < P).
  { unfold is_value in Hval. destruct (0 <=? e) eqn:He.
    - apply Z.leb_le in He. assert (0 < 2 ^ e) by (apply Z.pow_pos_nonneg; lia). nia.
    - apply Z.leb_gt in He. assert (0 < 2 ^ (- e)) by (apply Z.pow_pos_nonneg; lia). nia. }
  assert (Hlog : Double.ilog2 P Q = lm + e).
  { apply ilog2_unique; [exact HP | exact HQ | |].
    - apply (reaches_scaled (lm + e) P Q (Z.abs e)); [lia | lia |].
      unfold is_value in Hval. destruct (0 <=? e) eqn:He.
      + apply Z.leb_le in He. rewrite Z.abs_eq by lia.
        rewrite Hval, !Z.pow_add_r by lia.
        assert (0 < 2 ^ e) by (apply Z.pow_pos_nonneg; lia).
        assert (0 < 2 ^ lm) by (apply Z.pow_pos_nonneg; lia). nia.
      + apply Z.leb_gt in He. rewrite Z.abs_neq by lia. rewrite Hval.
        replace (lm + e + - e) with lm by lia. nia.
    - destruct (Double.reaches (lm + e + 1) P Q) eqn:E; [exfalso | reflexivity].
      apply (reaches_scaled (lm + e + 1) P Q (Z.abs e)) in E; [| lia | lia].
      unfold is_value in Hval. destruct (0 <=? e) eqn:He.
      + apply Z.leb_le in He. rewrite Z.abs_eq in E by lia.
        rewrite Hval in E.
        replace (lm + e + 1 + e) with (Z.succ lm + e + e) in E by lia.
        rewrite !Z.pow_add_r in E by lia.
        assert (0 < 2 ^ e) by (apply Z.pow_pos_nonneg; lia).
        assert (0 < 2 ^ Z.succ lm) by (apply Z.pow_pos_nonneg; lia). nia.
      + apply Z.leb_gt in He. rewrite Z.abs_neq in E by lia. rewrite Hval in E.
        replace (lm + e + 1 + - e) with (Z.succ lm) in E by lia. nia. }
  unfold Double.nearest.
  rewrite (proj2 (Z.leb_gt P 0) HP), Hlog.
  replace (Z.max (lm + e - 52) (-1074)) with e by lia.
  assert (Hm : (if 0 <=? e then Double.round_half_even P (Q * 2 ^ e)
                else Double.round_half_even (P * 2 ^ (- e)) Q) = Zpos m).
  { unfold is_value in Hval. destruct (0 <=? e) eqn:He.
    - apply Z.leb_le in He. rewrite Hval.
      replace (Zpos m * 2 ^ e * Q) with (Zpos m * (Q * 2 ^ e)) by lia.
      apply round_half_even_exact.
      assert (0 < 2 ^ e) by (apply Z.pow_pos_nonneg; lia). nia.
    - rewrite Hval. now apply round_half_even_exact. }
  rewrite Hm.
  assert (Hlt : Zpos m < 2 ^ 53).
  { assert (lm + 1 <= 53) by lia.
    assert (2 ^ Z.succ lm <= 2 ^ 53) by (apply Z.pow_le_mono_r; lia). lia. }
  rewrite (proj2 (Z.eqb_neq _ _)) by lia.
  now rewrite (proj2 (Z.leb_le e 971)) by lia.
Qed.

(** ** Decimal digits *)

Lemma digits_value_fold (ds : list ascii) : JSON.digits_value ds = fold_left digit_step ds 0.
Proof. reflexivity. Qed.

Lemma fold_digits_app (a b : list ascii) (acc : Z) :
  fold_left digit_step (a ++ b) acc = fold_left digit_step b (fold_left digit_step a acc).
Proof. apply fold_left_app. Qed.

Lemma fold_digits_acc (b : list ascii) (acc : Z) :
  fold_left digit_step b acc = acc * 10 ^ Z.of_nat (List.length b) + fold_left digit_step b 0.
Proof.
  revert acc. induction b as [|c b IH]; intros acc.
  - simpl. lia.
  - cbn [fold_left List.length]. rewrite (IH (digit_step acc c)), (IH (digit_step 0 c)).
    rewrite Nat2Z.inj_succ, Z.pow_succ_r by lia. unfold digit_step. lia.
Qed.

Lemma digits_value_app (a b : list ascii) :
  JSON.digits_value (a ++ b) = JSON.digits_value a * 10 ^ Z.of_nat (List.length b) + JSON.digits_value b.
Proof. rewrite !digits_value_fold, fold_digits_app. apply fold_digits_acc. Qed.

Lemma digits_value_zeros (n : nat) : JSON.digits_value (List.repeat "0"%char n) = 0.
Proof.
  rewrite digits_value_fold. induction n as [|n IH]; [reflexivity |].
  cbn [List.repeat fold_left]. exact IH.
Qed.

Lemma of_uint_acc_fold (u : Decimal.uint) (acc : positive) :
  Zpos (Pos.of_uint_acc u acc) = fold_left digit_step (uint_chars u) (Zpos acc).
Proof.
  revert acc. induction u as [|u IH|u IH|u IH|u IH|u IH|u IH|u IH|u IH|u IH|u IH];
    intros acc; cbn [Pos.of_uint_acc uint_chars fold_left]; [reflexivity | rewrite IH; f_equal ..];
    unfold digit_step;
    match goal with |- context [ascii_code ?c] =>
      let v := eval vm_compute in (ascii_code c) in change (ascii_code c) with v end;
    lia.
Qed.

Lemma of_uint_fold (u : Decimal.uint) :
  Z.of_N (Pos.of_uint u) = JSON.digits_value (uint_chars u).
Proof.
  rewrite digits_value_fold.
  induction u as [|u IH|u IH|u IH|u IH|u IH|u IH|u IH|u IH|u IH|u IH];
    cbn [Pos.of_uint uint_chars fold_left]; [reflexivity | exact IH | ..];
    cbn [Z.of_N]; rewrite of_uint_acc_fold; reflexivity.
Qed.

Lemma uint_chars_digits (u : Decimal.uint) : Forall (fun c => is_digit c = true) (uint_chars u).
Proof. induction u; cbn [uint_chars]; constructor; auto. Qed.

(** The decimal of a positive integer: digits, the first of them not zero,
    that read as the integer. *)
Lemma decimal_facts (s : Z) :
  0 < s ->
  exists d ds,
    NumberToString.decimal s = d :: ds
    /\ Forall (fun c => is_digit c = true) (d :: ds)
    /\ (ascii_code d =? 48) = false
    /\ JSON.digits_value (d :: ds) = s.
Proof.
  intros Hs. unfold NumberToString.decimal.
  set (p := Z.to_pos s). assert (Hp : Zpos p = s) by (apply Z2Pos.id; exact Hs).
  pose proof (DecimalPos.Unsigned.of_to p) as Hof.
  pose proof (DecimalPos.Unsigned.to_of (Pos.to_uint p)) as Hnorm.
  rewrite Hof in Hnorm. cbn [N.to_uint] in Hnorm.
  pose proof (uint_chars_digits (Pos.to_uint p)) as Hdig.
  pose proof (of_uint_fold (Pos.to_uint p)) as Hval. rewrite Hof in Hval. cbn [Z.of_N] in Hval.
  destruct (Pos.to_uint p) as [|u|u|u|u|u|u|u|u|u|u] eqn:Hu;
    try (eexists; eexists; split; [reflexivity | split; [exact Hdig | split; [reflexivity | rewrite <- Hp; symmetry; exact Hval]]]).
  - exfalso. change (JSON.digits_value (uint_chars Nil)) with 0 in Hval. lia.
  - exfalso. unfold Decimal.unorm in Hnorm. cbn [Decimal.nzhead] in Hnorm.
    pose proof (DecimalFacts.nb_digits_nzhead u) as Hle.
    destruct (Decimal.nzhead u) as [|u0|u0|u0|u0|u0|u0|u0|u0|u0|u0] eqn:Hnz;
      try discriminate Hnorm.
    + injection Hnorm as Hnil. subst u.
      change (JSON.digits_value (uint_chars zero)) with 0 in Hval. lia.
    + injection Hnorm as Hu0. subst u0. cbn [Decimal.nb_digits] in Hle. lia.
Qed.

Lemma read_digits_prefix (ds rest : list ascii) :
  Forall (fun c => is_digit c = true) ds ->
  match rest with [] => True | c :: _ => is_digit c = false end ->
  JSON.read_digits (ds ++ rest) = (ds, rest).
Proof.
  intros Hds Hrest. induction Hds as [|c ds Hc _ IH]; cbn [app JSON.read_digits].
  - destruct rest as [|c rest]; [reflexivity | cbn [JSON.read_digits]; now rewrite Hrest].
  - now rewrite Hc, IH.
Qed.

Lemma zeros_digits (n : nat) : Forall (fun c => is_digit c = true) (List.repeat "0"%char n).
Proof. induction n; cbn [List.repeat]; constructor; auto. Qed.

Lemma ends_number_digit (rest : list ascii) :
  ends_number rest -> match rest with [] => True | c :: _ => is_digit c = false end.
Proof. destruct rest; [auto | now intros [H _]]. Qed.

Lemma read_fraction_none (rest : list ascii) :
  ends_number rest -> JSON.read_fraction rest = Some ([], rest).
Proof.
  destruct rest as [|c rest]; [reflexivity | intros (_ & H46 & _)].
  cbn [JSON.read_fraction]. now rewrite (proj2 (Z.eqb_neq _ _) H46).
Qed.

Lemma read_exponent_none (rest : list ascii) :
  ends_number rest -> JSON.read_exponent rest = Some (0, rest).
Proof.
  destruct rest as [|c rest]; [reflexivity | intros (_ & _ & H101 & H69)].
  cbn [JSON.read_exponent].
  now rewrite (proj2 (Z.eqb_neq _ _) H101), (proj2 (Z.eqb_neq _ _) H69).
Qed.

Lemma read_fraction_some (ds rest : list ascii) :
  ds <> [] -> Forall (fun c => is_digit c = true) ds ->
  match rest with [] => True | c :: _ => is_digit c = false end ->
  JSON.read_fraction ("."%char :: ds ++ rest) = Some (ds, rest).
Proof.
  intros Hne Hds Hrest. cbn [JSON.read_fraction]. change (ascii_code "." =? 46) with true.
  cbv iota. rewrite (read_digits_prefix ds rest Hds Hrest).
  destruct ds; [congruence | reflexivity].
Qed.

Lemma read_exponent_some (e : Z) (rest : list ascii) :
  e <> 0 -> ends_number rest ->
  JSON.read_exponent ("e"%char :: (if e <? 0 then "-"%char else "+"%char)
                            :: NumberToString.decimal (Z.abs e) ++ rest)
  = Some (e, rest).
Proof.
  intros He Hrest.
  destruct (decimal_facts (Z.abs e)) as (d & ds & Hdec & Hdig & _ & Hval); [lia |].
  cbn [JSON.read_exponent]. change ((ascii_code "e" =? 101) || (ascii_code "e" =? 69)) with true.
  cbv iota.
  assert (Hread : JSON.read_digits (NumberToString.decimal (Z.abs e) ++ rest)
                  = (d :: ds, rest)).
  { rewrite Hdec. apply read_digits_prefix; [exact Hdig | now apply ends_number_digit]. }
  destruct (e <? 0) eqn:Hneg.
  - change (ascii_code "-" =? 45) with true. cbv iota. rewrite Hread, Hval.
    apply Z.ltb_lt in Hneg. do 2 f_equal. lia.
  - change (ascii_code "+" =? 45) with false. change (ascii_code "+" =? 43) with true.
    cbv iota. rewrite Hread, Hval.
    apply Z.ltb_ge in Hneg. do 2 f_equal. lia.
Qed.

Lemma not_digit_point : is_digit "."%char = false.
Proof. reflexivity. Qed.
Lemma not_digit_e : is_digit "e"%char = false.
Proof. reflexivity. Qed.

(** The reader inverts steps 6 to 10 of Number::toString. *)
Lemma read_formatted (negative : bool) (s j : Z) (rest : list ascii) :
  0 < s -> ends_number rest ->
  JSON.read_double ((if negative then ["-"%char] else []) ++ NumberToString.format s j ++ rest)
  = Some (Double.of_decimal negative s j, rest).
Proof.
  intros Hs Hrest.
  destruct (decimal_facts s Hs) as (d & ds & Hdec & Hdig & Hd & Hval).
  pose proof (ends_number_digit rest Hrest) as Hrest'.
  assert (Hdd : is_digit d = true) by (inversion Hdig; assumption).
  assert (Hd45 : (ascii_code d =? 45) = false).
  { unfold is_digit in Hdd. apply andb_true_iff in Hdd as [H1 _].
    apply Z.leb_le in H1. apply Z.eqb_neq. lia. }
  assert (Hsign : forall tl,
            JSON.read_double ((if negative then ["-"%char] else []) ++ d :: tl)
            = match JSON.read_digits (d :: tl) with
              | ([], _) => None
              | (d0 :: ds0, s2) =>
                  if (ascii_code d0 =? 48) && match ds0 with [] => false | _ :: _ => true end
                  then None
                  else match JSON.read_fraction s2 with
                       | None => None
                       | Some (frac, s3) =>
                           match JSON.read_exponent s3 with
                           | None => None
                           | Some (e, rest0) =>
                               Some (Double.of_decimal negative
                                       (JSON.digits_value ((d0 :: ds0) ++ frac))
                                       (e - Z.of_nat (List.length frac)), rest0)
                           end
                       end
              end).
  { intros tl. destruct negative; unfold JSON.read_double; cbn [app].
    - change (ascii_code "-" =? 45) with true. reflexivity.
    - rewrite Hd45. reflexivity. }
  unfold NumberToString.format. rewrite Hdec.
  set (k := Z.of_nat (List.length (d :: ds))).
  assert (Hk : 1 <= k) by (unfold k; cbn [List.length]; lia).
  set (n := k + j).
  destruct ((k <=? n) && (n <=? 21)) eqn:C1.
  { (* digits followed by zeros *)
    apply andb_true_iff in C1 as [C1 _]. apply Z.leb_le in C1.
    rewrite <- app_assoc. cbn [app]. rewrite Hsign.
    change (d :: ds ++ List.repeat "0"%char (Z.to_nat (n - k)) ++ rest)
      with ((d :: ds) ++ List.repeat "0"%char (Z.to_nat (n - k)) ++ rest).
    rewrite app_assoc.
    rewrite (read_digits_prefix _ rest); [| apply Forall_app; split; [exact Hdig | apply zeros_digits] | exact Hrest'].
    cbn [app]. rewrite Hd. cbn [andb].
    rewrite (read_fraction_none rest Hrest), (read_exponent_none rest Hrest).
    f_equal. f_equal. cbn [List.length Nat2Z.inj]. rewrite app_nil_r.
    change (d :: ds ++ List.repeat "0"%char (Z.to_nat (n - k)))
      with ((d :: ds) ++ List.repeat "0"%char (Z.to_nat (n - k))).
    rewrite digits_value_app, digits_value_zeros, Hval, repeat_length, Z2Nat.id by lia.
    unfold Double.of_decimal. change (0 - Z.of_nat 0) with 0. cbn [Z.leb Z.compare].
    replace (n - k) with j by lia.
    rewrite (proj2 (Z.leb_le 0 j)) by lia.
    f_equal. rewrite Z.pow_0_r. ring. }
  destruct ((0 <? n) && (n <=? 21)) eqn:C2.
  { (* a point inside the digits *)
    apply andb_true_iff in C2 as [C2 C2']. apply Z.ltb_lt in C2. apply Z.leb_le in C2'.
    assert (Hnk : n < k).
    { apply andb_false_iff in C1 as [C1 | C1]; [apply Z.leb_gt in C1; lia |].
      apply Z.leb_gt in C1. lia. }
    destruct (Z.to_nat n) as [|n'] eqn:Hn'; [lia |].
    cbn [take]. rewrite <- app_assoc. cbn [app]. rewrite Hsign.
    assert (Hlen : (n' <= List.length ds)%nat).
    { unfold k in Hnk. cbn [List.length] in Hnk. lia. }
    pose proof (take_drop n' ds) as Hsplit.
    assert (Htake : Forall (fun c => is_digit c = true) (d :: take n' ds)).
    { constructor; [exact Hdd |]. apply Forall_take. now inversion Hdig. }
    assert (Hdrop : Forall (fun c => is_digit c = true) (drop (S n') (d :: ds))).
    { cbn [drop]. apply Forall_drop. now inversion Hdig. }
    change (d :: take n' ds ++ "."%char :: drop (S n') (d :: ds) ++ rest)
      with ((d :: take n' ds) ++ "."%char :: drop (S n') (d :: ds) ++ rest).
    rewrite (read_digits_prefix _ ("."%char :: _) Htake not_digit_point).
    rewrite Hd. cbn [andb].
    assert (Hne : drop (S n') (d :: ds) <> []).
    { cbn [drop]. intros Hnil. apply (f_equal List.length) in Hnil.
      rewrite length_drop in Hnil. cbn [List.length] in Hnil.
      unfold k in Hnk. cbn [List.length] in Hnk. lia. }
    rewrite (read_fraction_some _ rest Hne Hdrop Hrest'), (read_exponent_none rest Hrest).
    f_equal. f_equal.
    cbn [drop app]. rewrite Hsplit, Hval.
    f_equal. rewrite length_drop. unfold n, k in *. cbn [List.length] in *. lia. }
  destruct ((-6 <? n) && (n <=? 0)) eqn:C3.
  { (* zeros ahead of the digits *)
    apply andb_true_iff in C3 as [_ C3]. apply Z.leb_le in C3.
    set (zeros := List.repeat "0"%char (Z.to_nat (- n))).
    assert (Hzero : Forall (fun c => is_digit c = true) ["0"%char]) by (repeat constructor).
    assert (Hfrac : Forall (fun c => is_digit c = true) (zeros ++ d :: ds)).
    { apply Forall_app; split; [apply zeros_digits | exact Hdig]. }
    assert (Hne : zeros ++ d :: ds <> []) by (now destruct zeros).
    assert (Hread : JSON.read_double ((if negative then ["-"%char] else [])
                                 ++ "0"%char :: "."%char :: (zeros ++ d :: ds) ++ rest)
                    = Some (Double.of_decimal negative
                              (JSON.digits_value (["0"%char] ++ zeros ++ d :: ds))
                              (0 - Z.of_nat (List.length (zeros ++ d :: ds))), rest)).
    { assert (Hbody : JSON.read_digits ("0"%char :: "."%char :: (zeros ++ d :: ds) ++ rest)
                      = (["0"%char], "."%char :: (zeros ++ d :: ds) ++ rest)).
      { apply (read_digits_prefix ["0"%char] ("."%char :: _) Hzero not_digit_point). }
      destruct negative; unfold JSON.read_double; cbn [app];
        [change (ascii_code "-" =? 45) with true | change (ascii_code "0" =? 45) with false];
        cbv iota; rewrite Hbody; cbv iota beta;
        change (ascii_code "0" =? 48) with true; cbn [andb];
        rewrite (read_fraction_some _ rest Hne Hfrac Hrest'), (read_exponent_none rest Hrest);
        reflexivity. }
    rewrite <- app_assoc in Hread.
    cbn [app] in Hread |- *. rewrite <- !app_assoc. cbn [app].
    rewrite Hread.
    assert (H1 : JSON.digits_value ("0"%char :: zeros ++ d :: ds) = s).
    { change ("0"%char :: zeros ++ d :: ds)
        with (List.repeat "0"%char (S (Z.to_nat (- n))) ++ d :: ds).
      rewrite digits_value_app, digits_value_zeros, Hval. lia. }
    assert (H2 : 0 - Z.of_nat (List.length (zeros ++ d :: ds)) = j).
    { rewrite length_app. unfold zeros. rewrite repeat_length.
      unfold n, k in *. cbn [List.length] in *. lia. }
    now rewrite H1, H2. }
  (* exponent notation *)
  assert (Hn1 : n - 1 <> 0).
  { apply andb_false_iff in C2. apply andb_false_iff in C3.
    destruct C2 as [C2 | C2], C3 as [C3 | C3];
      rewrite ?Z.ltb_ge, ?Z.leb_gt in *; lia. }
  assert (Hone : forall tl, match tl with [] => True | c :: _ => is_digit c = false end ->
                 JSON.read_digits (d :: tl) = ([d], tl)).
  { intros tl Htl. apply (read_digits_prefix [d] tl); [repeat constructor; exact Hdd | exact Htl]. }
  destruct ds as [|f1 fs].
  - cbn [app]. rewrite Hsign, (Hone ("e"%char :: _) not_digit_e).
    rewrite Hd. cbn [andb].
    cbn [JSON.read_fraction]. change (ascii_code "e" =? 46) with false. cbv iota.
    rewrite (read_exponent_some (n - 1) rest Hn1 Hrest).
    f_equal. f_equal. rewrite app_nil_r, Hval. f_equal.
    unfold n, k. cbn [List.length]. lia.
  - cbn [app]. rewrite Hsign.
    rewrite <- app_assoc. cbn [app]. rewrite (Hone ("."%char :: _) not_digit_point).
    rewrite Hd. cbn [andb].
    change (f1 :: fs ++ "e"%char :: ?x) with ((f1 :: fs) ++ "e"%char :: x).
    rewrite (read_fraction_some (f1 :: fs) ("e"%char :: _));
      [| discriminate | now inversion Hdig | exact not_digit_e].
    rewrite (read_exponent_some (n - 1) rest Hn1 Hrest).
    f_equal. f_equal. cbn [app]. rewrite Hval. f_equal.
    unfold n, k. cbn [List.length]. lia.
Qed.

(** ** Number::toString read back *)

Lemma nearest_finite_sign (b : bool) (P Q : Z) (m : positive) (e : Z) :
  Double.nearest false P Q = SpecFloat.S754_finite false m e ->
  Double.nearest b P Q = SpecFloat.S754_finite b m e.
Proof.
  unfold Double.nearest. destruct (P <=? 0); [discriminate |].
  match goal with |- context [let '(_, _) := ?t in _] => destruct t as [m' e'] end.
  destruct m' as [|m'|m']; try discriminate.
  destruct (e' <=? 971); [| discriminate].
  intros H. injection H as -> ->. reflexivity.
Qed.

Lemma of_decimal_finite_sign (b : bool) (s j : Z) (m : positive) (e : Z) :
  Double.of_decimal false s j = SpecFloat.S754_finite false m e ->
  Double.of_decimal b s j = SpecFloat.S754_finite b m e.
Proof. unfold Double.of_decimal. destruct (0 <=? j); apply nearest_finite_sign. Qed.

Lemma strip_zeros_positive (fuel : nat) (s j : Z) :
  0 < s -> 0 < fst (NumberToString.strip_zeros fuel s j).
Proof.
  revert s j. induction fuel as [|fuel IH]; intros s j Hs; cbn [NumberToString.strip_zeros];
    [exact Hs |].
  destruct ((s mod 10 =? 0) && negb (s =? 0)) eqn:E; [| exact Hs].
  apply andb_true_iff in E as [E _]. apply Z.eqb_eq in E.
  apply IH. pose proof (Z.div_mod s 10 ltac:(lia)). lia.
Qed.

Lemma candidates_positive (P Q n k : Z) (c : Z * Z) :
  In c (NumberToString.candidates P Q n k) -> 0 < fst c.
Proof.
  unfold NumberToString.candidates.
  destruct (if 0 <=? k - n then _ else _) as [A B].
  intros Hin. apply in_map_iff in Hin as (s & <- & Hin).
  apply filter_In in Hin as [_ Hs]. apply Z.ltb_lt in Hs.
  now apply strip_zeros_positive.
Qed.

Lemma shortest_from_sound (fuel : nat) (k : Z) (x : binary64) (P Q n : Z) (c : Z * Z) :
  NumberToString.shortest_from fuel k x P Q n = Some c ->
  0 < fst c /\ Double.of_decimal false (fst c) (snd c) = x.
Proof.
  revert k. induction fuel as [|fuel IH]; intros k; cbn [NumberToString.shortest_from];
    [discriminate |].
  destruct (List.find _ (NumberToString.candidates P Q n k)) as [c'|] eqn:Hfind.
  - intros H. injection H as <-. apply find_some in Hfind as [Hin Hc].
    split; [now apply (candidates_positive P Q n k) | now apply bool_decide_eq_true in Hc].
  - apply IH.
Qed.

Lemma digits_of_reads (m : positive) (e : Z) :
  Double.is_binary64 (SpecFloat.S754_finite false m e) = true ->
  0 < fst (NumberToString.digits_of m e)
  /\ Double.of_decimal false (fst (NumberToString.digits_of m e))
                             (snd (NumberToString.digits_of m e))
     = SpecFloat.S754_finite false m e.
Proof.
  intros Hvalid. unfold NumberToString.digits_of.
  destruct (0 <=? e) eqn:He.
  - apply Z.leb_le in He.
    destruct (NumberToString.shortest_from 17 1 _ _ _ _) as [c|] eqn:Hs.
    + exact (shortest_from_sound _ _ _ _ _ _ _ Hs).
    + cbn [fst snd].
      assert (0 < 2 ^ e) by (apply Z.pow_pos_nonneg; lia).
      split; [lia |].
      unfold Double.of_decimal. cbn [Z.leb Z.compare]. rewrite Z.pow_0_r.
      apply nearest_exact; [lia | exact Hvalid |].
      unfold is_value. rewrite (proj2 (Z.leb_le 0 e)) by lia. ring.
  - apply Z.leb_gt in He.
    destruct (NumberToString.shortest_from 17 1 _ _ _ _) as [c|] eqn:Hs.
    + exact (shortest_from_sound _ _ _ _ _ _ _ Hs).
    + cbn [fst snd].
      assert (0 < 5 ^ (- e)) by (apply Z.pow_pos_nonneg; lia).
      split; [lia |].
      unfold Double.of_decimal. rewrite (proj2 (Z.leb_gt 0 e)) by lia.
      apply nearest_exact; [apply Z.pow_pos_nonneg; lia | exact Hvalid |].
      unfold is_value. rewrite (proj2 (Z.leb_gt 0 e)) by lia.
      change 10 with (2 * 5). rewrite Z.pow_mul_l. ring.
Qed.

(** [JSON.parse] of the text of a finite binary64 value is the value (a
    negative zero is written as [0] and read as zero). *)
Lemma number_reads_back (x : binary64) (rest : list ascii) :
  Double.is_binary64 x = true -> Double.finite x = true -> ends_number rest ->
  JSON.read_double (NumberToString.apply x ++ rest)
  = Some (match x with SpecFloat.S754_zero _ => Double.zero | _ => x end, rest).
Proof.
  intros Hvalid Hfin Hrest. destruct x as [s | s | | s m e]; try discriminate Hfin.
  - cbn [NumberToString.apply]. change (chars "0") with ["0"%char]. cbn [app].
    unfold JSON.read_double. change (ascii_code "0" =? 45) with false. cbv iota.
    assert (Hbody : JSON.read_digits ("0"%char :: rest) = (["0"%char], rest)).
    { apply (read_digits_prefix ["0"%char] rest); [repeat constructor | now apply ends_number_digit]. }
    rewrite Hbody. cbv iota beta.
    change (ascii_code "0" =? 48) with true. cbn [andb].
    rewrite (read_fraction_none rest Hrest), (read_exponent_none rest Hrest).
    reflexivity.
  - cbn [NumberToString.apply].
    assert (Hv : Double.is_binary64 (SpecFloat.S754_finite false m e) = true) by exact Hvalid.
    destruct (digits_of_reads m e Hv) as [Hpos Hback].
    destruct (NumberToString.digits_of m e) as [d j]. cbn [fst snd] in *.
    rewrite <- app_assoc, (read_formatted s d j rest Hpos Hrest).
    now rewrite (of_decimal_finite_sign s d j m e Hback).
Qed.

(** ** Integers below 2^53 *)

Lemma read_plain (negative : bool) (s : Z) (rest : list ascii) :
  0 < s -> ends_number rest ->
  JSON.read_double ((if negative then ["-"%char] else []) ++ NumberToString.decimal s ++ rest)
  = Some (Double.of_decimal negative s 0, rest).
Proof.
  intros Hs Hrest.
  destruct (decimal_facts s Hs) as (d & ds & Hdec & Hdig & Hd & Hval).
  assert (Hdd : is_digit d = true) by (inversion Hdig; assumption).
  assert (Hd45 : (ascii_code d =? 45) = false).
  { unfold is_digit in Hdd. apply andb_true_iff in Hdd as [H1 _].
    apply Z.leb_le in H1. apply Z.eqb_neq. lia. }
  assert (Hbody : JSON.read_digits (d :: ds ++ rest) = (d :: ds, rest)).
  { apply (read_digits_prefix (d :: ds) rest Hdig), ends_number_digit, Hrest. }
  rewrite Hdec.
  destruct negative; unfold JSON.read_double; cbn [app];
    [change (ascii_code "-" =? 45) with true | rewrite Hd45];
    cbv iota; rewrite Hbody; cbv iota beta; rewrite Hd; cbn [andb];
    rewrite (read_fraction_none rest Hrest), (read_exponent_none rest Hrest);
    rewrite app_nil_r, Hval; reflexivity.
Qed.

Lemma read_integer_text (z : Z) (rest : list ascii) :
  ends_number rest ->
  JSON.read_double (int_chars (Z.to_int z) ++ rest)
  = Some (Double.of_decimal (z <? 0) (Z.abs z) 0, rest).
Proof.
  intros Hrest. destruct z as [|p|p].
  - cbn [Z.to_int int_chars]. change (uint_chars zero) with ["0"%char]. cbn [app].
    assert (Hbody : JSON.read_digits ("0"%char :: rest) = (["0"%char], rest)).
    { apply (read_digits_prefix ["0"%char] rest); [repeat constructor | now apply ends_number_digit]. }
    unfold JSON.read_double. change (ascii_code "0" =? 45) with false. cbv iota.
    rewrite Hbody. cbv iota beta. change (ascii_code "0" =? 48) with true. cbn [andb].
    rewrite (read_fraction_none rest Hrest), (read_exponent_none rest Hrest). reflexivity.
  - exact (read_plain false (Zpos p) rest eq_refl Hrest).
  - exact (read_plain true (Zpos p) rest eq_refl Hrest).
Qed.

Lemma log2_shift (s k : Z) : 0 < s -> 0 <= k -> Z.log2 (s * 2 ^ k) = Z.log2 s + k.
Proof. intros Hs Hk. rewrite Z.log2_mul_pow2 by lia. lia. Qed.

(** An integer below 2^53 in magnitude is a binary64 value. *)
Lemma of_decimal_integer (z : Z) :
  Z.abs z < 2 ^ 53 ->
  Double.integral (Double.of_decimal (z <? 0) (Z.abs z) 0) = Some z
  /\ Double.of_decimal (z <? 0) (Z.abs z) 0 <> SpecFloat.S754_nan
  /\ Double.is_binary64 (Double.of_decimal (z <? 0) (Z.abs z) 0) = true.
Proof.
  intros Hsafe. unfold Double.of_decimal. cbn [Z.leb Z.compare]. rewrite Z.pow_0_r, Z.mul_1_r.
  destruct (Z.eq_dec z 0) as [-> | Hz]; [repeat split; discriminate |].
  set (s := Z.abs z). assert (Hs : 0 < s) by (unfold s; lia).
  destruct (Z.log2_spec s Hs) as [Hl1 Hl2].
  pose proof (Z.log2_nonneg s) as Hl0.
  assert (Hl : Z.log2 s <= 52).
  { destruct (Z_lt_le_dec 52 (Z.log2 s)) as [Hgt | Hle]; [exfalso | exact Hle].
    assert (2 ^ 53 <= 2 ^ Z.log2 s) by (apply Z.pow_le_mono_r; lia). unfold s in *. lia. }
  assert (Hk : exists k, k = 52 - Z.log2 s) by eauto.
  destruct Hk as [k Hk]. assert (Hk0 : 0 <= k) by lia.
  assert (Hpow : 0 < 2 ^ k) by (apply Z.pow_pos_nonneg; lia).
  set (m := Z.to_pos (s * 2 ^ k)).
  assert (Hm : Zpos m = s * 2 ^ k) by (unfold m; rewrite Z2Pos.id; nia).
  clearbody m.
  assert (Hlm : Z.log2 (Zpos m) = 52) by (rewrite Hm, log2_shift by lia; lia).
  assert (Hvalid : Double.is_binary64 (SpecFloat.S754_finite (z <? 0) m (- k)) = true).
  { unfold Double.is_binary64, SpecFloat.valid_binary, SpecFloat.bounded,
      SpecFloat.canonical_mantissa, SpecFloat.fexp, SpecFloat.emin.
    rewrite digits2_log2, Hlm. apply andb_true_iff. split.
    - apply Z.eqb_eq. lia.
    - apply Z.leb_le. lia. }
  assert (Hsign : (if z <? 0 then -1 else 1) * s = z).
  { unfold s. destruct (z <? 0) eqn:Hneg;
      [apply Z.ltb_lt in Hneg | apply Z.ltb_ge in Hneg]; lia. }
  destruct (Z.eq_dec k 0) as [-> | Hkne].
  - rewrite Z.pow_0_r, Z.mul_1_r in Hm. cbn [Z.opp] in *.
    assert (Hnear : Double.nearest (z <? 0) s 1 = SpecFloat.S754_finite (z <? 0) m 0).
    { apply nearest_exact; [lia | exact Hvalid |].
      unfold is_value. cbn [Z.leb Z.compare]. rewrite Z.pow_0_r. lia. }
    rewrite Hnear. split; [| split; [discriminate | exact Hvalid]].
    unfold Double.integral. cbn [Z.leb Z.compare]. rewrite Z.pow_0_r, Z.mul_1_r, Hm.
    now rewrite Hsign.
  - assert (Hneg : (0 <=? - k) = false) by (apply Z.leb_gt; lia).
    assert (Hnear : Double.nearest (z <? 0) s 1 = SpecFloat.S754_finite (z <? 0) m (- k)).
    { apply nearest_exact; [lia | exact Hvalid |].
      unfold is_value. rewrite Hneg, Z.opp_involutive, Hm. ring. }
    rewrite Hnear. split; [| split; [discriminate | exact Hvalid]].
    unfold Double.integral. rewrite Hneg, Z.opp_involutive, Hm, Z.mod_mul, Z.div_mul by lia.
    cbn [Z.eqb]. now rewrite Hsign.
Qed.

(** The digits stand for a positive integer, and what is formatted starts
    with a digit. *)
Lemma digits_of_positive (m : positive) (e : Z) : 0 < fst (NumberToString.digits_of m e).
Proof.
  unfold NumberToString.digits_of.
  destruct (0 <=? e) eqn:He;
    destruct (NumberToString.shortest_from 17 1 _ _ _ _) as [c|] eqn:Hs;
    try exact (proj1 (shortest_from_sound _ _ _ _ _ _ _ Hs)); cbn [fst].
  - apply Z.leb_le in He. assert (0 < 2 ^ e) by (apply Z.pow_pos_nonneg; lia). lia.
  - apply Z.leb_gt in He. assert (0 < 5 ^ (- e)) by (apply Z.pow_pos_nonneg; lia). lia.
Qed.

Lemma format_head (s j : Z) :
  0 < s -> exists c tl, NumberToString.format s j = c :: tl /\ is_digit c = true.
Proof.
  intros Hs. destruct (decimal_facts s Hs) as (d & ds & Hdec & Hdig & _ & _).
  assert (Hdd : is_digit d = true) by (inversion Hdig; assumption).
  unfold NumberToString.format. rewrite Hdec.
  set (k := Z.of_nat (List.length (d :: ds))). set (n := k + j).
  destruct ((k <=? n) && (n <=? 21)); [cbn [app]; eauto |].
  destruct ((0 <? n) && (n <=? 21)) eqn:C2.
  { apply andb_true_iff in C2 as [C2 _]. apply Z.ltb_lt in C2.
    destruct (Z.to_nat n) eqn:Hn; [lia |]. cbn [take app]. eauto. }
  destruct ((-6 <? n) && (n <=? 0)); [eexists; eexists; split; reflexivity |].
  destruct ds; eauto.
Qed.

(** ** JSON: numbers *)

Lemma delimited_ends_number (rest : list ascii) : delimited rest -> ends_number rest.
Proof.
  destruct rest as [|c rest]; [exact id |]. cbn [delimited ends_number]. unfold is_digit.
  intros [H | [H | H]]; rewrite H; repeat split; discriminate.
Qed.

Lemma digit_facts (c : ascii) :
  is_digit c = true ->
  is_space c = false /\ (ascii_code c =? 45) = false /\ (ascii_code c =? 93) = false
  /\ (is_digit c || (ascii_code c =? 45)) = true.
Proof.
  destruct c as [[] [] [] [] [] [] [] []]; intros H; try discriminate H; repeat split.
Qed.

Lemma read_value_number (f : nat) (c : ascii) (tl : list ascii) :
  (is_digit c || (ascii_code c =? 45)) = true ->
  JSON.read_value (S f) (c :: tl) = JSON.read_number (c :: tl).
Proof.
  destruct c as [[] [] [] [] [] [] [] []]; intros H; try discriminate H; reflexivity.
Qed.

Lemma js_number_zero (s : bool) : js_number (SpecFloat.S754_zero s) = VNum (Num 0).
Proof. reflexivity. Qed.

Lemma js_number_integer (x : binary64) (z : Z) :
  x <> SpecFloat.S754_nan -> Double.integral x = Some z -> Z.abs z < 2 ^ 53 ->
  js_number x = VNum (Num z).
Proof.
  intros Hnan Hint Hsafe. unfold js_number, safe_integer. rewrite Hint.
  rewrite (proj2 (Z.ltb_lt _ _) Hsafe). destruct x; congruence.
Qed.

Lemma js_number_double (x y : binary64) : js_number x = VDouble y -> y = x.
Proof.
  unfold js_number. destruct x; try discriminate; destruct (safe_integer _);
    try discriminate; congruence.
Qed.

Lemma proper_js_number (x : binary64) :
  Double.is_binary64 x = true -> proper (js_number x) = true.
Proof.
  intros Hvalid.
  assert (Hcases : (exists n, js_number x = VNum n /\ proper (VNum n) = true)
                   \/ js_number x = VDouble x).
  { unfold js_number, safe_integer.
    destruct x as [s | s | | s m e]; [| | left; eexists; split; reflexivity |];
      (destruct (Double.integral _) as [z|]; [| now right]);
      (destruct (Z.abs z <? 2 ^ 53) eqn:Hz; [| now right]);
      left; eexists; (split; [reflexivity | exact Hz]). }
  destruct Hcases as [(n & -> & Hn) | Hd]; [exact Hn |].
  rewrite Hd. cbn [proper]. now rewrite Hvalid, Hd.
Qed.

Lemma int_chars_head (z : Z) :
  exists c tl, int_chars (Z.to_int z) = c :: tl
               /\ (is_digit c || (ascii_code c =? 45)) = true.
Proof.
  destruct z as [|p|p]; cbn [Z.to_int int_chars].
  - eexists; eexists; split; reflexivity.
  - destruct (decimal_facts (Zpos p) eq_refl) as (d & ds & Hdec & Hdig & _).
    unfold NumberToString.decimal in Hdec. cbn [Z.to_pos] in Hdec. rewrite Hdec.
    exists d, ds. split; [reflexivity |]. inversion Hdig as [|? ? Hd _]. now rewrite Hd.
  - eexists; eexists; split; reflexivity.
Qed.

(** An integer below 2^53 is read back from its digits. *)
Lemma read_number_written (z : Z) (f : nat) (rest : list ascii) :
  Z.abs z < 2 ^ 53 -> delimited rest ->
  JSON.read_value (S f) (JSON.number_chars (Num z) ++ rest) = Some (VNum (Num z), rest).
Proof.
  intros Hsafe Hrest. apply delimited_ends_number in Hrest.
  unfold JSON.number_chars.
  destruct (int_chars_head z) as (c & tl & Hc & Hstart).
  pose proof (read_integer_text z rest Hrest) as Hread.
  rewrite Hc in *. cbn [app] in *. rewrite (read_value_number f c _ Hstart).
  unfold JSON.read_number. rewrite Hread.
  destruct (of_decimal_integer z Hsafe) as (Hint & Hnan & _).
  now rewrite (js_number_integer _ z Hnan Hint Hsafe).
Qed.

Lemma apply_head (x : binary64) :
  Double.finite x = true ->
  exists c tl, NumberToString.apply x = c :: tl
               /\ (is_digit c || (ascii_code c =? 45)) = true.
Proof.
  destruct x as [s | s | | s m e]; try discriminate; intros _; cbn [NumberToString.apply].
  - eexists; eexists; split; reflexivity.
  - pose proof (digits_of_positive m e) as Hpos.
    destruct (NumberToString.digits_of m e) as [d j]. cbn [fst] in Hpos.
    destruct (format_head d j Hpos) as (c & tl & -> & Hc).
    destruct s; cbn [app]; eexists; eexists; (split; [reflexivity |]);
      [reflexivity | now rewrite Hc].
Qed.

(** A binary64 value is read back from its text; one that is not finite
    was written as [null]. *)
Lemma read_double_written (x : binary64) (f : nat) (rest : list ascii) :
  Double.is_binary64 x = true -> delimited rest ->
  JSON.read_value (S f) (JSON.double_chars x ++ rest) = Some (JSON.norm (VDouble x), rest).
Proof.
  intros Hvalid Hrest. unfold JSON.double_chars. cbn [JSON.norm].
  destruct (Double.finite x) eqn:Hfin; [| reflexivity].
  apply delimited_ends_number in Hrest.
  destruct (apply_head x Hfin) as (c & tl & Hc & Hstart).
  pose proof (number_reads_back x rest Hvalid Hfin Hrest) as Hread.
  rewrite Hc in *. cbn [app] in *. rewrite (read_value_number f c _ Hstart).
  unfold JSON.read_number. rewrite Hread.
  destruct x; try discriminate Hfin; reflexivity.
Qed.

(** Every written value starts with a character that is neither white
    space nor a closing bracket. *)
Lemma start_facts (c : ascii) :
  (is_digit c || (ascii_code c =? 45)) = true ->
  is_space c = false /\ (ascii_code c =? 93) = false.
Proof.
  destruct c as [[] [] [] [] [] [] [] []]; intros H; try discriminate H; split; reflexivity.
Qed.

Lemma write_head (v : value) :
  exists c tl, JSON.write v = c :: tl /\ is_space c = false /\ (ascii_code c =? 93) = false.
Proof.
  destruct v as [| | [|] | [|z] | x | s | t | items | props];
    try (eexists; eexists; split; [reflexivity | split; reflexivity]).
  - change (JSON.write (VNum (Num z))) with (int_chars (Z.to_int z)).
    destruct (int_chars_head z) as (c & tl & -> & Hc).
    destruct (start_facts c Hc). eauto.
  - change (JSON.write (VDouble x)) with (JSON.double_chars x). unfold JSON.double_chars.
    destruct (Double.finite x) eqn:Hfin;
      [| eexists; eexists; split; [reflexivity | split; reflexivity]].
    destruct (apply_head x Hfin) as (c & tl & -> & Hc).
    destruct (start_facts c Hc). eauto.
Qed.

Lemma skip_ws_head (c : ascii) (tl : list ascii) :
  is_space c = false -> JSON.skip_ws (c :: tl) = c :: tl.
Proof. intros H. cbn [JSON.skip_ws]. now rewrite H. Qed.

Lemma skip_ws_written (v : value) (rest : list ascii) :
  JSON.skip_ws (JSON.write v ++ rest) = JSON.write v ++ rest.
Proof.
  destruct (write_head v) as (c & tl & -> & Hs & _). cbn [app]. now apply skip_ws_head.
Qed.

Lemma skip_ws_delimited (rest : list ascii) : delimited rest -> JSON.skip_ws rest = rest.
Proof.
  destruct rest as [|c rest]; [reflexivity |]. cbn [delimited]. intros H.
  apply skip_ws_head. unfold is_space. cbv zeta.
  destruct H as [H | [H | H]]; rewrite H; reflexivity.
Qed.

(** The dispatch of [read_value], [read_elements] and [read_members], one
    equation per case. *)
Lemma read_value_string (f : nat) (tl : list ascii) :
  JSON.read_value (S f) (JSON.dquote :: tl)
  = match JSON.read_string tl with
    | Some (str, r) => Some (VStr (text str), r)
    | None => None
    end.
Proof. reflexivity. Qed.

Lemma read_value_array (f : nat) (tl : list ascii) :
  JSON.read_value (S f) ("["%char :: tl)
  = match JSON.skip_ws tl with
    | c' :: r => if ascii_code c' =? 93 then Some (VArr [], r)
                 else match JSON.read_elements f tl with
                      | Some (l, r') => Some (VArr l, r')
                      | None => None
                      end
    | [] => None
    end.
Proof. reflexivity. Qed.

Lemma read_value_object (f : nat) (tl : list ascii) :
  JSON.read_value (S f) ("{"%char :: tl)
  = match JSON.skip_ws tl with
    | c' :: r => if ascii_code c' =? 125 then Some (VObj [], r)
                 else match JSON.read_members f tl with
                      | Some (l, r') => Some (VObj l, r')
                      | None => None
                      end
    | [] => None
    end.
Proof. reflexivity. Qed.

Lemma read_elements_step (f : nat) (s : list ascii) :
  JSON.read_elements (S f) s
  = match JSON.read_value f s with
    | Some (v, r) =>
        match JSON.skip_ws r with
        | c :: r' =>
            if ascii_code c =? 44 then
              match JSON.read_elements f r' with
              | Some (l, r'') => Some (v :: l, r'')
              | None => None
              end
            else if ascii_code c =? 93 then Some ([v], r')
            else None
        | [] => None
        end
    | None => None
    end.
Proof. reflexivity. Qed.

Lemma read_members_step (f : nat) (tl : list ascii) :
  JSON.read_members (S f) (JSON.dquote :: tl)
  = match JSON.read_string tl with
    | Some (k, r) =>
        match JSON.skip_ws r with
        | colon :: r1 =>
            if ascii_code colon =? 58 then
              match JSON.read_value f r1 with
              | Some (v, r2) =>
                  match JSON.skip_ws r2 with
                  | c :: r3 =>
                      if ascii_code c =? 44 then
                        match JSON.read_members f r3 with
                        | Some (l, r4) => Some ((text k, v) :: l, r4)
                        | None => None
                        end
                      else if ascii_code c =? 125 then Some ([(text k, v)], r3)
                      else None
                  | [] => None
                  end
              | None => None
              end
            else None
        | [] => None
        end
    | None => None
    end.
Proof. reflexivity. Qed.

Lemma undefined_or_not (x : value) : x = VUndefined \/ x <> VUndefined.
Proof. destruct x; (now left) || (right; discriminate). Qed.

Lemma members_text_defined (first : bool) (k : string) (x : value) (l : list (string * value)) :
  x <> VUndefined ->
  members_text first ((k, x) :: l)
  = (if first then [] else [","%char])
    ++ JSON.quote k ++ ":"%char :: JSON.write x ++ members_text false l.
Proof. destruct x; intros H; [exfalso; apply H; reflexivity | reflexivity ..]. Qed.

Lemma norm_members_defined (k : string) (x : value) (l : list (string * value)) :
  x <> VUndefined -> norm_members ((k, x) :: l) = (k, JSON.norm x) :: norm_members l.
Proof. destruct x; intros H; [exfalso; apply H; reflexivity | reflexivity ..]. Qed.

Lemma members_text_true_head (l : list (string * value)) :
  members_text true l = [] \/ exists tl, members_text true l = JSON.dquote :: tl.
Proof.
  induction l as [|[k x] l IH]; [now left |].
  destruct (undefined_or_not x) as [-> | Hx]; [exact IH |].
  right. rewrite (members_text_defined _ _ _ _ Hx). unfold JSON.quote. cbn [app]. eauto.
Qed.

Lemma members_text_false (l : list (string * value)) :
  members_text false l
  = match members_text true l with [] => [] | _ :: _ => ","%char :: members_text true l end.
Proof.
  induction l as [|[k x] l IH]; [reflexivity |].
  destruct (undefined_or_not x) as [-> | Hx]; [exact IH |].
  rewrite !(members_text_defined _ _ _ _ Hx). unfold JSON.quote. reflexivity.
Qed.

Lemma members_text_true_nil (l : list (string * value)) :
  members_text true l = [] -> norm_members l = [].
Proof.
  induction l as [|[k x] l IH]; [reflexivity |].
  destruct (undefined_or_not x) as [-> | Hx]; [exact IH |].
  rewrite (members_text_defined _ _ _ _ Hx). unfold JSON.quote. discriminate.
Qed.

Lemma read_elements_written (items : list value) :
  items <> [] -> Forall reads_back items ->
  forall fuel rest,
    delimited rest -> (List.length (elements_text items) + 1 <= fuel)%nat ->
    JSON.read_elements fuel (elements_text items ++ "]"%char :: rest)
    = Some (map JSON.norm items, rest).
Proof.
  induction items as [|x l IH]; [congruence | intros _ Hall fuel rest Hrest Hfuel].
  apply Forall_cons in Hall as [Hx Hl].
  destruct fuel as [|f]; [lia |]. rewrite read_elements_step.
  destruct l as [|y l'].
  - cbn [elements_text] in *. rewrite app_nil_r in *.
    rewrite (Hx f ("]"%char :: rest)); [reflexivity | right; left; reflexivity | lia].
  - change (elements_text (x :: y :: l'))
      with (JSON.write x ++ ","%char :: elements_text (y :: l')) in *.
    rewrite length_app in Hfuel. cbn [List.length] in Hfuel.
    rewrite <- app_assoc. cbn [app].
    rewrite (Hx f); [| left; reflexivity | lia].
    rewrite skip_ws_head by reflexivity. change (ascii_code "," =? 44) with true. cbv iota.
    rewrite (IH ltac:(discriminate) Hl f rest Hrest) by lia. reflexivity.
Qed.

Lemma read_members_written (props : list (string * value)) :
  Forall (fun kv => reads_back (snd kv)) props ->
  forall fuel rest,
    delimited rest -> (List.length (members_text true props) + 1 <= fuel)%nat ->
    members_text true props <> [] ->
    JSON.read_members fuel (members_text true props ++ "}"%char :: rest)
    = Some (norm_members props, rest).
Proof.
  induction props as [|[k x] l IH]; intros Hall fuel rest Hrest Hfuel Hne;
    [exfalso; apply Hne; reflexivity |].
  apply Forall_cons in Hall as [Hx Hl]. cbn [snd] in Hx.
  destruct (undefined_or_not x) as [-> | Hdef]; [exact (IH Hl fuel rest Hrest Hfuel Hne) |].
  rewrite (members_text_defined _ _ _ _ Hdef) in *.
  rewrite (norm_members_defined _ _ _ Hdef). cbn [app] in *.
  rewrite length_app in Hfuel. cbn [List.length] in Hfuel. rewrite length_app in Hfuel.
  destruct fuel as [|f]; [lia |].
  rewrite <- app_assoc. cbn [app]. rewrite <- app_assoc.
  rewrite quote_app, read_members_step, read_string_quoted.
  rewrite skip_ws_head by reflexivity. change (ascii_code ":" =? 58) with true. cbv iota.
  rewrite text_chars, members_text_false in *.
  destruct (members_text true l) as [|c tl] eqn:Hl'.
  - cbn [app]. rewrite (Hx f); [| right; right; reflexivity | lia].
    rewrite (members_text_true_nil l Hl'). reflexivity.
  - assert (Hfl : (List.length (c :: tl) + 1 <= f)%nat)
      by (cbn [List.length] in *; unfold JSON.quote in Hfuel; cbn [List.length] in Hfuel; lia).
    change ((","%char :: c :: tl) ++ "}"%char :: rest)
      with (","%char :: (c :: tl) ++ "}"%char :: rest).
    rewrite (Hx f); [| left; reflexivity | cbn [List.length] in *; lia].
    rewrite skip_ws_head by reflexivity. change (ascii_code "," =? 44) with true. cbv iota.
    rewrite (IH Hl f rest Hrest Hfl ltac:(discriminate)). reflexivity.
Qed.

Lemma proper_items (P : value -> Prop) (items : list value) :
  Forall (fun x => proper x = true -> P x) items -> forallb proper items = true ->
  Forall P items.
Proof.
  intros Hall Hp. rewrite forallb_forall in Hp. rewrite List.Forall_forall in *.
  intros x Hx. apply (Hall x Hx), Hp, Hx.
Qed.

Lemma proper_props (P : value -> Prop) (props : list (string * value)) :
  Forall (fun kv => proper (snd kv) = true -> P (snd kv)) props ->
  forallb (fun kv => proper (snd kv)) props = true ->
  Forall (fun kv => P (snd kv)) props.
Proof.
  intros Hall Hp. rewrite forallb_forall in Hp. rewrite List.Forall_forall in *.
  intros x Hx. apply (Hall x Hx), Hp, Hx.
Qed.

(** Reading a written value gives its normal form and leaves what follows. *)
Lemma read_written (v : value) : proper v = true -> reads_back v.
Proof.
  induction v as [| | b | n | x | s | t | items IH | props IH] using value_ind_nested;
    intros Hproper fuel rest Hrest Hfuel.
  - destruct fuel as [|f]; [cbn in Hfuel; lia | reflexivity].
  - destruct fuel as [|f]; [cbn in Hfuel; lia | reflexivity].
  - destruct fuel as [|f]; [destruct b; cbn in Hfuel; lia | destruct b; reflexivity].
  - destruct n as [|z].
    + destruct fuel as [|f]; [cbn in Hfuel; lia | reflexivity].
    + destruct fuel as [|f].
      * destruct (write_head (VNum (Num z))) as (c & tl & Hc & _).
        rewrite Hc in Hfuel. cbn in Hfuel. lia.
      * cbn [proper] in Hproper. apply Z.ltb_lt in Hproper.
        apply (read_number_written z f rest Hproper Hrest).
  - destruct fuel as [|f].
    + destruct (write_head (VDouble x)) as (c & tl & Hc & _).
      rewrite Hc in Hfuel. cbn in Hfuel. lia.
    + cbn [proper] in Hproper. apply andb_true_iff in Hproper as [Hvalid _].
      apply (read_double_written x f rest Hvalid Hrest).
  - destruct fuel as [|f]; [cbn in Hfuel; lia |].
    change (JSON.write (VStr s)) with (JSON.quote s).
    rewrite quote_app, read_value_string, read_string_quoted, text_chars. reflexivity.
  - destruct fuel as [|f]; [cbn in Hfuel; lia |].
    change (JSON.write (VDate t)) with (JSON.quote (DateOps.toISOString t)).
    rewrite quote_app, read_value_string, read_string_quoted, text_chars. reflexivity.
  - apply (proper_items reads_back) in IH; [| exact Hproper].
    rewrite write_array in *. cbn [List.length app] in *.
    rewrite length_app in Hfuel. cbn [List.length] in Hfuel.
    destruct fuel as [|f]; [lia |].
    rewrite <- app_assoc. cbn [app]. rewrite read_value_array.
    destruct items as [|x l]; [reflexivity |].
    pose proof (read_elements_written (x :: l) ltac:(discriminate) IH f rest Hrest
                  ltac:(lia)) as Hread.
    change (elements_text (x :: l))
      with (JSON.write x ++ match l with [] => [] | _ :: _ => ","%char :: elements_text l end)
      in *.
    rewrite <- app_assoc in *. rewrite skip_ws_written.
    destruct (write_head x) as (c & tl & Hc & _ & H93). rewrite Hc in *. cbn [app] in *.
    rewrite H93, Hread. reflexivity.
  - apply (proper_props reads_back) in IH; [| exact Hproper].
    rewrite write_object, norm_object in *. cbn [List.length app] in *.
    rewrite length_app in Hfuel. cbn [List.length] in Hfuel.
    destruct fuel as [|f]; [lia |].
    rewrite <- app_assoc. cbn [app]. rewrite read_value_object.
    destruct (members_text_true_head props) as [Hnil | (tl & Htl)].
    + rewrite Hnil, (members_text_true_nil props Hnil). reflexivity.
    + pose proof (read_members_written props IH f rest Hrest ltac:(lia)
                    ltac:(rewrite Htl; discriminate)) as Hread.
      rewrite Htl in *. cbn [app] in *.
      rewrite skip_ws_head by reflexivity.
      change (ascii_code JSON.dquote =? 125) with false. cbv iota.
      rewrite Hread. reflexivity.
Qed.

Lemma parse_written (v : value) :
  proper v = true -> JSON.parse (text (JSON.write v)) = Some (JSON.norm v).
Proof.
  intros Hproper. unfold JSON.parse. rewrite chars_text.
  rewrite <- (app_nil_r (JSON.write v)) at 2.
  rewrite (read_written v Hproper (S (List.length (JSON.write v))) []);
    [reflexivity | exact I | lia].
Qed.

Lemma js_number_defined (x : binary64) : js_number x <> VUndefined.
Proof. unfold js_number. destruct x; try discriminate; destruct (safe_integer _); discriminate. Qed.

Lemma norm_defined (x : value) : JSON.norm x <> VUndefined.
Proof.
  destruct x as [| | b | [|z] | x | s | t | items | props]; try discriminate.
  cbn [JSON.norm]. destruct (Double.finite x); [apply js_number_defined | discriminate].
Qed.

(** Writing the normal form writes the same text. *)
Lemma write_norm (v : value) : proper v = true -> JSON.write (JSON.norm v) = JSON.write v.
Proof.
  induction v as [| | b | n | x | s | t | items IH | props IH] using value_ind_nested;
    intros Hproper; try reflexivity.
  - destruct n; reflexivity.
  - cbn [proper] in Hproper. apply andb_true_iff in Hproper as [_ Hform].
    cbn [JSON.norm]. destruct (Double.finite x) eqn:Hfin.
    + destruct (js_number x) as [| | | | y | | | |] eqn:Hy; try discriminate Hform.
      now rewrite (js_number_double x y Hy).
    + cbn [JSON.write]. unfold JSON.double_chars. now rewrite Hfin.
  - apply (proper_items (fun x => JSON.write (JSON.norm x) = JSON.write x)) in IH;
      [| exact Hproper].
    change (JSON.norm (VArr items)) with (VArr (map JSON.norm items)).
    rewrite !write_array. do 2 f_equal.
    induction IH as [|x l Hx Hl IHl]; [reflexivity |].
    cbn [map elements_text]. rewrite Hx. f_equal.
    destruct l as [|y l']; [reflexivity |]. cbn [map]. cbn [map] in IHl.
    rewrite IHl; [reflexivity |].
    cbn [proper forallb] in Hproper |- *. now apply andb_true_iff in Hproper as [_ Hproper].
  - apply (proper_props (fun x => JSON.write (JSON.norm x) = JSON.write x)) in IH;
      [| exact Hproper].
    rewrite norm_object, !write_object. do 2 f_equal.
    generalize true. clear Hproper.
    induction IH as [|[k x] l Hx Hl IHl]; intros first; [reflexivity |].
    cbn [snd] in Hx.
    destruct (undefined_or_not x) as [-> | Hdef]; [apply IHl |].
    rewrite (norm_members_defined _ _ _ Hdef), (members_text_defined _ _ _ _ Hdef).
    rewrite members_text_defined by apply norm_defined.
    now rewrite Hx, IHl.
Qed.

(** ** The cache round trip *)

Lemma stringify_defined (v : value) :
  v <> VUndefined -> JSON.stringify v = Some (text (JSON.write v)).
Proof. destruct v; intros H; [exfalso; apply H; reflexivity | reflexivity ..]. Qed.

Lemma stringify_norm (v : value) :
  v <> VUndefined -> proper v = true -> JSON.stringify (JSON.norm v) = JSON.stringify v.
Proof.
  intros H Hproper. rewrite (stringify_defined v H), (stringify_defined _ (norm_defined v)).
  now rewrite write_norm.
Qed.

Lemma written_truthy (v : value) : string_truthy (Some (text (JSON.write v))) = true.
Proof. destruct (write_head v) as (c & tl & -> & _). reflexivity. Qed.

Lemma cached_stored {S} (key : string) (v : value) (ttl : Z) (w : World S) :
  v <> VUndefined -> proper v = true ->
  cached (redis (stored key v ttl w)) key = JSON.norm v.
Proof.
  intros H Hproper. unfold stored, cached. rewrite (stringify_defined v H). cbn [redis data].
  rewrite lookup_insert_eq. cbv beta iota.
  rewrite written_truthy, parse_written by exact Hproper. reflexivity.
Qed.

Lemma reachable_stored {S} (key : string) (v : value) (ttl : Z) (w : World S) :
  reachable (redis (stored key v ttl w)) = reachable (redis w).
Proof. unfold stored. destruct (JSON.stringify v); reflexivity. Qed.

(** Reads of the behaving store leave it as it is. *)
Lemma findWithFilters_reads (filters : ExpenseFilter.t) (c : Collection) :
  snd (ExpenseRepository.findWithFilters Mongo.driver filters c) = c.
Proof.
  unfold ExpenseRepository.findWithFilters; run. unfold Mongo.find_sorted.
  match goal with |- context [?a <? 0] => destruct (a <? 0) end; reflexivity.
Qed.

Lemma page_subset {A} (skip limit : Z) (l : list A) (x : A) :
  x ∈ Mongo.page skip limit l -> x ∈ l.
Proof.
  unfold Mongo.page. intros Hx.
  assert (Hd : x ∈ drop (Z.to_nat skip) l).
  { destruct (limit =? 0); [exact Hx |].
    apply elem_of_take in Hx as (i & Hi & _). eapply list_elem_of_lookup_2, Hi. }
  apply list_elem_of_lookup_1 in Hd as [i Hi]. rewrite lookup_drop in Hi.
  eapply list_elem_of_lookup_2, Hi.
Qed.

(** What the behaving store finds is among its documents, and no more
    numerous. *)
Lemma findWithFilters_found (filters : ExpenseFilter.t) (c c' : Collection)
    (found : list Expense * Z) :
  ExpenseRepository.findWithFilters Mongo.driver filters c = (inr found, c') ->
  (forall e, e ∈ fst found -> e ∈ docs c)
  /\ 0 <= snd found <= Z.of_nat (List.length (docs c)).
Proof.
  unfold ExpenseRepository.findWithFilters; run. unfold Mongo.find_sorted, Mongo.countDocuments.
  match goal with |- context [?a <? 0] => destruct (a <? 0) end; [discriminate |].
  intros H. injection H as <- _. cbn [fst snd]. split.
  - intros e He. apply page_subset in He.
    rewrite (sort_desc_perm _) in He.
    apply list_elem_of_In, filter_In in He as [He _]. now apply list_elem_of_In.
  - split; [lia |]. apply inj_le, filter_length_le.
Qed.

Lemma proper_response (e : Expense) :
  Double.is_binary64 (amount e) = true -> proper (transformExpenseToResponse e) = true.
Proof.
  intros Hvalid. unfold transformExpenseToResponse. cbn [proper forallb snd].
  rewrite (proper_js_number _ Hvalid). now destruct (description e).
Qed.

(** A listing of expenses whose amounts are binary64 values, with a total
    and paging parameters below 2^53, is a proper value. *)
Lemma proper_listing (queryParams : ExpenseQueryParams.t) (found : list Expense * Z) :
  Forall (fun e => Double.is_binary64 (amount e) = true) (fst found) ->
  Z.abs (snd found) < 2 ^ 53 ->
  proper (VNum (parsed_or (ExpenseQueryParams.page queryParams) "1")) = true ->
  proper (VNum (parsed_or (ExpenseQueryParams.limit queryParams) "20")) = true ->
  proper (listing queryParams found) = true.
Proof.
  intros Hamounts Htotal Hpage Hlimit. unfold listing.
  fold (parsed_or (ExpenseQueryParams.page queryParams) "1").
  fold (parsed_or (ExpenseQueryParams.limit queryParams) "20").
  cbn [proper forallb snd] in *. rewrite Hpage, Hlimit, (proj2 (Z.ltb_lt _ _) Htotal).
  rewrite !andb_true_r. apply forallb_forall. intros v Hv.
  apply in_map_iff in Hv as (e & <- & He).
  apply proper_response. rewrite List.Forall_forall in Hamounts. now apply Hamounts.
Qed.

Lemma proper_summary (summary : ExpenseSummary) :
  Double.is_binary64 (totalAmount summary) = true ->
  Z.abs (totalCount summary) < 2 ^ 53 ->
  Forall (fun c => Double.is_binary64 (CategoryTotal.amount c) = true
                   /\ Z.abs (CategoryTotal.count c) < 2 ^ 53) (categoryBreakdown summary) ->
  proper (summary_value summary) = true.
Proof.
  intros Htotal Hcount Hall. unfold summary_value. cbn [proper forallb snd].
  rewrite (proper_js_number _ Htotal), (proj2 (Z.ltb_lt _ _) Hcount), !andb_true_r. cbn [andb].
  apply forallb_forall. intros v Hv. apply in_map_iff in Hv as (c & <- & Hc).
  rewrite List.Forall_forall in Hall. destruct (Hall c Hc) as [Ha Hn].
  cbn [proper forallb snd]. now rewrite (proper_js_number _ Ha), (proj2 (Z.ltb_lt _ _) Hn).
Qed.

(** The numbers of the language as the cache writes them. *)
Example number_texts :
  map (fun x => text (JSON.double_chars x))
      [Double.of_decimal false 1050 (-2); Double.of_decimal false 1 (-1);
       Double.add (Double.of_decimal false 1 (-1)) (Double.of_decimal false 2 (-1));
       Double.of_decimal true 99999999 (-2); Double.of_decimal false 1 21;
       Double.of_decimal false 1 (-7); Double.of_Z 9007199254740993;
       SpecFloat.S754_infinity false; SpecFloat.S754_zero true]
  = ["10.5"; "0.1"; "0.30000000000000004"; "-999999.99"; "1e+21"; "1e-7";
     "9007199254740992"; "null"; "0"].
Proof. vm_compute. reflexivity. Qed.

(** The reader on literals with a fraction and an exponent, and what it
    refuses. *)
Example number_literals :
  map JSON.parse ["10.5"; "-0.25"; "1e3"; "2.5E-1"; "12"; "9007199254740993"; "1e400";
                  "012"; "1."; ".5"; "+1"; "1e"; "0x10"; "--1"]
  = [Some (VDouble (Double.of_decimal false 105 (-1)));
     Some (VDouble (Double.of_decimal true 25 (-2)));
     Some (VNum (Num 1000)); Some (VDouble (Double.of_decimal false 25 (-2)));
     Some (VNum (Num 12)); Some (VDouble (Double.of_Z 9007199254740992));
     Some (VDouble (SpecFloat.S754_infinity false));
     None; None; None; None; None; None; None].
Proof. vm_compute. reflexivity. Qed.

(** The rounding of [Double.nearest] is the one of the division of the
    format. *)
Example nearest_is_division :
  forallb (fun pq : positive * positive =>
             bool_decide (Double.nearest false (Zpos (fst pq)) (Zpos (snd pq))
                          = SpecFloat.SFdiv 53 1024 (SpecFloat.S754_finite false (fst pq) 0)
                                                    (SpecFloat.S754_finite false (snd pq) 0)))
          [(1, 3); (2, 3); (1, 10); (105, 10); (123456789, 1000); (9007199254740993, 1);
           (9007199254740995, 2); (1, 2 ^ 1074); (1, 2 ^ 1075); (3, 2 ^ 1075);
           (2 ^ 1024 - 2 ^ 970, 1); (2 ^ 1024 - 2 ^ 970 - 1, 1); (5, 10 ^ 324);
           (10 ^ 400, 1)]%positive
  = true.
Proof. vm_compute. reflexivity. Qed.

(** C5. Populating the cache with a value (JSON-serialize, then set with a
    positive time to live) and reading it back (get, then JSON-parse) yields
    a value with byte for byte the same JSON text; for the listing: when
    [getExpenses] misses and populates the cache, the same request repeated
    at once is answered from the cache with a value whose JSON text is byte
    for byte that of the fresh, uncached read of the repository for the
    identical filter (in memory the two differ only in that the cached copy
    holds its timestamps as ISO strings and has no undefined fields).
    Numbers are binary64 values, written by Number::toString and read by
    the nearest-value rule; the amounts of the store are such values, and
    the counters are integers below 2^53. *)
Theorem cache_round_trip :
  (forall (key : string) (v : value) (ttl : Z) (r : Redis),
     reachable r = true -> v <> VUndefined -> proper v = true -> 0 < ttl ->
     exists r',
       RedisClient.setJson key v (Some ttl) r = (inr tt, r')
       /\ RedisClient.getJson key r' = (inr (JSON.norm v), r')
       /\ JSON.stringify (JSON.norm v) = JSON.stringify v)
  /\ (forall (rt : Runtime) (user : string) (uid : ObjectId)
             (queryParams : ExpenseQueryParams.t) (w w1 : World Collection) (v : value),
        ObjectId.new user = inr uid ->
        reachable (redis w) = true ->
        Forall (fun e => Double.is_binary64 (amount e) = true) (docs (store w)) ->
        Z.of_nat (List.length (docs (store w))) < 2 ^ 53 ->
        proper (VNum (parsed_or (ExpenseQueryParams.page queryParams) "1")) = true ->
        proper (VNum (parsed_or (ExpenseQueryParams.limit queryParams) "20")) = true ->
        truthy (cached (redis w)
                  (ExpenseService.getExpensesCacheKey user
                     (listing_filters rt uid queryParams))) = false ->
        ExpenseService.getExpenses Mongo.driver rt user queryParams w = (inr v, w1) ->
        exists found cachedResult,
          ExpenseRepository.findWithFilters Mongo.driver (listing_filters rt uid queryParams)
            (store w1) = (inr found, store w1)
          /\ v = listing queryParams found
          /\ ExpenseService.getExpenses Mongo.driver rt user queryParams w1
             = (inr cachedResult, w1)
          /\ cachedResult = JSON.norm (listing queryParams found)
          /\ JSON.stringify cachedResult = JSON.stringify (listing queryParams found)).
Proof.
  split.
  - intros key v ttl r Hup Hdef Hproper Httl.
    pose proof (stringify_defined v Hdef) as Hs.
    pose proof (stringify_norm v Hdef Hproper) as Hn.
    rewrite (setJson_spec key v ttl r Httl), Hup, Hs.
    eexists. split; [reflexivity |]. split; [| rewrite Hn; exact Hs].
    rewrite getJson_spec. cbn [reachable]. rewrite ?Hup. unfold cached. cbn [data].
    rewrite lookup_insert_eq. cbv beta iota.
    rewrite written_truthy, parse_written by exact Hproper. reflexivity.
  - intros rt user uid queryParams w w1 v Huid Hup Hamounts Hsize Hpage Hlimit Hmiss Hrun.
    set (filters := listing_filters rt uid queryParams) in *.
    set (key := ExpenseService.getExpensesCacheKey user filters) in *.
    rewrite (getExpenses_read_through Mongo.driver rt user queryParams w uid Huid) in Hrun
      by (fold filters key; rewrite Hup; exact Hmiss).
    fold filters key in Hrun. rewrite Hup in Hrun.
    pose proof (findWithFilters_reads filters (store w)) as Hsame.
    destruct (ExpenseRepository.findWithFilters Mongo.driver filters (store w))
      as [[e|found] s'] eqn:Hfind; [discriminate |].
    cbn [snd] in Hsame. subst s'. injection Hrun as <- <-.
    rewrite World_eta.
    destruct (findWithFilters_found filters _ _ found Hfind) as [Hin Hcount].
    assert (Hobj : listing queryParams found <> VUndefined) by discriminate.
    assert (Hproper : proper (listing queryParams found) = true).
    { apply proper_listing; [| lia | exact Hpage | exact Hlimit].
      rewrite List.Forall_forall in *. intros e He.
      apply Hamounts, list_elem_of_In, Hin, list_elem_of_In, He. }
    exists found, (JSON.norm (listing queryParams found)).
    rewrite store_stored.
    split; [exact Hfind | split; [reflexivity | split; [| split; [reflexivity |]]]].
    + rewrite (getExpenses_hit Mongo.driver rt user queryParams _ uid Huid);
        fold filters key; rewrite ?cached_stored by assumption;
        [reflexivity | now rewrite reachable_stored | reflexivity].
    + now apply stringify_norm.
Qed.

(** Three expenses of 10.50, 0.10 and 1234.56: the listing is read back
    from the cache with the text of the fresh one. *)
Lemma cache_round_trip_witness :
  let c := snd (ExpenseRepository.create Mongo.driver rt0 alice
                  (priced "rent" 123456 "Utilities")
                  (snd (ExpenseRepository.create Mongo.driver rt0 alice
                          (priced "gum" 10 "Groceries")
                          (snd (ExpenseRepository.create Mongo.driver rt0 alice
                                  (priced "lunch" 1050 "Groceries") empty_collection))))) in
  exists found cachedResult w1,
    ExpenseService.getExpenses Mongo.driver rt0 alice no_params (cold c)
    = (inr (listing no_params found), w1)
    /\ map amount (fst found)
       = [Double.of_decimal false 1050 (-2); Double.of_decimal false 10 (-2);
          Double.of_decimal false 123456 (-2)]
    /\ ExpenseService.getExpenses Mongo.driver rt0 alice no_params w1 = (inr cachedResult, w1)
    /\ JSON.stringify cachedResult = JSON.stringify (listing no_params found).
Proof.
  intros c.
  destruct cache_round_trip as [_ Hlisting].
  destruct (ExpenseService.getExpenses Mongo.driver rt0 alice no_params (cold c))
    as [[e|v] w1] eqn:Hrun; [vm_compute in Hrun; discriminate |].
  assert (Hamounts : Forall (fun e => Double.is_binary64 (amount e) = true) (docs c)).
  { apply List.Forall_forall. intros e He. vm_compute in He.
    destruct He as [<- | [<- | [<- | []]]]; reflexivity. }
  destruct (Hlisting rt0 alice {| toHexString := alice |} no_params (cold c)
              w1 v eq_refl eq_refl Hamounts eq_refl eq_refl eq_refl eq_refl Hrun)
    as (found & cachedResult & Hfind & -> & Hhit & _ & Htext).
  exists found, cachedResult, w1.
  split; [reflexivity | split; [| split; [exact Hhit | exact Htext]]].
  assert (Hw1 : store w1 = c).
  { apply (f_equal snd) in Hrun. cbn [snd] in Hrun. rewrite <- Hrun. vm_compute. reflexivity. }
  rewrite Hw1 in Hfind. vm_compute in Hfind. injection Hfind as <-. vm_compute. reflexivity.
Defined.

(** In memory the cached copy is not the fresh value: its timestamps are
    strings. *)
Example cached_listing_holds_strings :
  let first := ExpenseService.getExpenses Mongo.driver rt0 alice no_params
                 (cold week_of_expenses) in
  let second := ExpenseService.getExpenses Mongo.driver rt0 alice no_params (snd first) in
  exists fresh cachedResult,
    fst first = inr fresh /\ fst second = inr cachedResult
    /\ cachedResult <> fresh
    /\ JSON.stringify cachedResult = JSON.stringify fresh.
Proof.
  eexists; eexists.
  split; [vm_compute; reflexivity | split; [vm_compute; reflexivity | split]].
  - vm_compute. discriminate.
  - vm_compute. reflexivity.
Qed.

(** * Further properties of the code *)

(** ** The cache adapter on its own *)



(** X2. How the adapter fails. On a client that is not connected every
    command rejects with "Redis not connected" before anything is sent: the
    data are as they were, and [setJson] rejects whatever the value. On a
    connected client [getJson] never rejects and changes nothing: it
    returns [null] for a key that is absent, for an entry that is the empty
    string and for an entry that does not parse, and the parsed value
    otherwise. *)
Theorem adapter_failure_modes (r : Redis) (key text pattern : string)
    (ttlSeconds : option Z) (v : value) :
  (reachable r = false ->
   let failed {A} : (Exn + A) * Redis := (inl (Error "Redis not connected"), r) in
   RedisClient.set key text ttlSeconds r = failed
   /\ RedisClient.get key r = failed
   /\ RedisClient.delete key r = failed
   /\ RedisClient.exists_ key r = failed
   /\ RedisClient.deletePattern pattern r = failed
   /\ RedisClient.setJson key v ttlSeconds r = failed
   /\ RedisClient.getJson key r = failed)
  /\ (reachable r = true ->
      (exists parsed, RedisClient.getJson key r = (inr parsed, r))
      /\ (data r !! key = None -> RedisClient.getJson key r = (inr VNull, r))
      /\ (forall ttl, data r !! key = Some ("", ttl) ->
            RedisClient.getJson key r = (inr VNull, r))
      /\ (forall jsonString ttl, data r !! key = Some (jsonString, ttl) ->
            JSON.parse jsonString = None -> RedisClient.getJson key r = (inr VNull, r))
      /\ (forall jsonString ttl parsed, data r !! key = Some (jsonString, ttl) ->
            jsonString <> "" -> JSON.parse jsonString = Some parsed ->
            RedisClient.getJson key r = (inr parsed, r))).
Proof.
  split.
  - intros Hdown failed. subst failed.
    unfold RedisClient.setJson, RedisClient.getJson, RedisClient.deletePattern,
      RedisClient.set, RedisClient.get, RedisClient.exists_, RedisClient.delete,
      RedisClient.getClient; run.
    destruct (JSON.stringify v); run; rewrite Hdown; repeat split; reflexivity.
  - intros Hup. rewrite getJson_spec, Hup. unfold cached.
    split; [eauto |]. split; [now intros -> |]. split; [now intros ttl -> |]. split.
    + intros s ttl -> Hbad. rewrite Hbad. now destruct (string_truthy (Some s)).
    + intros s ttl parsed -> Hne Hv. rewrite Hv. destruct s; [congruence | reflexivity].
Qed.

Lemma adapter_failure_modes_witness :
  let down := {| reachable := false; data := {["k" := ("1", None)]} |} in
  let up := {| reachable := true; data := {["expenses:x" := ("{oops", Some 1800)]} |} in
  RedisClient.get "k" down = (inl (Error "Redis not connected"), down)
  /\ RedisClient.deletePattern "*" down = (inl (Error "Redis not connected"), down)
  /\ RedisClient.getJson "expenses:x" up = (inr VNull, up)
  /\ RedisClient.getJson "expenses:y" up = (inr VNull, up).
Proof.
  intros down up.
  destruct (adapter_failure_modes down "k" "" "*" None VNull) as [Hdown _].
  destruct (Hdown eq_refl) as (_ & Hget & _ & _ & Hpat & _).
  destruct (adapter_failure_modes up "expenses:x" "" "" None VNull) as [_ Hx].
  destruct (Hx eq_refl) as (_ & _ & _ & Hbad & _).
  destruct (adapter_failure_modes up "expenses:y" "" "" None VNull) as [_ Hy].
  destruct (Hy eq_refl) as (_ & Hnone & _).
  split; [exact Hget | split; [exact Hpat | split]].
  - eapply Hbad; reflexivity.
  - apply Hnone; reflexivity.
Defined.

(** ** Invalidation and the other users *)

(** A pattern of literal characters and a final star matches only the keys
    that begin with those characters. *)
Lemma matches_literal_prefix_inv (p s : list ascii) (fuel : nat) :
  forallb literal p = true ->
  Glob.matches fuel (p ++ ["*"%char]) s = true -> exists rest, s = p ++ rest.
Proof.
  revert s fuel; induction p as [|c p IH]; intros s fuel Hlit Hm; [now exists s |].
  simpl in Hlit. apply andb_true_iff in Hlit as [Hc Hp].
  destruct fuel as [|fuel]; [discriminate Hm |].
  unfold literal in Hc. apply negb_true_iff in Hc.
  apply orb_false_iff in Hc as [Hc H92]. apply orb_false_iff in Hc as [Hc H91].
  apply orb_false_iff in Hc as [H42 H63].
  cbn [Glob.matches app] in Hm. rewrite H42 in Hm.
  destruct s as [|x s]; [discriminate Hm |].
  rewrite H63, H91, H92 in Hm.
  apply andb_true_iff in Hm as [Hx Hm]. apply Ascii.eqb_eq in Hx as ->.
  destruct (IH s fuel Hp Hm) as [rest ->]. now exists rest.
Qed.

Lemma glob_prefix_inv (prefix key : string) :
  forallb literal (chars prefix) = true ->
  Glob.glob (prefix +:+ "*") key = true -> exists rest, chars key = chars prefix ++ rest.
Proof.
  intros Hlit Hm. unfold Glob.glob in Hm. rewrite chars_app in Hm.
  exact (matches_literal_prefix_inv _ _ _ Hlit Hm).
Qed.

Lemma purge_other (pattern key : string) (r : Redis) :
  Glob.glob pattern key = false -> data (purge pattern r) !! key = data r !! key.
Proof.
  intros Hm. unfold purge; simpl.
  destruct (data r !! key) as [x|] eqn:Hx.
  - apply map_lookup_filter_Some. split; [exact Hx | exact Hm].
  - apply map_lookup_filter_None. now left.
Qed.

Lemma valid_length (user : string) :
  ObjectId.isValid user = true -> List.length (chars user) = 24%nat.
Proof.
  unfold ObjectId.isValid. intros H. apply andb_true_iff in H as [H _].
  apply Z.eqb_eq in H. rewrite length_chars. lia.
Qed.

(** The keys of one well-formed user do not match the patterns of another. *)
Lemma glob_other_user (prefix user other suffix : string) :
  forallb literal (chars prefix) = true ->
  ObjectId.isValid user = true -> ObjectId.isValid other = true -> other <> user ->
  Glob.glob (prefix +:+ user +:+ "*") (prefix +:+ other +:+ suffix) = false.
Proof.
  intros Hlit Hu Ho Hne. apply not_true_iff_false. intros Hm.
  change (prefix +:+ user +:+ "*") with (prefix +:+ (user +:+ "*")) in Hm.
  assert (Hassoc : prefix +:+ (user +:+ "*") = (prefix +:+ user) +:+ "*").
  { rewrite <- (text_chars (prefix +:+ (user +:+ "*"))),
            <- (text_chars ((prefix +:+ user) +:+ "*")).
    now rewrite !chars_app, app_assoc. }
  rewrite Hassoc in Hm.
  apply glob_prefix_inv in Hm as [rest Hrest].
  2: { rewrite chars_app, forallb_app, Hlit. exact (valid_literal _ Hu). }
  rewrite !chars_app, <- app_assoc in Hrest.
  apply app_inv_head in Hrest.
  assert (Hlen : List.length (chars other) = List.length (chars user))
    by now rewrite !valid_length.
  apply Hne.
  rewrite <- (text_chars other), <- (text_chars user). f_equal.
  revert Hrest Hlen. generalize (chars user) as u, (chars other) as o.
  induction u as [|a u IH]; intros [|b o] Hrest Hlen; simpl in *; try discriminate;
    [reflexivity |].
  injection Hrest as -> Hrest. f_equal. apply IH; [exact Hrest | lia].
Qed.

(** A key that does not begin with the literal part of a pattern does not
    match it. *)
Lemma glob_not_prefixed (prefix key : string) :
  forallb literal (chars prefix) = true ->
  (forall rest, chars key <> chars prefix ++ rest) ->
  Glob.glob (prefix +:+ "*") key = false.
Proof.
  intros Hlit Hno. apply not_true_iff_false. intros Hm.
  destruct (glob_prefix_inv _ _ Hlit Hm) as [rest Hrest]. exact (Hno rest Hrest).
Qed.

(** X3. [invalidateUserCaches] for one well-formed user leaves the cached
    listings and summaries of every other well-formed user, and every
    [user:] entry, as they were, and never touches the store. *)
Theorem invalidation_spares_other_users {S} (user other suffix anyone : string) (w : World S) :
  ObjectId.isValid user = true -> ObjectId.isValid other = true -> other <> user ->
  exists w',
    ExpenseService.invalidateUserCaches user w = (inr tt, w')
    /\ store w' = store w
    /\ data (redis w') !! ("expenses:" +:+ other +:+ suffix)
       = data (redis w) !! ("expenses:" +:+ other +:+ suffix)
    /\ data (redis w') !! ("expense_summary:" +:+ other +:+ suffix)
       = data (redis w) !! ("expense_summary:" +:+ other +:+ suffix)
    /\ data (redis w') !! RedisClient.getUserCacheKey anyone
       = data (redis w) !! RedisClient.getUserCacheKey anyone.
Proof.
  intros Hu Ho Hne. exists (invalidated user w).
  split; [apply invalidateUserCaches_spec |]. split; [apply store_invalidated |].
  unfold invalidated. destruct (reachable (redis w)); [| repeat split; reflexivity].
  cbn [redis].
  pose proof (valid_literal _ Hu) as Hlit.
  assert (Hl1 : forallb literal (chars ("expenses:" +:+ user)) = true)
    by (rewrite chars_app, forallb_app, Hlit; reflexivity).
  assert (Hl2 : forallb literal (chars ("expense_summary:" +:+ user)) = true)
    by (rewrite chars_app, forallb_app, Hlit; reflexivity).
  split; [| split].
  - rewrite !purge_other; [reflexivity | |].
    + apply (glob_other_user "expenses:"); auto.
    + apply (glob_not_prefixed ("expense_summary:" +:+ user)); [exact Hl2 |].
      intros rest Hrest. simpl in Hrest. discriminate Hrest.
  - rewrite !purge_other; [reflexivity | |].
    + apply (glob_not_prefixed ("expenses:" +:+ user)); [exact Hl1 |].
      intros rest Hrest. simpl in Hrest. discriminate Hrest.
    + apply (glob_other_user "expense_summary:"); auto.
  - unfold RedisClient.getUserCacheKey. rewrite !purge_other; [reflexivity | |].
    + apply (glob_not_prefixed ("expenses:" +:+ user)); [exact Hl1 |].
      intros rest Hrest. simpl in Hrest. discriminate Hrest.
    + apply (glob_not_prefixed ("expense_summary:" +:+ user)); [exact Hl2 |].
      intros rest Hrest. simpl in Hrest. discriminate Hrest.
Qed.

Lemma invalidation_spares_other_users_witness :
  let w := {| store := empty_collection;
              redis := {| reachable := true;
                          data := {[ "expenses:" +:+ alice +:+ ":e30=" := ("1", Some 1800);
                                     "expense_summary:" +:+ bob +:+ ":week" := ("2", Some 3600) ]}
                       |} |} in
  exists w',
    ExpenseService.invalidateUserCaches alice w = (inr tt, w')
    /\ data (redis w') !! ("expense_summary:" +:+ bob +:+ ":week") = Some ("2", Some 3600)
    /\ data (redis w') !! ("expenses:" +:+ alice +:+ ":e30=") = None.
Proof.
  intros w.
  destruct (invalidation_spares_other_users alice bob ":week" "" w eq_refl eq_refl)
    as (w' & Hrun & _ & _ & Hkept & _); [discriminate |].
  exists w'. split; [exact Hrun | split].
  - rewrite Hkept. reflexivity.
  - assert (w' = snd (ExpenseService.invalidateUserCaches alice w)) as -> by now rewrite Hrun.
    vm_compute. reflexivity.
Defined.

(** ** Reading, updating and deleting one expense on the behaving store *)

Lemma matches_id_user_eq (i u : ObjectId) (x : Expense) :
  matches {| q_id := Some i; q_userId := Some u; q_gte := None; q_lte := None;
             q_category := None |} x
  = bool_decide (_id x = i) && bool_decide (userId x = u).
Proof. unfold matches; simpl. now rewrite !andb_true_r. Qed.

Lemma id_unique (l : list Expense) (x e : Expense) :
  NoDup (map _id l) -> x ∈ l -> e ∈ l -> _id x = _id e -> x = e.
Proof. intros Hnd Hx He Hid. exact (NoDup_map_inj _id l x e Hnd Hx He Hid). Qed.

(** With unique identifiers, the query on an identifier and an owner finds
    the document that carries the identifier, when the owner is its own. *)
Lemma filter_id_user (l : list Expense) (e : Expense) (u : ObjectId) :
  NoDup (map _id l) -> e ∈ l ->
  List.filter (matches {| q_id := Some (_id e); q_userId := Some u; q_gte := None;
                          q_lte := None; q_category := None |}) l
  = if bool_decide (userId e = u) then [e] else [].
Proof.
  induction l as [|a l IH]; intros Hnd He; [inversion He |].
  simpl in Hnd. apply NoDup_cons in Hnd as [Hna Hnd].
  cbn [List.filter]. rewrite matches_id_user_eq.
  apply elem_of_cons in He as [<- | He].
  - rewrite bool_decide_eq_true_2 by reflexivity. cbn [andb].
    rewrite filter_none.
    + now destruct (bool_decide (userId e = u)).
    + intros x Hx. rewrite matches_id_user_eq.
      rewrite bool_decide_eq_false_2; [reflexivity |].
      intros Hid. apply Hna. rewrite <- Hid.
      apply list_elem_of_In, in_map, list_elem_of_In, Hx.
  - rewrite bool_decide_eq_false_2.
    + cbn [andb]. apply IH; assumption.
    + intros Hid. apply Hna. rewrite Hid.
      apply list_elem_of_In, in_map, list_elem_of_In, He.
Qed.

Lemma findByIdAndUserId_reads (c : Collection) (id user : string) (oid uid : ObjectId) :
  ObjectId.new id = inr oid -> ObjectId.new user = inr uid ->
  ExpenseRepository.findByIdAndUserId Mongo.driver id user c
  = (inr (head (List.filter
                  (matches {| q_id := Some oid; q_userId := Some uid; q_gte := None;
                              q_lte := None; q_category := None |}) (docs c))), c).
Proof.
  intros Hoid Huid.
  unfold ExpenseRepository.findByIdAndUserId; run.
  rewrite (new_valid _ _ Hoid), (new_valid _ _ Huid); simpl.
  rewrite Hoid, Huid. reflexivity.
Qed.

Lemma findByIdAndUserId_malformed {S} (collection : Driver S) (id user : string) (s : S) :
  ObjectId.isValid id = false \/ ObjectId.isValid user = false ->
  ExpenseRepository.findByIdAndUserId collection id user s = (inr None, s).
Proof.
  intros H. unfold ExpenseRepository.findByIdAndUserId; run.
  destruct H as [-> | ->]; rewrite ?orb_true_r; reflexivity.
Qed.

Lemma getExpenseById_run {S} (collection : Driver S) (id user : string) (w : World S) :
  ExpenseService.getExpenseById collection id user w
  = match ExpenseRepository.findByIdAndUserId collection id user (store w) with
    | (inr (Some e), s') => (inr (transformExpenseToResponse e), {| store := s'; redis := redis w |})
    | (inr None, s') => (inl (ApiError "Expense not found" 404),
                         {| store := s'; redis := redis w |})
    | (inl e, s') => (inl (if instanceof_ApiError e then e else ApiError "Failed to get expense" 500),
                      {| store := s'; redis := redis w |})
    end.
Proof.
  unfold ExpenseService.getExpenseById; run. rewrite repository_run.
  destruct (ExpenseRepository.findByIdAndUserId collection id user (store w))
    as [[e|[e|]] s']; simpl; try reflexivity.
  destruct (instanceof_ApiError e); reflexivity.
Qed.

(** X4. [getExpenseById] on the behaving store: the owner of an expense
    gets its response form; any other caller, well-formed or not, gets
    "Expense not found" (404), as does every caller for an expense
    identifier that is not well-formed; neither the store nor the cache is
    touched. *)
Theorem getExpenseById_owner_only (c : Collection) (r : Redis) (e : Expense)
    (expenseId caller : string) :
  NoDup (map _id (docs c)) ->
  e ∈ docs c ->
  ObjectId.new expenseId = inr (_id e) ->
  let w := {| store := c; redis := r |} in
  (ObjectId.new caller = inr (userId e) ->
   ExpenseService.getExpenseById Mongo.driver expenseId caller w
   = (inr (transformExpenseToResponse e), w))
  /\ (ObjectId.new caller <> inr (userId e) ->
      ExpenseService.getExpenseById Mongo.driver expenseId caller w
      = (inl (ApiError "Expense not found" 404), w))
  /\ (forall malformed, ObjectId.isValid malformed = false ->
        ExpenseService.getExpenseById Mongo.driver malformed caller w
        = (inl (ApiError "Expense not found" 404), w)).
Proof.
  intros Hnd He Hid w. split; [| split].
  - intros Hcaller. rewrite getExpenseById_run. cbn [store redis w].
    rewrite (findByIdAndUserId_reads c _ _ _ _ Hid Hcaller), (filter_id_user _ _ _ Hnd He).
    rewrite bool_decide_eq_true_2 by reflexivity. reflexivity.
  - intros Hcaller. rewrite getExpenseById_run. cbn [store redis w].
    destruct (ObjectId.isValid caller) eqn:Hv.
    + destruct (valid_new _ Hv) as [uid Huid].
      rewrite (findByIdAndUserId_reads c _ _ _ _ Hid Huid), (filter_id_user _ _ _ Hnd He).
      rewrite bool_decide_eq_false_2 by congruence. reflexivity.
    + rewrite findByIdAndUserId_malformed by now right. reflexivity.
  - intros malformed Hbad. rewrite getExpenseById_run. cbn [store redis w].
    rewrite findByIdAndUserId_malformed by now left. reflexivity.
Qed.

Lemma getExpenseById_owner_only_witness :
  let w := cold week_of_expenses in
  (exists v, ExpenseService.getExpenseById Mongo.driver "000000000000000000000002" alice w
             = (inr v, w))
  /\ ExpenseService.getExpenseById Mongo.driver "000000000000000000000002" bob w
     = (inl (ApiError "Expense not found" 404), w)
  /\ ExpenseService.getExpenseById Mongo.driver "2" alice w
     = (inl (ApiError "Expense not found" 404), w).
Proof.
  intros w.
  assert (He : exists e, nth_error (docs week_of_expenses) 1 = Some e
                         /\ ObjectId.new "000000000000000000000002" = inr (_id e)
                         /\ ObjectId.new alice = inr (userId e)
                         /\ ObjectId.new bob <> inr (userId e)).
  { eexists. split; [vm_compute; reflexivity |].
    split; [vm_compute; reflexivity |]. split; [vm_compute; reflexivity |].
    vm_compute. discriminate. }
  destruct He as (e & Hnth & Hid & Ha & Hb).
  destruct (getExpenseById_owner_only week_of_expenses (redis w) e
              "000000000000000000000002" alice) as (Hown & _ & Hbad).
  { refine (bool_decide_unpack _ _). vm_compute. exact I. }
  { apply list_elem_of_In. eapply nth_error_In. exact Hnth. }
  { exact Hid. }
  destruct (getExpenseById_owner_only week_of_expenses (redis w) e
              "000000000000000000000002" bob) as (_ & Hother & _).
  { refine (bool_decide_unpack _ _). vm_compute. exact I. }
  { apply list_elem_of_In. eapply nth_error_In. exact Hnth. }
  { exact Hid. }
  split; [eexists; apply Hown, Ha | split; [apply Hother, Hb | apply Hbad; reflexivity]].
Defined.

Lemma create_materializes (rt : Runtime) (user : string) (uid : ObjectId)
    (expenseData : CreateExpenseDto.t) (c : Collection) :
  ObjectId.new user = inr uid ->
  (forall x, x ∈ docs c -> _id x <> Mongo.oid_of (nextId c)) ->
  let e := Mongo.materialize (Mongo.oid_of (nextId c))
             {| new_fields := expenseData; new_userId := uid;
                new_createdAt := now rt; new_updatedAt := now rt |} in
  ExpenseRepository.create Mongo.driver rt user expenseData c
  = (inr e, {| docs := docs c ++ [e]; nextId := nextId c + 1 |}).
Proof.
  intros Hnew Hnew_id e.
  pose proof (new_valid _ _ Hnew) as Hok.
  set (oid := Mongo.oid_of (nextId c)) in *.
  assert (Hfresh : existsb (fun x => bool_decide (_id x = oid)) (docs c) = false).
  { apply not_true_iff_false; intros Hex.
    apply existsb_exists in Hex as (x & Hx & Heq).
    apply bool_decide_eq_true in Heq. apply (Hnew_id x); [now apply list_elem_of_In | exact Heq]. }
  assert (Hhead : head (List.filter
             (matches {| q_id := Some oid; q_userId := None; q_gte := None;
                         q_lte := None; q_category := None |})
             (docs c ++ [e])) = Some e)
    by (apply (head_filter_id_fresh (docs c) e); exact Hnew_id).
  pose proof (findById_found {| docs := docs c ++ [e]; nextId := nextId c + 1 |}
                oid e (oid_of_new _) Hhead rt) as Hfind.
  unfold ExpenseRepository.create; run.
  rewrite Hok; simpl. rewrite Hnew. unfold Mongo.insertOne.
  fold oid. rewrite Hfresh. cbv beta iota zeta. cbn [insertedId].
  fold e. now rewrite Hfind.
Qed.

Lemma NoDup_ids_snoc (l : list Expense) (e : Expense) :
  NoDup (map _id l) -> (forall x, x ∈ l -> _id x <> _id e) -> NoDup (map _id (l ++ [e])).
Proof.
  intros Hnd Hfresh. rewrite map_app. apply NoDup_app. split; [exact Hnd | split].
  - intros i Hi Hin. simpl in Hin. apply list_elem_of_singleton in Hin as ->.
    apply list_elem_of_In, in_map_iff in Hi as (x & Hx & Hin).
    exact (Hfresh x (proj2 (list_elem_of_In _ _) Hin) Hx).
  - simpl. apply NoDup_singleton.
Qed.

(** X5. Create, then read: on the behaving store, with a counter that names
    an unused identifier, [createExpense] for a well-formed user returns a
    response whose expense [getExpenseById] hands back unchanged to that
    user right afterwards, and refuses with "Expense not found" (404) to
    every caller that is not that user; the create leaves the other
    documents alone. *)
Theorem create_then_get (rt : Runtime) (user : string) (uid : ObjectId)
    (expenseData : CreateExpenseDto.t) (w : World Collection) :
  ObjectId.new user = inr uid ->
  NoDup (map _id (docs (store w))) ->
  (forall x, x ∈ docs (store w) -> _id x <> Mongo.oid_of (nextId (store w))) ->
  let expenseId := toHexString (Mongo.oid_of (nextId (store w))) in
  exists e w',
    ExpenseService.createExpense Mongo.driver rt user expenseData w
    = (inr (transformExpenseToResponse e), w')
    /\ toHexString (_id e) = expenseId /\ userId e = uid
    /\ docs (store w') = docs (store w) ++ [e]
    /\ ExpenseService.getExpenseById Mongo.driver expenseId user w'
       = (inr (transformExpenseToResponse e), w')
    /\ forall other, ObjectId.new other <> inr uid ->
         ExpenseService.getExpenseById Mongo.driver expenseId other w'
         = (inl (ApiError "Expense not found" 404), w').
Proof.
  intros Huid Hnd Hfresh expenseId. subst expenseId.
  set (c := store w) in *.
  set (e := Mongo.materialize (Mongo.oid_of (nextId c))
              {| new_fields := expenseData; new_userId := uid;
                 new_createdAt := now rt; new_updatedAt := now rt |}).
  set (c' := {| docs := docs c ++ [e]; nextId := nextId c + 1 |}).
  exists e, (invalidated user {| store := c'; redis := redis w |}).
  assert (Hrun : ExpenseService.createExpense Mongo.driver rt user expenseData w
                 = (inr (transformExpenseToResponse e),
                    invalidated user {| store := c'; redis := redis w |})).
  { change (ExpenseService.createExpense Mongo.driver rt user expenseData w)
      with (mutate Mongo.driver rt user (Create expenseData) w).
    rewrite mutate_run. fold c.
    rewrite (create_materializes rt user uid expenseData c Huid Hfresh). reflexivity. }
  assert (Hw' : invalidated user {| store := c'; redis := redis w |}
                = {| store := c';
                     redis := redis (invalidated user {| store := c'; redis := redis w |}) |}).
  { unfold invalidated. cbn [redis store]. destruct (reachable (redis w)); reflexivity. }
  assert (Hnd' : NoDup (map _id (docs c'))) by (apply NoDup_ids_snoc; assumption).
  assert (He' : e ∈ docs c').
  { unfold c'. cbn [docs]. apply elem_of_app. right. constructor. }
  split; [exact Hrun |]. split; [reflexivity |]. split; [reflexivity |].
  split; [rewrite store_invalidated; reflexivity |].
  rewrite Hw'. split.
  - rewrite getExpenseById_run. cbn [store redis].
    rewrite (findByIdAndUserId_reads c' _ _ _ _ (oid_of_new _) Huid).
    change (Mongo.oid_of (nextId c)) with (_id e).
    rewrite (filter_id_user _ _ _ Hnd' He').
    rewrite bool_decide_eq_true_2 by reflexivity. reflexivity.
  - intros other Hother. rewrite getExpenseById_run. cbn [store redis].
    destruct (ObjectId.isValid other) eqn:Hv.
    + destruct (valid_new _ Hv) as [oid Hoid].
      rewrite (findByIdAndUserId_reads c' _ _ _ _ (oid_of_new _) Hoid).
      change (Mongo.oid_of (nextId c)) with (_id e).
      rewrite (filter_id_user _ _ _ Hnd' He').
      rewrite bool_decide_eq_false_2; [reflexivity |].
      intros Heq. apply Hother. rewrite Hoid. f_equal. symmetry. exact Heq.
    + rewrite findByIdAndUserId_malformed by now right. reflexivity.
Qed.

Lemma create_then_get_witness :
  exists e w',
    ExpenseService.createExpense Mongo.driver rt0 alice (dto "rent" 10000 "Utilities")
      (cold week_of_expenses) = (inr (transformExpenseToResponse e), w')
    /\ ExpenseService.getExpenseById Mongo.driver "000000000000000000000004" alice w'
       = (inr (transformExpenseToResponse e), w')
    /\ ExpenseService.getExpenseById Mongo.driver "000000000000000000000004" bob w'
       = (inl (ApiError "Expense not found" 404), w').
Proof.
  destruct (create_then_get rt0 alice {| toHexString := alice |} (dto "rent" 10000 "Utilities")
              (cold week_of_expenses))
    as (e & w' & Hrun & _ & _ & _ & Hget & Hother).
  - reflexivity.
  - refine (bool_decide_unpack _ _). vm_compute. exact I.
  - refine (proj1 (Forall_forall _ _) _).
    refine (bool_decide_unpack _ _). vm_compute. exact I.
  - exists e, w'. split; [exact Hrun | split; [exact Hget |]].
    apply Hother. vm_compute. discriminate.
Defined.

Lemma update_first_unique (l : list Expense) (e : Expense) (u : UpdateDoc) :
  NoDup (map _id l) -> e ∈ l ->
  Mongo.update_first {| q_id := Some (_id e); q_userId := Some (userId e); q_gte := None;
                        q_lte := None; q_category := None |} u l
  = (Some (Mongo.apply_set u e),
     map (fun x => if bool_decide (_id x = _id e) then Mongo.apply_set u e else x) l).
Proof.
  induction l as [|a l IH]; intros Hnd He; [inversion He |].
  simpl in Hnd. apply NoDup_cons in Hnd as [Hna Hnd].
  cbn [Mongo.update_first map]. rewrite matches_id_user_eq.
  apply elem_of_cons in He as [<- | He].
  - rewrite !bool_decide_eq_true_2 by reflexivity. cbn [andb]. do 2 f_equal.
    rewrite <- (map_id l) at 1. apply map_ext_in. intros x Hx.
    rewrite bool_decide_eq_false_2; [reflexivity |].
    intros Hid. apply Hna. rewrite <- Hid. apply list_elem_of_In, in_map, Hx.
  - assert (Hne : _id a <> _id e).
    { intros Hid. apply Hna. rewrite Hid. apply list_elem_of_In, in_map, list_elem_of_In, He. }
    rewrite (bool_decide_eq_false_2 _ Hne). cbn [andb].
    rewrite (IH Hnd He). reflexivity.
Qed.

Lemma delete_first_unique (l : list Expense) (e : Expense) :
  NoDup (map _id l) -> e ∈ l ->
  Mongo.delete_first {| q_id := Some (_id e); q_userId := Some (userId e); q_gte := None;
                        q_lte := None; q_category := None |} l
  = (1, List.filter (fun x => negb (bool_decide (_id x = _id e))) l).
Proof.
  induction l as [|a l IH]; intros Hnd He; [inversion He |].
  simpl in Hnd. apply NoDup_cons in Hnd as [Hna Hnd].
  cbn [Mongo.delete_first List.filter]. rewrite matches_id_user_eq.
  apply elem_of_cons in He as [<- | He].
  - rewrite !bool_decide_eq_true_2 by reflexivity. cbn [andb negb]. f_equal.
    symmetry. apply forallb_filter_id, forallb_forall. intros x Hx.
    rewrite bool_decide_eq_false_2; [reflexivity |].
    intros Hid. apply Hna. rewrite <- Hid. apply list_elem_of_In, in_map, Hx.
  - assert (Hne : _id a <> _id e).
    { intros Hid. apply Hna. rewrite Hid. apply list_elem_of_In, in_map, list_elem_of_In, He. }
    rewrite (bool_decide_eq_false_2 _ Hne). cbn [andb negb].
    rewrite (IH Hnd He). reflexivity.
Qed.

Lemma updateByIdAndUserId_writes (rt : Runtime) (c : Collection) (id user : string)
    (oid uid : ObjectId) (updates : UpdateExpenseDto.t) :
  ObjectId.new id = inr oid -> ObjectId.new user = inr uid ->
  ExpenseRepository.updateByIdAndUserId Mongo.driver rt id user updates c
  = (inr (fst (Mongo.update_first
                 {| q_id := Some oid; q_userId := Some uid; q_gte := None; q_lte := None;
                    q_category := None |}
                 {| set_fields := updates; set_updatedAt := now rt |} (docs c))),
     {| docs := snd (Mongo.update_first
                       {| q_id := Some oid; q_userId := Some uid; q_gte := None;
                          q_lte := None; q_category := None |}
                       {| set_fields := updates; set_updatedAt := now rt |} (docs c));
        nextId := nextId c |}).
Proof.
  intros Hoid Huid.
  unfold ExpenseRepository.updateByIdAndUserId; run.
  rewrite (new_valid _ _ Hoid), (new_valid _ _ Huid); simpl.
  rewrite Hoid, Huid. unfold Mongo.findOneAndUpdate.
  destruct (Mongo.update_first _ _ _). reflexivity.
Qed.

Lemma deleteByIdAndUserId_writes (c : Collection) (id user : string) (oid uid : ObjectId) :
  ObjectId.new id = inr oid -> ObjectId.new user = inr uid ->
  ExpenseRepository.deleteByIdAndUserId Mongo.driver id user c
  = (inr (fst (Mongo.delete_first
                 {| q_id := Some oid; q_userId := Some uid; q_gte := None; q_lte := None;
                    q_category := None |} (docs c)) =? 1),
     {| docs := snd (Mongo.delete_first
                       {| q_id := Some oid; q_userId := Some uid; q_gte := None;
                          q_lte := None; q_category := None |} (docs c));
        nextId := nextId c |}).
Proof.
  intros Hoid Huid.
  unfold ExpenseRepository.deleteByIdAndUserId; run.
  rewrite (new_valid _ _ Hoid), (new_valid _ _ Huid); simpl.
  rewrite Hoid, Huid. unfold Mongo.deleteOne.
  destruct (Mongo.delete_first _ _) as [n l]. simpl. now destruct (n =? 1).
Qed.

Lemma NoDup_ids_updated (l : list Expense) (e e' : Expense) :
  _id e' = _id e ->
  map _id (map (fun x => if bool_decide (_id x = _id e) then e' else x) l) = map _id l.
Proof.
  intros Hid. rewrite map_map. apply map_ext. intros x.
  destruct (bool_decide_reflect (_id x = _id e)); congruence.
Qed.

(** X6. [updateByIdAndUserId] by the owner, on the behaving store: the
    document that carries the identifier, and no other, is replaced by the
    returned one, which keeps its identifier, owner and creation time,
    takes the values the update carries (a field the update does not carry
    keeps its value) and has its update time set to now, also when the
    update carries nothing; the collection keeps its size; a read by the
    owner right afterwards returns the same document. *)
Theorem update_effect (rt : Runtime) (c : Collection) (e : Expense)
    (expenseId user : string) (updates : UpdateExpenseDto.t) :
  NoDup (map _id (docs c)) ->
  e ∈ docs c ->
  ObjectId.new expenseId = inr (_id e) ->
  ObjectId.new user = inr (userId e) ->
  exists e' c',
    ExpenseRepository.updateByIdAndUserId Mongo.driver rt expenseId user updates c
    = (inr (Some e'), c')
    /\ (_id e' = _id e /\ userId e' = userId e /\ createdAt e' = createdAt e
        /\ updatedAt e' = now rt)
    /\ (title e' = default (title e) (UpdateExpenseDto.title updates)
        /\ description e' = match UpdateExpenseDto.description updates with
                            | Some d => Some d
                            | None => description e
                            end
        /\ amount e' = default (amount e) (UpdateExpenseDto.amount updates)
        /\ category e' = default (category e) (UpdateExpenseDto.category updates))
    /\ docs c' = map (fun x => if bool_decide (_id x = _id e) then e' else x) (docs c)
    /\ List.length (docs c') = List.length (docs c)
    /\ ExpenseRepository.findByIdAndUserId Mongo.driver expenseId user c' = (inr (Some e'), c').
Proof.
  intros Hnd He Hid Huser.
  set (u := {| set_fields := updates; set_updatedAt := now rt |}).
  exists (Mongo.apply_set u e),
         {| docs := map (fun x => if bool_decide (_id x = _id e) then Mongo.apply_set u e else x)
                        (docs c);
            nextId := nextId c |}.
  split.
  { rewrite (updateByIdAndUserId_writes rt c _ _ _ _ updates Hid Huser). fold u.
    rewrite (update_first_unique _ _ u Hnd He). reflexivity. }
  split; [repeat split |]. split; [repeat split |]. split; [reflexivity |].
  split; [cbn [docs]; now rewrite length_map |].
  rewrite (findByIdAndUserId_reads _ _ _ _ _ Hid Huser). cbn [docs].
  change (_id e) with (_id (Mongo.apply_set u e)) at 1.
  change (userId e) with (userId (Mongo.apply_set u e)).
  rewrite filter_id_user.
  - rewrite bool_decide_eq_true_2 by reflexivity. reflexivity.
  - rewrite NoDup_ids_updated by reflexivity. exact Hnd.
  - apply list_elem_of_In, in_map_iff. exists e. split; [| now apply list_elem_of_In].
    now rewrite bool_decide_eq_true_2.
Qed.

Lemma update_effect_witness :
  exists e' c',
    ExpenseRepository.updateByIdAndUserId Mongo.driver rt0 "000000000000000000000002" alice
      {| UpdateExpenseDto.title := None; UpdateExpenseDto.description := None;
         UpdateExpenseDto.amount := Some (Double.of_Z 2500); UpdateExpenseDto.category := None |}
      week_of_expenses = (inr (Some e'), c')
    /\ title e' = "bread" /\ amount e' = Double.of_Z 2500
    /\ List.length (docs c') = 3%nat.
Proof.
  assert (He : exists e, nth_error (docs week_of_expenses) 1 = Some e
                         /\ ObjectId.new "000000000000000000000002" = inr (_id e)
                         /\ ObjectId.new alice = inr (userId e)
                         /\ title e = "bread").
  { eexists. split; [vm_compute; reflexivity |].
    split; [vm_compute; reflexivity |]. split; vm_compute; reflexivity. }
  destruct He as (e & Hnth & Hid & Ha & Ht).
  destruct (update_effect rt0 week_of_expenses e "000000000000000000000002" alice
              {| UpdateExpenseDto.title := None; UpdateExpenseDto.description := None;
                 UpdateExpenseDto.amount := Some (Double.of_Z 2500); UpdateExpenseDto.category := None |})
    as (e' & c' & Hrun & _ & (Htitle & _ & Hamount & _) & _ & Hlen & _).
  { refine (bool_decide_unpack _ _). vm_compute. exact I. }
  { apply list_elem_of_In. eapply nth_error_In. exact Hnth. }
  { exact Hid. }
  { exact Ha. }
  exists e', c'. split; [exact Hrun |].
  split; [rewrite Htitle; exact Ht | split; [exact Hamount | rewrite Hlen; reflexivity]].
Defined.

Lemma deleteExpense_run {S} (collection : Driver S) (id user : string) (w : World S) :
  ExpenseService.deleteExpense collection id user w
  = match ExpenseRepository.deleteByIdAndUserId collection id user (store w) with
    | (inr true, s') => (inr tt, invalidated user {| store := s'; redis := redis w |})
    | (inr false, s') => (inl (ApiError "Expense not found" 404),
                          {| store := s'; redis := redis w |})
    | (inl e, s') =>
        (inl (if instanceof_ApiError e then e else ApiError "Failed to delete expense" 500),
         {| store := s'; redis := redis w |})
    end.
Proof.
  unfold ExpenseService.deleteExpense; run. rewrite repository_run.
  destruct (ExpenseRepository.deleteByIdAndUserId collection id user (store w))
    as [[e|[|]] s']; simpl.
  - destruct (instanceof_ApiError e); reflexivity.
  - rewrite invalidateUserCaches_spec. reflexivity.
  - reflexivity.
Qed.

(** X7. [deleteByIdAndUserId] by the owner, on the behaving store: it
    reports true and removes the document that carries the identifier and
    no other; right afterwards the owner's read finds nothing, a second
    delete reports false and changes nothing, and the service's
    [deleteExpense] answers "Expense not found" (404). *)
Theorem delete_effect (c : Collection) (e : Expense) (expenseId user : string) :
  NoDup (map _id (docs c)) ->
  e ∈ docs c ->
  ObjectId.new expenseId = inr (_id e) ->
  ObjectId.new user = inr (userId e) ->
  exists c',
    ExpenseRepository.deleteByIdAndUserId Mongo.driver expenseId user c = (inr true, c')
    /\ (forall x, x ∈ docs c' <-> x ∈ docs c /\ x <> e)
    /\ S (List.length (docs c')) = List.length (docs c)
    /\ ExpenseRepository.findByIdAndUserId Mongo.driver expenseId user c' = (inr None, c')
    /\ ExpenseRepository.deleteByIdAndUserId Mongo.driver expenseId user c' = (inr false, c')
    /\ forall r : Redis,
         ExpenseService.deleteExpense Mongo.driver expenseId user {| store := c'; redis := r |}
         = (inl (ApiError "Expense not found" 404), {| store := c'; redis := r |}).
Proof.
  intros Hnd He Hid Huser.
  set (rest := List.filter (fun x => negb (bool_decide (_id x = _id e))) (docs c)).
  set (q := {| q_id := Some (_id e); q_userId := Some (userId e); q_gte := None;
               q_lte := None; q_category := None |}).
  exists {| docs := rest; nextId := nextId c |}.
  assert (Hgone : forall x, x ∈ rest -> matches q x = false).
  { intros x Hx. apply list_elem_of_In, filter_In in Hx as [_ Hx].
    unfold q. rewrite matches_id_user_eq.
    apply negb_true_iff in Hx. now rewrite Hx. }
  assert (Hagain : ExpenseRepository.deleteByIdAndUserId Mongo.driver expenseId user
                     {| docs := rest; nextId := nextId c |}
                   = (inr false, {| docs := rest; nextId := nextId c |})).
  { rewrite (deleteByIdAndUserId_writes _ _ _ _ _ Hid Huser). cbn [docs nextId]. fold q.
    rewrite (delete_first_none q rest Hgone). reflexivity. }
  split; [| split; [| split; [| split; [| split]]]].
  - rewrite (deleteByIdAndUserId_writes _ _ _ _ _ Hid Huser).
    rewrite (delete_first_unique _ _ Hnd He). reflexivity.
  - intros x. cbn [docs]. unfold rest. split.
    + intros Hx. apply list_elem_of_In, filter_In in Hx as [Hin Hx].
      split; [now apply list_elem_of_In |]. intros ->.
      rewrite bool_decide_eq_true_2 in Hx by reflexivity. discriminate Hx.
    + intros [Hin Hne]. apply list_elem_of_In, filter_In. split; [now apply list_elem_of_In |].
      rewrite bool_decide_eq_false_2; [reflexivity |].
      intros Hxe. apply Hne. exact (id_unique _ _ _ Hnd Hin He Hxe).
  - cbn [docs]. unfold rest. clear -Hnd He.
    induction (docs c) as [|a l IH]; [inversion He |].
    simpl in Hnd. apply NoDup_cons in Hnd as [Hna Hnd].
    cbn [List.filter]. apply elem_of_cons in He as [<- | He].
    + rewrite bool_decide_eq_true_2 by reflexivity. cbn [negb List.length]. f_equal.
      f_equal. apply forallb_filter_id, forallb_forall. intros x Hx.
      rewrite bool_decide_eq_false_2; [reflexivity |].
      intros Hxe. apply Hna. rewrite <- Hxe. apply list_elem_of_In, in_map, Hx.
    + rewrite bool_decide_eq_false_2.
      * cbn [negb List.length]. f_equal. apply IH; assumption.
      * intros Hae. apply Hna. rewrite Hae. apply list_elem_of_In, in_map, list_elem_of_In, He.
  - rewrite (findByIdAndUserId_reads _ _ _ _ _ Hid Huser). cbn [docs]. fold q.
    rewrite (filter_none _ _ Hgone). reflexivity.
  - exact Hagain.
  - intros r. rewrite deleteExpense_run. cbn [store redis]. rewrite Hagain. reflexivity.
Qed.

Lemma delete_effect_witness :
  exists c',
    ExpenseRepository.deleteByIdAndUserId Mongo.driver "000000000000000000000002" alice
      week_of_expenses = (inr true, c')
    /\ List.length (docs c') = 2%nat
    /\ ExpenseRepository.deleteByIdAndUserId Mongo.driver "000000000000000000000002" alice c'
       = (inr false, c').
Proof.
  assert (He : exists e, nth_error (docs week_of_expenses) 1 = Some e
                         /\ ObjectId.new "000000000000000000000002" = inr (_id e)
                         /\ ObjectId.new alice = inr (userId e)).
  { eexists. split; [vm_compute; reflexivity |]. split; vm_compute; reflexivity. }
  destruct He as (e & Hnth & Hid & Ha).
  destruct (delete_effect week_of_expenses e "000000000000000000000002" alice)
    as (c' & Hrun & _ & Hlen & _ & Hagain & _).
  { refine (bool_decide_unpack _ _). vm_compute. exact I. }
  { apply list_elem_of_In. eapply nth_error_In. exact Hnth. }
  { exact Hid. }
  { exact Ha. }
  exists c'. split; [exact Hrun | split; [| exact Hagain]].
  assert (Hthree : List.length (docs week_of_expenses) = 3%nat) by (vm_compute; reflexivity).
  rewrite Hthree in Hlen. injection Hlen as Hlen. exact Hlen.
Defined.

(** ** Listings, counts and bulk deletion *)

Lemma matches_owner (uid : ObjectId) (x : Expense) :
  matches (ExpenseRepository.build_query uid None None None) x = bool_decide (userId x = uid).
Proof. unfold matches, ExpenseRepository.build_query; simpl. now rewrite !andb_true_r. Qed.

Lemma matches_build_query (uid : ObjectId) (startDate endDate : option Date)
    (cat : option string) (x : Expense) :
  matches (ExpenseRepository.build_query uid startDate endDate cat) x = true ->
  userId x = uid
  /\ (forall d, startDate = Some d -> d <= createdAt x)
  /\ (forall d, endDate = Some d -> createdAt x <= d)
  /\ (forall c, cat = Some c -> c <> "" -> category x = c).
Proof.
  unfold matches, ExpenseRepository.build_query; cbn [q_id q_userId q_gte q_lte q_category holds].
  intros H. apply andb_true_iff in H as [H Hc]. apply andb_true_iff in H as [H Hl].
  apply andb_true_iff in H as [H Hg]. apply andb_true_iff in H as [_ Hu].
  apply bool_decide_eq_true in Hu.
  split; [exact Hu |]. split; [| split].
  - intros d ->. simpl in Hg. lia.
  - intros d ->. simpl in Hl. lia.
  - intros c -> Hne. destruct c; [congruence |]. simpl in Hc.
    now apply bool_decide_eq_true in Hc.
Qed.

Lemma sorted_app_order {A} (R : A -> A -> Prop) (l1 l2 : list A) :
  StronglySorted R (l1 ++ l2) -> forall x y, x ∈ l1 -> y ∈ l2 -> R x y.
Proof.
  induction l1 as [|a l1 IH]; intros Hs x y Hx Hy; [inversion Hx |].
  simpl in Hs. apply StronglySorted_inv in Hs as [Hs Ha].
  apply elem_of_cons in Hx as [-> | Hx]; [| now apply IH].
  apply (proj1 (Forall_forall _ _) Ha). apply elem_of_app; now right.
Qed.

Lemma page_length {A} (skip limit : Z) (l : list A) :
  0 <= skip -> 0 < limit ->
  Z.of_nat (List.length (Mongo.page skip limit l))
  = Z.min limit (Z.max 0 (Z.of_nat (List.length l) - skip)).
Proof.
  intros Hs Hl. unfold Mongo.page.
  destruct (Z.eqb_spec limit 0); [lia |].
  rewrite length_take, length_drop. lia.
Qed.

(** X8. [findWithFilters] on a store that answers within the sort
    contract, for a positive limit and an offset that is not negative:
    the page is newest first and holds min(limit, total - offset) expenses
    (none past the end), [total] counts every matching document whatever
    the page, and every expense returned is a document of the store that
    belongs to the filter's user, lies within the date bounds given and
    has the category given: no listing shows another user's expense. *)
Theorem listing_sound {S} (collection : Driver S) (docs_of : S -> list Expense)
    (uid : ObjectId) (startDate endDate : option Date) (cat : option string)
    (limit offset : Z) (s : S) :
  lawful collection docs_of -> 0 < limit -> 0 <= offset ->
  exists expenses total,
    ExpenseRepository.findWithFilters collection
      (page_filter uid startDate endDate cat limit offset) s
    = (inr (expenses, total), s)
    /\ total = Z.of_nat (List.length
                 (List.filter (matches (ExpenseRepository.build_query uid startDate endDate
                                          cat)) (docs_of s)))
    /\ Z.of_nat (List.length expenses) = Z.min limit (Z.max 0 (total - offset))
    /\ StronglySorted newer_or_same expenses
    /\ forall x, x ∈ expenses ->
         x ∈ docs_of s /\ userId x = uid
         /\ (forall d, startDate = Some d -> d <= createdAt x)
         /\ (forall d, endDate = Some d -> createdAt x <= d)
         /\ (forall c, cat = Some c -> c <> "" -> category x = c).
Proof.
  intros Hlaw Hlim Hoff.
  destruct (findWithFilters_lawful collection docs_of uid startDate endDate cat limit
              offset s Hlaw Hlim) as (r & Hrun & l & HP & Hsorted & ->); [lia |].
  do 2 eexists. split; [exact Hrun |]. split; [reflexivity |].
  split; [| split].
  - rewrite page_length by lia. now rewrite (Permutation_length HP).
  - unfold Mongo.page. destruct (Z.eqb_spec limit 0); [lia |].
    apply StronglySorted_take.
    rewrite <- (take_drop (Z.to_nat offset) l) in Hsorted.
    clear -Hsorted. induction (take (Z.to_nat offset) l) as [|a t IH]; [exact Hsorted |].
    simpl in Hsorted. apply StronglySorted_inv in Hsorted as [Hs _]. exact (IH Hs).
  - intros x Hx.
    assert (Hin : In x (List.filter (matches (ExpenseRepository.build_query uid startDate
                                                endDate cat)) (docs_of s))).
    { eapply Permutation_in; [exact HP |]. apply list_elem_of_In.
      exact (page_subset _ _ _ _ Hx). }
    apply filter_In in Hin as [Hin Hm].
    split; [now apply list_elem_of_In | now apply matches_build_query].
Qed.

Lemma listing_sound_witness :
  let c := {| docs := numbered (fun k => 1000 * k) 25; nextId := 26 |} in
  exists expenses,
    ExpenseRepository.findWithFilters Mongo.driver
      (page_filter {| toHexString := alice |} None None None 20 20) c = (inr (expenses, 25), c)
    /\ List.length expenses = 5%nat.
Proof.
  intros c.
  destruct (listing_sound Mongo.driver docs {| toHexString := alice |} None None None 20 20 c
              mongo_lawful) as (expenses & total & Hrun & Htotal & Hlen & _); [lia | lia |].
  assert (Ht : total = 25) by (rewrite Htotal; vm_compute; reflexivity).
  subst total. exists expenses. split; [exact Hrun | lia].
Defined.

Lemma getRecentExpenses_run {S} (collection : Driver S) (user : string) (limit : Z)
    (w : World S) :
  ExpenseService.getRecentExpenses collection user limit w
  = match ExpenseRepository.getRecentByUserId collection user limit (store w) with
    | (inr expenses, s') => (inr (VArr (map transformExpenseToResponse expenses)),
                             {| store := s'; redis := redis w |})
    | (inl _, s') => (inl (ApiError "Failed to get recent expenses" 500),
                      {| store := s'; redis := redis w |})
    end.
Proof.
  unfold ExpenseService.getRecentExpenses; run. rewrite repository_run.
  destruct (ExpenseRepository.getRecentByUserId collection user limit (store w))
    as [[e|l] s']; reflexivity.
Qed.

(** X9. [getRecentByUserId] on a store that answers within the sort
    contract, for a well-formed user and a positive limit: it returns
    min(limit, number of the user's expenses) documents, all of them the
    user's, newest first, and no expense of the user that is left out is
    newer than one that is returned; [getRecentExpenses] returns their
    response forms in the same order. Nothing is written. *)
Theorem recent_expenses {S} (collection : Driver S) (docs_of : S -> list Expense)
    (user : string) (uid : ObjectId) (limit : Z) (s : S) :
  lawful collection docs_of -> ObjectId.new user = inr uid -> 0 < limit ->
  exists recent,
    ExpenseRepository.getRecentByUserId collection user limit s = (inr recent, s)
    /\ Z.of_nat (List.length recent)
       = Z.min limit (Z.of_nat (List.length
                        (List.filter (fun e => bool_decide (userId e = uid)) (docs_of s))))
    /\ StronglySorted newer_or_same recent
    /\ (forall x, x ∈ recent -> x ∈ docs_of s /\ userId x = uid)
    /\ (forall x y, x ∈ recent -> y ∈ docs_of s -> userId y = uid -> y ∉ recent ->
          createdAt y <= createdAt x)
    /\ forall r : Redis,
         ExpenseService.getRecentExpenses collection user limit {| store := s; redis := r |}
         = (inr (VArr (map transformExpenseToResponse recent)), {| store := s; redis := r |}).
Proof.
  intros Hlaw Huid Hlim.
  set (q := ExpenseRepository.build_query uid None None None).
  destruct (Hlaw q 0 limit s) as [(recent & Hfind & l & HP & Hsorted & ->) _]; [lia |].
  assert (Hq : List.filter (matches q) (docs_of s)
               = List.filter (fun e => bool_decide (userId e = uid)) (docs_of s)).
  { apply filter_ext. intros x. apply matches_owner. }
  rewrite Hq in HP.
  assert (Hrun : ExpenseRepository.getRecentByUserId collection user limit s
                 = (inr (Mongo.page 0 limit l), s)).
  { unfold ExpenseRepository.getRecentByUserId; run.
    rewrite (new_valid _ _ Huid); simpl. rewrite Huid. fold q. now rewrite Hfind. }
  assert (Hpage : Mongo.page 0 limit l = take (Z.to_nat limit) l).
  { unfold Mongo.page. destruct (Z.eqb_spec limit 0); [lia |].
    simpl. now rewrite Z.abs_eq by lia. }
  exists (Mongo.page 0 limit l). split; [exact Hrun |].
  split; [| split; [| split; [| split]]].
  - rewrite page_length by lia. rewrite (Permutation_length HP). lia.
  - rewrite Hpage. now apply StronglySorted_take.
  - intros x Hx. apply page_subset in Hx.
    assert (Hin : In x (List.filter (fun e => bool_decide (userId e = uid)) (docs_of s)))
      by (eapply Permutation_in; [exact HP | now apply list_elem_of_In]).
    apply filter_In in Hin as [Hin Hu]. apply bool_decide_eq_true in Hu.
    split; [now apply list_elem_of_In | exact Hu].
  - intros x y Hx Hy Hown Hout. rewrite Hpage in Hx, Hout.
    assert (Hyl : y ∈ l).
    { apply list_elem_of_In. eapply Permutation_in; [apply Permutation_sym, HP |].
      apply filter_In. split; [now apply list_elem_of_In | now apply bool_decide_eq_true]. }
    rewrite <- (take_drop (Z.to_nat limit) l) in Hyl, Hsorted.
    apply elem_of_app in Hyl as [Hyl | Hyl]; [contradiction |].
    exact (sorted_app_order _ _ _ Hsorted x y Hx Hyl).
  - intros r. rewrite getRecentExpenses_run. cbn [store redis]. now rewrite Hrun.
Qed.

Lemma recent_expenses_witness :
  let c := {| docs := numbered (fun k => 1000 * k) 25; nextId := 26 |} in
  exists recent,
    ExpenseRepository.getRecentByUserId Mongo.driver alice 10 c = (inr recent, c)
    /\ List.length recent = 10%nat
    /\ StronglySorted newer_or_same recent.
Proof.
  intros c.
  destruct (recent_expenses Mongo.driver docs alice {| toHexString := alice |} 10 c
              mongo_lawful eq_refl) as (recent & Hrun & Hlen & Hsorted & _); [lia |].
  exists recent. split; [exact Hrun | split; [| exact Hsorted]].
  assert (Hn : List.length (List.filter (fun e => bool_decide (userId e = {| toHexString := alice |}))
                              (docs c)) = 25%nat) by (vm_compute; reflexivity).
  rewrite Hn in Hlen. lia.
Defined.

Lemma getSummary_totals (c : Collection) (user : string) (uid : ObjectId)
    (startDate endDate : option Date) :
  ObjectId.new user = inr uid ->
  exists summary,
    ExpenseRepository.getSummary Mongo.driver user startDate endDate c = (inr summary, c)
    /\ totalCount summary
       = Z.of_nat (List.length
                     (List.filter (matches (ExpenseRepository.build_query uid startDate endDate
                                              None)) (docs c)))
    /\ totalAmount summary
       = Double.sum
           (map amount (List.filter (matches (ExpenseRepository.build_query uid startDate
                                                endDate None)) (docs c))).
Proof.
  intros Huid.
  unfold ExpenseRepository.getSummary, ExpenseRepository.aggregate; run.
  rewrite (new_valid _ _ Huid), Huid; simpl. unfold Pipeline.run.
  remember (List.filter (matches (ExpenseRepository.build_query uid startDate endDate None))
                        (docs c)) as matching eqn:Hm.
  clear Hm. destruct matching as [|e0 l0].
  - eexists; split; [reflexivity | split; reflexivity].
  - remember (e0 :: l0) as l eqn:Hl.
    assert (Hne : l <> []) by (subst l; discriminate). clear Hl.
    rewrite pipeline_middle by exact Hne. cbn [map].
    eexists; split; [reflexivity | split; reflexivity].
Qed.

Lemma countByUserId_reads {S} (collection : Driver S) (docs_of : S -> list Expense)
    (user : string) (uid : ObjectId) (s : S) :
  lawful collection docs_of -> ObjectId.new user = inr uid ->
  ExpenseRepository.countByUserId collection user s
  = (inr (Z.of_nat (List.length
                      (List.filter (fun e => bool_decide (userId e = uid)) (docs_of s)))), s).
Proof.
  intros Hlaw Huid.
  unfold ExpenseRepository.countByUserId; run.
  rewrite (new_valid _ _ Huid); simpl. rewrite Huid.
  destruct (Hlaw (ExpenseRepository.build_query uid None None None) 0 0 s) as [_ ->]; [lia |].
  do 4 f_equal. apply filter_ext. intros x. apply matches_owner.
Qed.

(** X10. Three code paths count a well-formed user's expenses and agree on
    the behaving store: [countByUserId], the [total] that [findWithFilters]
    reports with no date or category filter (whatever the page), and the
    [totalCount] of [getSummary] with no date range; each is the number of
    documents whose owner is the user, and none of them writes. *)
Theorem expense_counts_agree (c : Collection) (user : string) (uid : ObjectId) :
  ObjectId.new user = inr uid ->
  let n := Z.of_nat (List.length
                       (List.filter (fun e => bool_decide (userId e = uid)) (docs c))) in
  ExpenseRepository.countByUserId Mongo.driver user c = (inr n, c)
  /\ (forall limit offset, 0 < limit -> 0 <= offset ->
        exists expenses,
          ExpenseRepository.findWithFilters Mongo.driver
            (page_filter uid None None None limit offset) c = (inr (expenses, n), c))
  /\ exists summary,
       ExpenseRepository.getSummary Mongo.driver user None None c = (inr summary, c)
       /\ totalCount summary = n.
Proof.
  intros Huid n.
  assert (Hq : List.filter (matches (ExpenseRepository.build_query uid None None None)) (docs c)
               = List.filter (fun e => bool_decide (userId e = uid)) (docs c)).
  { apply filter_ext. intros x. apply matches_owner. }
  split; [exact (countByUserId_reads Mongo.driver docs user uid c mongo_lawful Huid) |].
  split.
  - intros limit offset Hlim Hoff.
    destruct (findWithFilters_lawful Mongo.driver docs uid None None None limit offset c
                mongo_lawful Hlim) as (r & Hrun & _); [lia |].
    exists r. rewrite Hrun, Hq. reflexivity.
  - destruct (getSummary_totals c user uid None None Huid) as (summary & Hrun & Hcount & _).
    exists summary. split; [exact Hrun |]. rewrite Hcount, Hq. reflexivity.
Qed.

Lemma expense_counts_agree_witness :
  ExpenseRepository.countByUserId Mongo.driver alice week_of_expenses
  = (inr 3, week_of_expenses)
  /\ ExpenseRepository.countByUserId Mongo.driver bob week_of_expenses
     = (inr 0, week_of_expenses).
Proof.
  destruct (expense_counts_agree week_of_expenses alice {| toHexString := alice |} eq_refl)
    as [Ha _].
  destruct (expense_counts_agree week_of_expenses bob {| toHexString := bob |} eq_refl)
    as [Hb _].
  split; [rewrite Ha | rewrite Hb]; vm_compute; reflexivity.
Defined.

(** X11. [deleteAllByUserId] on the behaving store: for a well-formed user
    it removes every document of the user and no other, in one call, and
    returns how many there were; afterwards the user's count is 0 and a
    second call returns 0. For a user identifier that is not well-formed it
    returns 0 without calling the store at all, whatever the store. *)
Theorem deleteAll_effect (c : Collection) (user : string) (uid : ObjectId) :
  ObjectId.new user = inr uid ->
  (exists c',
     ExpenseRepository.deleteAllByUserId Mongo.deleteMany user c
     = (inr (Z.of_nat (List.length
                         (List.filter (fun e => bool_decide (userId e = uid)) (docs c)))), c')
     /\ (forall x, x ∈ docs c' <-> x ∈ docs c /\ userId x <> uid)
     /\ ExpenseRepository.countByUserId Mongo.driver user c' = (inr 0, c')
     /\ ExpenseRepository.deleteAllByUserId Mongo.deleteMany user c' = (inr 0, c'))
  /\ forall S (deleteMany : Query -> M S DeleteResult) (malformed : string) (s : S),
       ObjectId.isValid malformed = false ->
       ExpenseRepository.deleteAllByUserId deleteMany malformed s = (inr 0, s).
Proof.
  intros Huid. split.
  - set (q := ExpenseRepository.build_query uid None None None).
    set (rest := List.filter (fun e => negb (matches q e)) (docs c)).
    assert (Hrun : forall c0, ExpenseRepository.deleteAllByUserId Mongo.deleteMany user c0
              = (inr (Z.of_nat (List.length (List.filter (matches q) (docs c0)))),
                 {| docs := List.filter (fun e => negb (matches q e)) (docs c0);
                    nextId := nextId c0 |})).
    { intros c0. unfold ExpenseRepository.deleteAllByUserId; run.
      rewrite (new_valid _ _ Huid); simpl. rewrite Huid. reflexivity. }
    assert (Hq : forall l, List.filter (matches q) l
                           = List.filter (fun e => bool_decide (userId e = uid)) l).
    { intros l. apply filter_ext. intros x. apply matches_owner. }
    assert (Hnone : List.filter (fun e => bool_decide (userId e = uid)) rest = []).
    { apply filter_none. intros x Hx. apply list_elem_of_In, filter_In in Hx as [_ Hx].
      unfold q in Hx. rewrite matches_owner in Hx. now apply negb_true_iff in Hx. }
    exists {| docs := rest; nextId := nextId c |}.
    split; [rewrite Hrun, Hq; reflexivity |]. split; [| split].
    + intros x. cbn [docs]. unfold rest, q. split.
      * intros Hx. apply list_elem_of_In, filter_In in Hx as [Hin Hx].
        rewrite matches_owner in Hx. apply negb_true_iff, bool_decide_eq_false in Hx.
        split; [now apply list_elem_of_In | exact Hx].
      * intros [Hin Hne]. apply list_elem_of_In, filter_In.
        split; [now apply list_elem_of_In |].
        rewrite matches_owner. now apply negb_true_iff, bool_decide_eq_false.
    + rewrite (countByUserId_reads Mongo.driver docs user uid _ mongo_lawful Huid).
      cbn [docs]. now rewrite Hnone.
    + rewrite Hrun. cbn [docs nextId]. rewrite Hq, Hnone. cbn [List.length Z.of_nat].
      do 2 f_equal. apply forallb_filter_id, forallb_forall. intros x Hx.
      apply filter_In in Hx as [_ Hx]. exact Hx.
  - intros S deleteMany malformed s Hbad.
    unfold ExpenseRepository.deleteAllByUserId; run. now rewrite Hbad.
Qed.

Lemma deleteAll_effect_witness :
  exists c',
    ExpenseRepository.deleteAllByUserId Mongo.deleteMany alice week_of_expenses = (inr 3, c')
    /\ ExpenseRepository.countByUserId Mongo.driver alice c' = (inr 0, c').
Proof.
  destruct (deleteAll_effect week_of_expenses alice {| toHexString := alice |} eq_refl)
    as [(c' & Hrun & _ & Hcount & _) _].
  exists c'. split; [| exact Hcount].
  rewrite Hrun. vm_compute. reflexivity.
Defined.

(** ** Paging parameters that are not positive numbers *)

(** X12. What [getExpenses] asks of the repository when its paging
    parameters are not positive numbers and the cache has no answer: with a
    limit that reads as NaN or as 0 the query is the one of the first page
    of 20 whatever the page asked for, and with a page that reads as NaN it
    is the one of the first page; the response reports the page and the
    limit as read, and is cached under the key of the request as made. *)
Theorem paging_fallbacks {S} (collection : Driver S) (rt : Runtime) (user : string)
    (uid : ObjectId) (period startDate endDate cat page limit : option string) (w : World S) :
  ObjectId.new user = inr uid ->
  let request := listing_request period startDate endDate cat in
  let key := ExpenseService.getExpensesCacheKey user
               (listing_filters rt uid (request page limit)) in
  truthy (if reachable (redis w) then cached (redis w) key else VNull) = false ->
  let served (used : ExpenseQueryParams.t) :=
    match ExpenseRepository.findWithFilters collection (listing_filters rt uid used) (store w)
    with
    | (inr found, s') =>
        let w' := {| store := s'; redis := redis w |} in
        (inr (listing (request page limit) found),
         if reachable (redis w)
         then stored key (listing (request page limit) found) EXPENSE_CACHE_TTL w' else w')
    | (inl e, s') =>
        (inl (if instanceof_ApiError e then e else ApiError "Failed to get expenses" 500),
         {| store := s'; redis := redis w |})
    end in
  (parsed_or limit "20" = NaN \/ parsed_or limit "20" = Num 0 ->
   ExpenseService.getExpenses collection rt user (request page limit) w
   = served (request None None))
  /\ (parsed_or page "1" = NaN ->
      ExpenseService.getExpenses collection rt user (request page limit) w
      = served (request None limit)).
Proof.
  intros Huid request key Hmiss served.
  assert (Hrun : ExpenseService.getExpenses collection rt user (request page limit) w
                 = served (request page limit)).
  { rewrite (getExpenses_read_through collection rt user (request page limit) w uid Huid)
      by exact Hmiss.
    reflexivity. }
  assert (Hquery : forall used,
             number_or (default NaN (ExpenseFilter.limit
                                       (listing_filters rt uid (request page limit)))) 20
             = number_or (default NaN (ExpenseFilter.limit (listing_filters rt uid used))) 20 ->
             number_or (default NaN (ExpenseFilter.offset
                                       (listing_filters rt uid (request page limit)))) 0
             = number_or (default NaN (ExpenseFilter.offset (listing_filters rt uid used))) 0 ->
             ExpenseQueryParams.period used = period ->
             ExpenseQueryParams.startDate used = startDate ->
             ExpenseQueryParams.endDate used = endDate ->
             ExpenseQueryParams.category used = cat ->
             served (request page limit) = served used).
  { intros used Hl Ho Hp Hs He Hc. unfold served.
    assert (Hsame : ExpenseRepository.findWithFilters collection
                      (listing_filters rt uid (request page limit)) (store w)
                    = ExpenseRepository.findWithFilters collection (listing_filters rt uid used)
                        (store w)).
    { unfold ExpenseRepository.findWithFilters. rewrite Hl, Ho.
      unfold listing_filters. cbn [ExpenseFilter.userId ExpenseFilter.startDate
        ExpenseFilter.endDate ExpenseFilter.category].
      unfold request, listing_request.
      cbn [ExpenseQueryParams.period ExpenseQueryParams.startDate ExpenseQueryParams.endDate
           ExpenseQueryParams.category].
      now rewrite Hp, Hs, He, Hc. }
    now rewrite Hsame. }
  change (parseInt "20") with (Num 20) in *.
  split.
  - intros Hlimit. rewrite Hrun. apply Hquery; try reflexivity.
    + unfold listing_filters, request, listing_request.
      cbn [ExpenseFilter.limit ExpenseQueryParams.limit default string_truthy].
      fold (parsed_or limit "20"). change (parseInt "20") with (Num 20).
      destruct Hlimit as [-> | ->]; reflexivity.
    + unfold listing_filters, request, listing_request.
      cbn [ExpenseFilter.offset ExpenseQueryParams.limit ExpenseQueryParams.page default
           string_truthy].
      fold (parsed_or limit "20"). fold (parsed_or page "1").
      change (parseInt "20") with (Num 20). change (parseInt "1") with (Num 1).
      destruct Hlimit as [-> | ->]; destruct (parsed_or page "1") as [|p]; simpl;
        rewrite ?Z.mul_0_r; reflexivity.
  - intros Hpage. rewrite Hrun. apply Hquery; try reflexivity.
    unfold listing_filters, request, listing_request.
    cbn [ExpenseFilter.offset ExpenseQueryParams.limit ExpenseQueryParams.page default
         string_truthy].
    fold (parsed_or limit "20"). fold (parsed_or page "1").
    change (parseInt "1") with (Num 1). rewrite Hpage.
    destruct (parsed_or limit "20") as [|l]; simpl; [reflexivity |].
    now destruct (Z.eqb_spec (0 * l) 0); [| lia].
Qed.

Lemma paging_fallbacks_witness :
  let w := {| store := {| docs := numbered (fun k => 1000 * k) 25; nextId := 26 |};
              redis := {| reachable := false; data := ∅ |} |} in
  exists found,
    ExpenseService.getExpenses Mongo.driver rt0 alice
      (listing_request None None None None (Some "3") (Some "0")) w
    = (inr (listing (listing_request None None None None (Some "3") (Some "0")) found), w)
    /\ List.length (fst found) = 20%nat.
Proof.
  intros w.
  destruct (paging_fallbacks Mongo.driver rt0 alice {| toHexString := alice |} None None None None
              (Some "3") (Some "0") w eq_refl eq_refl) as [Hzero _].
  assert (Hres : exists found,
             ExpenseRepository.findWithFilters Mongo.driver
               (listing_filters rt0 {| toHexString := alice |}
                  (listing_request None None None None None None)) (store w)
             = (inr found, store w)
             /\ List.length (fst found) = 20%nat).
  { eexists. split; [vm_compute; reflexivity | vm_compute; reflexivity]. }
  destruct Hres as (found & Hres & Hlen).
  exists found. split; [| exact Hlen].
  rewrite Hzero by (right; reflexivity). rewrite Hres. reflexivity.
Defined.

(** ** What the service rejects with *)

Lemma rethrow_is_ApiError {W A} (m : M W A) (message : string) (w w' : W) (e : Exn) :
  try_catch m (rethrow_ApiError_or message) w = (inl e, w') -> instanceof_ApiError e = true.
Proof.
  unfold try_catch, rethrow_ApiError_or, throw.
  destruct (m w) as [[x|a] w0]; [| discriminate].
  destruct (instanceof_ApiError x) eqn:Hx; intros [= <- _]; [exact Hx | reflexivity].
Qed.

Lemma wrap_is_500 {W A} (m : M W A) (message : string) (w w' : W) (e : Exn) :
  try_catch m (wrap_as message) w = (inl e, w') -> e = ApiError message 500.
Proof.
  unfold try_catch, wrap_as, throw.
  destruct (m w) as [[x|a] w0]; [| discriminate]. now intros [= <- _].
Qed.

(** X13. Whatever the store and the cache do, a method of the service
    rejects with an [ApiError] only: nothing else that is thrown below it
    (by the identifier constructor, the driver or the cache client) reaches
    the caller; and a failure of [getRecentExpenses] is always the 500
    "Failed to get recent expenses", whatever its cause. *)
Theorem service_rejects_with_ApiError {S} (collection : Driver S) (rt : Runtime)
    (user expenseId : string) (w w' : World S) (e : Exn) :
  (forall expenseData,
     ExpenseService.createExpense collection rt user expenseData w = (inl e, w') ->
     instanceof_ApiError e = true)
  /\ (forall queryParams,
        ExpenseService.getExpenses collection rt user queryParams w = (inl e, w') ->
        instanceof_ApiError e = true)
  /\ (ExpenseService.getExpenseById collection expenseId user w = (inl e, w') ->
      instanceof_ApiError e = true)
  /\ (forall updates,
        ExpenseService.updateExpense collection rt expenseId user updates w = (inl e, w') ->
        instanceof_ApiError e = true)
  /\ (ExpenseService.deleteExpense collection expenseId user w = (inl e, w') ->
      instanceof_ApiError e = true)
  /\ (forall queryParams,
        ExpenseService.getExpenseSummary collection rt user queryParams w = (inl e, w') ->
        instanceof_ApiError e = true)
  /\ (forall limit,
        ExpenseService.getRecentExpenses collection user limit w = (inl e, w') ->
        e = ApiError "Failed to get recent expenses" 500).
Proof.
  repeat split; intros; try (eapply rethrow_is_ApiError; eassumption).
  eapply wrap_is_500; eassumption.
Qed.

Lemma service_rejects_with_ApiError_witness :
  ExpenseService.getExpenses offline rt0 alice no_params (cold tt)
  = (inl (ApiError "Failed to fetch expenses" 500), cold tt)
  /\ instanceof_ApiError (ApiError "Failed to fetch expenses" 500) = true.
Proof.
  assert (Hrun : ExpenseService.getExpenses offline rt0 alice no_params (cold tt)
                 = (inl (ApiError "Failed to fetch expenses" 500), cold tt))
    by (vm_compute; reflexivity).
  split; [exact Hrun |].
  destruct (service_rejects_with_ApiError offline rt0 alice "" (cold tt) (cold tt)
              (ApiError "Failed to fetch expenses" 500)) as (_ & Hlist & _).
  exact (Hlist no_params Hrun).
Defined.

(** X14. One malformed user identifier, six answers: on every driver and
    leaving store and cache as they are, [createExpense] rejects it as
    "Invalid user ID" (400); [getExpenseById], [updateExpense] and
    [deleteExpense] as "Expense not found" (404); [getExpenseSummary] (on a
    cache miss) and [getRecentExpenses] as a 500, because the repository's
    [getSummary], [countByUserId] and [getRecentByUserId] catch their own
    "Invalid user ID" and replace it. *)
Theorem malformed_user_by_method {S} (collection : Driver S) (rt : Runtime)
    (user expenseId : string) (w : World S) :
  ObjectId.isValid user = false ->
  (forall expenseData,
     ExpenseService.createExpense collection rt user expenseData w
     = (inl (ApiError "Invalid user ID" 400), w))
  /\ ExpenseService.getExpenseById collection expenseId user w
     = (inl (ApiError "Expense not found" 404), w)
  /\ (forall updates,
        ExpenseService.updateExpense collection rt expenseId user updates w
        = (inl (ApiError "Expense not found" 404), w))
  /\ ExpenseService.deleteExpense collection expenseId user w
     = (inl (ApiError "Expense not found" 404), w)
  /\ (forall startDate endDate,
        ExpenseRepository.getSummary collection user startDate endDate (store w)
        = (inl (ApiError "Failed to get expense summary" 500), store w))
  /\ ExpenseRepository.countByUserId collection user (store w)
     = (inl (ApiError "Failed to count expenses" 500), store w)
  /\ (forall limit,
        ExpenseRepository.getRecentByUserId collection user limit (store w)
        = (inl (ApiError "Failed to get recent expenses" 500), store w)
        /\ ExpenseService.getRecentExpenses collection user limit w
           = (inl (ApiError "Failed to get recent expenses" 500), w))
  /\ (forall queryParams,
        truthy (if reachable (redis w)
                then cached (redis w)
                       (RedisClient.getExpenseSummaryCacheKey user
                          (ExpenseQueryParams.period queryParams))
                else VNull) = false ->
        ExpenseService.getExpenseSummary collection rt user queryParams w
        = (inl (ApiError "Failed to get expense summary" 500), w)).
Proof.
  intros Hbad.
  assert (Hsum : forall startDate endDate,
             ExpenseRepository.getSummary collection user startDate endDate (store w)
             = (inl (ApiError "Failed to get expense summary" 500), store w)).
  { intros. unfold ExpenseRepository.getSummary; run. now rewrite Hbad. }
  assert (Hrecent : forall limit,
             ExpenseRepository.getRecentByUserId collection user limit (store w)
             = (inl (ApiError "Failed to get recent expenses" 500), store w)).
  { intros. unfold ExpenseRepository.getRecentByUserId; run. now rewrite Hbad. }
  split; [| split; [| split; [| split; [| split; [| split; [| split]]]]]].
  - intros expenseData.
    change (ExpenseService.createExpense collection rt user expenseData w)
      with (mutate collection rt user (Create expenseData) w).
    rewrite mutate_run.
    assert (ExpenseRepository.create collection rt user expenseData (store w)
            = (inl (ApiError "Invalid user ID" 400), store w)) as ->
      by (unfold ExpenseRepository.create; run; now rewrite Hbad).
    simpl. now rewrite World_eta.
  - rewrite getExpenseById_run, findByIdAndUserId_malformed by now right.
    now rewrite World_eta.
  - intros updates.
    change (ExpenseService.updateExpense collection rt expenseId user updates w)
      with (mutate collection rt user (Update expenseId updates) w).
    rewrite mutate_run.
    assert (ExpenseRepository.updateByIdAndUserId collection rt expenseId user updates (store w)
            = (inr None, store w)) as ->
      by (unfold ExpenseRepository.updateByIdAndUserId; run; now rewrite Hbad, orb_true_r).
    now rewrite World_eta.
  - rewrite deleteExpense_run.
    assert (ExpenseRepository.deleteByIdAndUserId collection expenseId user (store w)
            = (inr false, store w)) as ->
      by (unfold ExpenseRepository.deleteByIdAndUserId; run; now rewrite Hbad, orb_true_r).
    now rewrite World_eta.
  - exact Hsum.
  - unfold ExpenseRepository.countByUserId; run. now rewrite Hbad.
  - intros limit. split; [apply Hrecent |].
    rewrite getRecentExpenses_run, Hrecent. now rewrite World_eta.
  - intros queryParams Hmiss.
    rewrite (getExpenseSummary_read_through collection rt user queryParams w Hmiss), Hsum.
    simpl. now rewrite World_eta.
Qed.

Lemma malformed_user_by_method_witness :
  ExpenseService.createExpense Mongo.driver rt0 "me" (dto "milk" 250 "Groceries")
    (cold week_of_expenses)
  = (inl (ApiError "Invalid user ID" 400), cold week_of_expenses)
  /\ ExpenseService.getExpenseSummary Mongo.driver rt0 "me" (summary_params None)
       (cold week_of_expenses)
     = (inl (ApiError "Failed to get expense summary" 500), cold week_of_expenses).
Proof.
  destruct (malformed_user_by_method Mongo.driver rt0 "me" "" (cold week_of_expenses) eq_refl)
    as (Hcreate & _ & _ & _ & _ & _ & _ & Hsum).
  split; [apply Hcreate | apply Hsum; reflexivity].
Defined.

(** ** A cached answer and the store *)

(** X15. While an answer is cached the store is not consulted: when a
    listing or a summary request misses on a reachable cache and succeeds
    with an answer whose numbers are numbers of the language (binary64
    values, the integers among them below 2^53), its JSON text is stored
    under the request's key with a time to live of 1800 seconds (listing)
    or 3600 seconds (summary), and the same request repeated at once is
    answered from that entry, with the same JSON text and without any call
    to the store: the answer is the same over every other driver, one whose
    operations all fail included. *)
Theorem cache_hit_skips_store {S} (collection other : Driver S) (rt : Runtime)
    (user : string) (queryParams : ExpenseQueryParams.t) (w w1 : World S) (v : value) :
  reachable (redis w) = true ->
  proper v = true ->
  (forall uid,
     ObjectId.new user = inr uid ->
     let key := ExpenseService.getExpensesCacheKey user (listing_filters rt uid queryParams) in
     truthy (cached (redis w) key) = false ->
     ExpenseService.getExpenses collection rt user queryParams w = (inr v, w1) ->
     data (redis w1) !! key = Some (text (JSON.write v), Some EXPENSE_CACHE_TTL)
     /\ ExpenseService.getExpenses other rt user queryParams w1 = (inr (JSON.norm v), w1)
     /\ JSON.stringify (JSON.norm v) = JSON.stringify v)
  /\ (let key := RedisClient.getExpenseSummaryCacheKey user
                   (ExpenseQueryParams.period queryParams) in
      truthy (cached (redis w) key) = false ->
      ExpenseService.getExpenseSummary collection rt user queryParams w = (inr v, w1) ->
      data (redis w1) !! key = Some (text (JSON.write v), Some SUMMARY_CACHE_TTL)
      /\ ExpenseService.getExpenseSummary other rt user queryParams w1 = (inr (JSON.norm v), w1)
      /\ JSON.stringify (JSON.norm v) = JSON.stringify v).
Proof.
  intros Hup Hproper. split.
  - intros uid Huid key Hmiss Hrun.
    rewrite (getExpenses_read_through collection rt user queryParams w uid Huid) in Hrun
      by (fold key; rewrite Hup; exact Hmiss).
    fold key in Hrun. rewrite Hup in Hrun.
    destruct (ExpenseRepository.findWithFilters collection _ (store w)) as [[e|found] s'];
      [discriminate |].
    injection Hrun as <- <-.
    assert (Hobj : listing queryParams found <> VUndefined) by discriminate.
    split; [| split].
    + unfold stored. rewrite (stringify_defined _ Hobj). cbn [redis data].
      now rewrite lookup_insert_eq.
    + rewrite (getExpenses_hit other rt user queryParams _ uid Huid);
        fold key; rewrite ?cached_stored by assumption;
        [reflexivity | now rewrite reachable_stored | reflexivity].
    + now apply stringify_norm.
  - intros key Hmiss Hrun.
    rewrite (getExpenseSummary_read_through collection rt user queryParams w) in Hrun
      by (fold key; rewrite Hup; exact Hmiss).
    fold key in Hrun. rewrite Hup in Hrun.
    destruct (ExpenseRepository.getSummary collection _ _ _ (store w)) as [[e|summary] s'];
      [discriminate |].
    injection Hrun as <- <-.
    assert (Hobj : summary_value summary <> VUndefined) by discriminate.
    split; [| split].
    + unfold stored. rewrite (stringify_defined _ Hobj). cbn [redis data].
      now rewrite lookup_insert_eq.
    + unfold ExpenseService.getExpenseSummary; run. fold key.
      rewrite getCachedSummary_spec, reachable_stored. cbn [redis].
      rewrite Hup, cached_stored by assumption. reflexivity.
    + now apply stringify_norm.
Qed.

(** The summary of 0.20, 0.30 and 0.10 (a total of 0.6 and amounts of 0.3
    and 0.30000000000000004) is served from the cache when the store is
    offline. *)
Lemma cache_hit_skips_store_witness :
  exists summary w1,
    ExpenseRepository.getSummary Mongo.driver alice None None small_change
    = (inr summary, small_change)
    /\ ExpenseService.getExpenseSummary Mongo.driver rt0 alice (summary_params None)
         (cold small_change) = (inr (summary_value summary), w1)
    /\ ExpenseService.getExpenseSummary offline rt0 alice (summary_params None) w1
       = (inr (JSON.norm (summary_value summary)), w1)
    /\ JSON.norm (summary_value summary) = summary_value summary.
Proof.
  destruct (ExpenseRepository.getSummary Mongo.driver alice None None small_change)
    as [[e|summary] c] eqn:Hsum; [vm_compute in Hsum; discriminate |].
  destruct (ExpenseService.getExpenseSummary Mongo.driver rt0 alice (summary_params None)
              (cold small_change)) as [[e|v] w1] eqn:Hrun; [vm_compute in Hrun; discriminate |].
  assert (Hv : v = summary_value summary).
  { apply (f_equal fst) in Hrun. apply (f_equal fst) in Hsum. cbn [fst] in *.
    vm_compute in Hrun. vm_compute in Hsum. injection Hrun as <-. injection Hsum as <-.
    vm_compute. reflexivity. }
  assert (Hc : c = small_change).
  { apply (f_equal snd) in Hsum. cbn [snd] in Hsum. rewrite <- Hsum. vm_compute. reflexivity. }
  subst v c.
  assert (Hproper : proper (summary_value summary) = true).
  { apply (f_equal fst) in Hsum. cbn [fst] in Hsum. vm_compute in Hsum.
    injection Hsum as <-. vm_compute. reflexivity. }
  destruct (cache_hit_skips_store Mongo.driver offline rt0 alice (summary_params None)
              (cold small_change) w1 _ eq_refl Hproper) as [_ Hcached].
  destruct (Hcached eq_refl Hrun) as (_ & Hhit & _).
  exists summary, w1.
  split; [reflexivity | split; [reflexivity | split; [exact Hhit |]]].
  apply (f_equal fst) in Hsum. cbn [fst] in Hsum. vm_compute in Hsum.
  injection Hsum as <-. vm_compute. reflexivity.
Defined.

(** ** The summary and the other users *)

Lemma filter_owner_first (q : Query) (uid : ObjectId) (l : list Expense) :
  q_userId q = Some uid ->
  List.filter (matches q) l
  = List.filter (matches q) (List.filter (fun e => bool_decide (userId e = uid)) l).
Proof.
  intros Hq. induction l as [|x l IH]; [reflexivity |].
  cbn [List.filter]. destruct (bool_decide (userId x = uid)) eqn:Hx.
  - cbn [List.filter]. destruct (matches q x); now rewrite IH.
  - assert (Hm : matches q x = false).
    { unfold matches. rewrite Hq. cbn [holds]. rewrite Hx.
      now rewrite andb_false_r. }
    now rewrite Hm.
Qed.

(** X16. The summary of a user is computed from the user's documents only:
    on the behaving store, two collections that hold the same documents of
    a well-formed user, in the same order, give the same summary for every
    date range, whatever else they hold; and the summary leaves the
    collection as it is. *)
Theorem summary_ignores_other_users (c c' : Collection) (user : string) (uid : ObjectId)
    (startDate endDate : option Date) :
  ObjectId.new user = inr uid ->
  List.filter (fun e => bool_decide (userId e = uid)) (docs c)
  = List.filter (fun e => bool_decide (userId e = uid)) (docs c') ->
  fst (ExpenseRepository.getSummary Mongo.driver user startDate endDate c)
  = fst (ExpenseRepository.getSummary Mongo.driver user startDate endDate c')
  /\ snd (ExpenseRepository.getSummary Mongo.driver user startDate endDate c) = c.
Proof.
  intros Huid Hsame.
  assert (Hrun : forall c0,
             ExpenseRepository.getSummary Mongo.driver user startDate endDate c0
             = (inr match Pipeline.run (ExpenseRepository.build_query uid startDate endDate None)
                            (docs c0) with
                    | [] => {| totalAmount := Double.zero; totalCount := 0;
                               categoryBreakdown := [] |}
                    | r :: _ => r
                    end, c0)).
  { intros c0. unfold ExpenseRepository.getSummary, ExpenseRepository.aggregate; run.
    rewrite (new_valid _ _ Huid), Huid; simpl.
    now destruct (Pipeline.run _ (docs c0)). }
  rewrite !Hrun. cbn [fst snd]. split; [| reflexivity].
  unfold Pipeline.run.
  rewrite (filter_owner_first _ uid (docs c)), (filter_owner_first _ uid (docs c')) by reflexivity.
  now rewrite Hsame.
Qed.

Lemma summary_ignores_other_users_witness :
  let c' := snd (ExpenseRepository.create Mongo.driver rt0 bob (dto "book" 1500 "Leisure")
                   week_of_expenses) in
  fst (ExpenseRepository.getSummary Mongo.driver alice None None c')
  = fst (ExpenseRepository.getSummary Mongo.driver alice None None week_of_expenses)
  /\ List.length (docs c') = 4%nat.
Proof.
  intros c'. split; [| vm_compute; reflexivity].
  symmetry.
  apply (summary_ignores_other_users week_of_expenses c' alice {| toHexString := alice |});
    [reflexivity | vm_compute; reflexivity].
Defined.

(** ** The calendar *)

Lemma civil_facts (z0 : Z) :
  let z := z0 + 719468 in
  let era := z / 146097 in
  let doe := z - era * 146097 in
  let yoe := (doe - doe / 1460 + doe / 36524 - doe / 146096) / 365 in
  let doy := doe - (365 * yoe + yoe / 4 - yoe / 100) in
  let mp := (5 * doy + 2) / 153 in
  let d := doy - (153 * mp + 2) / 5 + 1 in
  0 <= doe < 146097 /\ 0 <= yoe <= 399 /\ 0 <= doy <= 365 /\ 0 <= mp <= 11 /\ 1 <= d <= 31.
Proof.
  intros z era doe yoe doy mp d. subst d mp doy yoe doe era z.
  Z.div_mod_to_equations; lia.
Qed.

(** The civil date of a day number names that day, with a month from 1 to
    12 and a day of the month from 1 to 31. *)
Lemma days_from_civil_from_days (z0 : Z) :
  let '(y, m, d) := DateOps.civil_from_days z0 in
  DateOps.days_from_civil y m d = z0 /\ 1 <= m <= 12 /\ 1 <= d <= 31.
Proof.
  unfold DateOps.civil_from_days, DateOps.days_from_civil.
  pose proof (civil_facts z0) as H. cbv zeta in H.
  set (z := z0 + 719468) in *.
  set (era := z / 146097) in *.
  set (doe := z - era * 146097) in *.
  set (yoe := (doe - doe / 1460 + doe / 36524 - doe / 146096) / 365) in *.
  set (doy := doe - (365 * yoe + yoe / 4 - yoe / 100)) in *.
  set (mp := (5 * doy + 2) / 153) in *.
  set (d := doy - (153 * mp + 2) / 5 + 1) in *.
  cbv zeta.
  destruct (Z.ltb_spec mp 10) as [Hmp | Hmp].
  - destruct (Z.leb_spec (mp + 3) 2); [lia |].
    destruct (Z.ltb_spec 2 (mp + 3)); [| lia].
    replace (mp + 3 - 3) with mp by lia.
    replace ((yoe + era * 400) / 400) with era
      by (apply Z.div_unique with (r := yoe); lia).
    replace (yoe + era * 400 - era * 400) with yoe by lia.
    split; [| lia]. subst d doy z. lia.
  - destruct (Z.leb_spec (mp - 9) 2); [| lia].
    destruct (Z.ltb_spec 2 (mp - 9)); [lia |].
    replace (yoe + era * 400 + 1 - 1) with (yoe + era * 400) by lia.
    replace (mp - 9 + 9) with mp by lia.
    replace ((yoe + era * 400) / 400) with era
      by (apply Z.div_unique with (r := yoe); lia).
    replace (yoe + era * 400 - era * 400) with yoe by lia.
    split; [| lia]. subst d doy z. lia.
Qed.

Lemma days_from_civil_day (y m d : Z) :
  DateOps.days_from_civil y m d = DateOps.days_from_civil y m 1 + d - 1.
Proof. unfold DateOps.days_from_civil. lia. Qed.

Lemma twelve_months (m : Z) :
  1 <= m <= 12 ->
  m = 1 \/ m = 2 \/ m = 3 \/ m = 4 \/ m = 5 \/ m = 6 \/ m = 7 \/ m = 8 \/ m = 9 \/ m = 10
  \/ m = 11 \/ m = 12.
Proof. lia. Qed.

(** The first day of a month is between 28 and 31 days after the first day
    of the month before, and between 89 and 92 days after the first day of
    the month three months before. *)
Lemma months_back (y m : Z) :
  1 <= m <= 12 ->
  28 <= DateOps.days_from_civil y m 1
        - DateOps.days_from_civil (y + (m - 1 + -1) / 12) ((m - 1 + -1) mod 12 + 1) 1 <= 31
  /\ 89 <= DateOps.days_from_civil y m 1
           - DateOps.days_from_civil (y + (m - 1 + -3) / 12) ((m - 1 + -3) mod 12 + 1) 1 <= 92.
Proof.
  intros Hm.
  destruct (twelve_months m Hm) as [-> | [-> | [-> | [-> | [-> | [-> | [-> | [-> | [-> | [-> |
    [-> | ->]]]]]]]]]]];
    month_constants; Z.div_mod_to_equations; lia.
Qed.

(** ** The ranges of the last week and of the last months *)

Lemma local_split (rt : Runtime) (t : Date) :
  DateOps.localDay rt t * DateOps.msPerDay + DateOps.localTimeInDay rt t = t + LocalTZA rt.
Proof.
  unfold DateOps.localDay, DateOps.localTimeInDay, DateOps.msPerDay.
  pose proof (Z.div_mod (t + LocalTZA rt) 86400000). lia.
Qed.

Lemma localDay_of (rt : Runtime) (day time : Z) :
  0 <= time < DateOps.msPerDay ->
  DateOps.localDay rt (day * DateOps.msPerDay + time - LocalTZA rt) = day
  /\ DateOps.localTimeInDay rt (day * DateOps.msPerDay + time - LocalTZA rt) = time.
Proof.
  intros Ht. unfold DateOps.localDay, DateOps.localTimeInDay.
  replace (day * DateOps.msPerDay + time - LocalTZA rt + LocalTZA rt)
    with (time + day * DateOps.msPerDay) by lia.
  unfold DateOps.msPerDay in *.
  rewrite Z.div_add, Z.mod_add by lia. rewrite Z.div_small, Z.mod_small by lia. lia.
Qed.

Lemma localTimeInDay_range (rt : Runtime) (t : Date) :
  0 <= DateOps.localTimeInDay rt t < DateOps.msPerDay.
Proof. unfold DateOps.localTimeInDay, DateOps.msPerDay. apply Z.mod_pos_bound. lia. Qed.

(** [setDate(getDate() + k)] moves a date by [k] whole days. *)
Lemma addDays_days (rt : Runtime) (k : Z) (t : Date) :
  DateOps.addDays rt k t = t + k * DateOps.msPerDay.
Proof.
  unfold DateOps.addDays.
  pose proof (days_from_civil_from_days (DateOps.localDay rt t)) as H.
  destruct (DateOps.civil_from_days (DateOps.localDay rt t)) as [[y m] d].
  destruct H as [H _]. rewrite days_from_civil_day in H.
  pose proof (local_split rt t). lia.
Qed.

(** The day [setMonth(getMonth() + k)] moves to, for [k] of -1 and -3. *)
Lemma addMonths_day (rt : Runtime) (t : Date) :
  (28 <= DateOps.localDay rt t - DateOps.localDay rt (DateOps.addMonths rt (-1) t) <= 31
   /\ DateOps.localTimeInDay rt (DateOps.addMonths rt (-1) t) = DateOps.localTimeInDay rt t)
  /\ (89 <= DateOps.localDay rt t - DateOps.localDay rt (DateOps.addMonths rt (-3) t) <= 92
      /\ DateOps.localTimeInDay rt (DateOps.addMonths rt (-3) t) = DateOps.localTimeInDay rt t).
Proof.
  unfold DateOps.addMonths.
  pose proof (days_from_civil_from_days (DateOps.localDay rt t)) as H.
  destruct (DateOps.civil_from_days (DateOps.localDay rt t)) as [[y m] d].
  destruct H as (H & Hm & _). rewrite days_from_civil_day in H.
  destruct (months_back y m Hm) as [H1 H3].
  pose proof (localTimeInDay_range rt t) as Ht.
  split.
  - destruct (localDay_of rt (DateOps.days_from_civil (y + (m - 1 + -1) / 12)
                                ((m - 1 + -1) mod 12 + 1) 1 + d - 1)
                _ Ht) as [-> ->].
    split; [lia | reflexivity].
  - destruct (localDay_of rt (DateOps.days_from_civil (y + (m - 1 + -3) / 12)
                                ((m - 1 + -3) mod 12 + 1) 1 + d - 1)
                _ Ht) as [-> ->].
    split; [lia | reflexivity].
Qed.

Lemma setHours_value (rt : Runtime) (h m s ms : Z) (t : Date) :
  DateOps.setHours rt h m s ms t
  = DateOps.localDay rt t * DateOps.msPerDay + (((h * 60 + m) * 60 + s) * 1000 + ms)
    - LocalTZA rt.
Proof. reflexivity. Qed.

(** X17. The range of the period [week]: it starts at local midnight of
    the day seven days before today and ends with the last millisecond of
    today, so it spans eight local days less a millisecond and holds both
    now and the instant seven days ago; [getDateRange] returns it for the
    period [week] whatever start and end strings come with the request. *)
Theorem past_week_range (rt : Runtime) :
  let r := DateHelpers.getPastWeekRange rt in
  let today := DateOps.localDay rt (now rt) in
  DateOps.localDay rt (DateRange.startDate r) = today - 7
  /\ DateOps.localTimeInDay rt (DateRange.startDate r) = 0
  /\ DateOps.localDay rt (DateRange.endDate r) = today
  /\ DateOps.localTimeInDay rt (DateRange.endDate r) = DateOps.msPerDay - 1
  /\ DateRange.endDate r - DateRange.startDate r = 8 * DateOps.msPerDay - 1
  /\ DateRange.startDate r <= now rt - 7 * DateOps.msPerDay
  /\ now rt <= DateRange.endDate r
  /\ forall startDate endDate,
       DateHelpers.getDateRange rt (Some "week") startDate endDate = Some r.
Proof.
  intros r today.
  assert (Hrange : forall startDate endDate,
             DateHelpers.getDateRange rt (Some "week") startDate endDate = Some r)
    by reflexivity.
  revert Hrange. generalize (DateHelpers.getDateRange rt (Some "week")). intros range Hrange.
  subst r. unfold DateHelpers.getPastWeekRange in *.
  cbn [DateRange.startDate DateRange.endDate].
  rewrite addDays_days.
  set (back := now rt + -7 * DateOps.msPerDay).
  assert (Hback : DateOps.localDay rt back = today - 7).
  { unfold back, today, DateOps.localDay, DateOps.msPerDay.
    replace (now rt + -7 * 86400000 + LocalTZA rt)
      with (now rt + LocalTZA rt + -7 * 86400000) by lia.
    rewrite Z.div_add by lia. lia. }
  destruct (setHours_localDay rt 0 0 0 0 back) as [Hs1 Hs2]; [unfold DateOps.msPerDay; lia |].
  destruct (setHours_localDay rt 23 59 59 999 (now rt)) as [He1 He2];
    [unfold DateOps.msPerDay; lia |].
  pose proof (setHours_value rt 0 0 0 0 back) as Hs.
  pose proof (setHours_value rt 23 59 59 999 (now rt)) as He.
  pose proof (local_split rt (now rt)) as Hnow.
  pose proof (localTimeInDay_range rt (now rt)) as Ht.
  rewrite Hback in Hs, Hs1. fold today in He, He1, Hnow.
  unfold DateOps.msPerDay in *.
  repeat (split; [lia |]). intros startDate endDate.
  rewrite Hrange, addDays_days. reflexivity.
Qed.

(** X18. The ranges of the periods [month] and [3months]: [setMonth] keeps
    the day of the month and runs over into the next month when the target
    month is shorter, so the range starts at local midnight of a day that
    lies 28 to 31 days before today for [month], and 89 to 92 days before
    today for [3months] (not always the same day of the month); both end
    with the last millisecond of today and hold now. *)
Theorem past_month_ranges (rt : Runtime) :
  let today := DateOps.localDay rt (now rt) in
  let month := DateHelpers.getPastMonthRange rt in
  let quarter := DateHelpers.getPast3MonthsRange rt in
  (28 <= today - DateOps.localDay rt (DateRange.startDate month) <= 31
   /\ DateOps.localTimeInDay rt (DateRange.startDate month) = 0
   /\ DateRange.startDate month <= now rt <= DateRange.endDate month)
  /\ (89 <= today - DateOps.localDay rt (DateRange.startDate quarter) <= 92
      /\ DateOps.localTimeInDay rt (DateRange.startDate quarter) = 0
      /\ DateRange.startDate quarter <= now rt <= DateRange.endDate quarter)
  /\ DateRange.endDate month = DateRange.endDate (DateHelpers.getPastWeekRange rt)
  /\ DateRange.endDate quarter = DateRange.endDate (DateHelpers.getPastWeekRange rt).
Proof.
  intros today month quarter. subst month quarter.
  unfold DateHelpers.getPastMonthRange, DateHelpers.getPast3MonthsRange,
    DateHelpers.getPastWeekRange.
  cbn [DateRange.startDate DateRange.endDate].
  destruct (addMonths_day rt (now rt)) as [[H1 _] [H3 _]]. fold today in H1, H3.
  set (t1 := DateOps.addMonths rt (-1) (now rt)) in *.
  set (t3 := DateOps.addMonths rt (-3) (now rt)) in *.
  destruct (setHours_localDay rt 0 0 0 0 t1) as [Hs1 Hs2]; [unfold DateOps.msPerDay; lia |].
  destruct (setHours_localDay rt 0 0 0 0 t3) as [Hq1 Hq2]; [unfold DateOps.msPerDay; lia |].
  pose proof (setHours_value rt 0 0 0 0 t1) as Hs.
  pose proof (setHours_value rt 0 0 0 0 t3) as Hq.
  pose proof (setHours_value rt 23 59 59 999 (now rt)) as He.
  pose proof (local_split rt (now rt)) as Hnow.
  pose proof (localTimeInDay_range rt (now rt)) as Ht.
  fold today in He, Hnow.
  unfold DateOps.msPerDay in *.
  repeat split; lia.
Qed.

(** On 31 March 2024 the month before has no day 31: the range of the
    period [month] starts on 2 March, and on 31 May 2023 the range of the
    period [3months] starts on 3 March. *)
Example past_month_range_overflow :
  DateOps.toISOString
    (DateRange.startDate
       (DateHelpers.getPastMonthRange
          {| now := 1711886400000; LocalTZA := 0; Date_parse := fun _ => None |}))
  = "2024-03-02T00:00:00.000Z"
  /\ DateOps.toISOString
       (DateRange.startDate
          (DateHelpers.getPast3MonthsRange
             {| now := 1685534400000; LocalTZA := 0; Date_parse := fun _ => None |}))
     = "2023-03-03T00:00:00.000Z".
Proof. split; vm_compute; reflexivity. Qed.

Lemma year_of_era (yoe doy : Z) :
  0 <= yoe <= 399 -> 0 <= doy <= 364 ->
  let doe := yoe * 365 + yoe / 4 - yoe / 100 + doy in
  0 <= doe < 146097
  /\ (doe - doe / 1460 + doe / 36524 - doe / 146096) / 365 = yoe.
Proof. intros Hy Hd doe. subst doe. Z.div_mod_to_equations; lia. Qed.

Lemma month_of_year (mp d : Z) :
  0 <= mp <= 11 -> 1 <= d <= 28 ->
  let doy := (153 * mp + 2) / 5 + d - 1 in
  0 <= doy <= 364 /\ (5 * doy + 2) / 153 = mp.
Proof. intros Hm Hd doy. subst doy. Z.div_mod_to_equations; lia. Qed.

(** The day number of a civil date has that civil date (for the days that
    every month has). *)
Lemma civil_from_days_from_civil (y m d : Z) :
  1 <= m <= 12 -> 1 <= d <= 28 ->
  DateOps.civil_from_days (DateOps.days_from_civil y m d) = (y, m, d).
Proof.
  intros Hm Hd. unfold DateOps.days_from_civil.
  set (Y := if m <=? 2 then y - 1 else y).
  set (era := Y / 400).
  set (yoe := Y - era * 400).
  set (mp := if 2 <? m then m - 3 else m + 9).
  assert (Hyoe : 0 <= yoe <= 399) by (subst yoe era; Z.div_mod_to_equations; lia).
  assert (Hmp : 0 <= mp <= 11) by (subst mp; destruct (2 <? m) eqn:E; lia).
  destruct (month_of_year mp d Hmp Hd) as [Hdoy Hmonth].
  set (doy := (153 * mp + 2) / 5 + d - 1) in *.
  destruct (year_of_era yoe doy Hyoe Hdoy) as [Hdoe Hyear].
  set (doe := yoe * 365 + yoe / 4 - yoe / 100 + doy) in *.
  unfold DateOps.civil_from_days.
  replace (era * 146097 + doe - 719468 + 719468) with (doe + era * 146097) by lia.
  rewrite Z.div_add by lia. rewrite (Z.div_small doe) by lia.
  replace (doe + era * 146097 - (0 + era) * 146097) with doe by lia.
  cbv zeta. rewrite Hyear.
  replace (doe - (365 * yoe + yoe / 4 - yoe / 100)) with doy by (subst doe; lia).
  rewrite Hmonth.
  assert (Hm' : (if mp <? 10 then mp + 3 else mp - 9) = m).
  { subst mp. destruct (Z.ltb_spec 2 m).
    - destruct (Z.ltb_spec (m - 3) 10); lia.
    - destruct (Z.ltb_spec (m + 9) 10); lia. }
  rewrite Hm'.
  assert (Hy' : (if m <=? 2 then yoe + (0 + era) * 400 + 1 else yoe + (0 + era) * 400) = y).
  { subst yoe Y. destruct (m <=? 2); lia. }
  rewrite Hy'.
  replace (doy - (153 * mp + 2) / 5 + 1) with d by (subst doy; lia).
  reflexivity.
Qed.

Lemma next_month (m : Z) :
  1 <= m <= 12 ->
  1 <= m mod 12 + 1 <= 12 /\ m mod 12 + 1 <> m
  /\ (m mod 12 + 1 - 1 + -1) mod 12 + 1 = m
  /\ m / 12 + (m mod 12 + 1 - 1 + -1) / 12 = 0.
Proof.
  intros Hm.
  destruct (twelve_months m Hm) as [-> | [-> | [-> | [-> | [-> | [-> | [-> | [-> | [-> | [-> |
    [-> | ->]]]]]]]]]]]; vm_compute; repeat split; discriminate.
Qed.

(** A day lies before the first day of the month after its own, which is
    28 to 31 days after the first day of its month. *)
Lemma before_next_month (z : Z) :
  let '(y, m, d) := DateOps.civil_from_days z in
  let first := DateOps.days_from_civil y m 1 in
  let next := DateOps.days_from_civil (y + m / 12) (m mod 12 + 1) 1 in
  first <= z < next /\ z = first + d - 1 /\ 28 <= next - first <= 31.
Proof.
  pose proof (days_from_civil_from_days z) as H.
  destruct (DateOps.civil_from_days z) as [[y m] d] eqn:Hc.
  destruct H as (Hz & Hm & Hd). rewrite days_from_civil_day in Hz.
  destruct (next_month m Hm) as (Hm' & Hne & Hprev & Hyear).
  cbv zeta.
  set (first := DateOps.days_from_civil y m 1) in *.
  set (next := DateOps.days_from_civil (y + m / 12) (m mod 12 + 1) 1).
  assert (Hlen : 28 <= next - first <= 31).
  { destruct (months_back (y + m / 12) (m mod 12 + 1) Hm') as [Hb _].
    rewrite Hprev in Hb.
    replace (y + m / 12 + (m mod 12 + 1 - 1 + -1) / 12) with y in Hb by lia.
    exact Hb. }
  split; [| split; [lia | exact Hlen]].
  split; [lia |].
  destruct (Z.lt_ge_cases z next) as [Hlt | Hge]; [exact Hlt | exfalso].
  pose proof (civil_from_days_from_civil (y + m / 12) (m mod 12 + 1) (1 + (z - next)) Hm')
    as Hover.
  rewrite days_from_civil_day in Hover. fold next in Hover.
  replace (next + (1 + (z - next)) - 1) with z in Hover by lia.
  rewrite Hc in Hover. specialize (Hover ltac:(lia)).
  injection Hover as _ Hmonth _. lia.
Qed.

(** ** The month of a date *)

Lemma civil_getters (rt : Runtime) (t : Date) (y m d : Z) :
  DateOps.civil_from_days (DateOps.localDay rt t) = (y, m, d) ->
  DateOps.getFullYear rt t = y /\ DateOps.getMonth rt t = m - 1 /\ DateOps.getDate rt t = d.
Proof.
  intros H. unfold DateOps.getFullYear, DateOps.getMonth, DateOps.getDate. rewrite H. auto.
Qed.

Lemma make_day (rt : Runtime) (year month date : Z) :
  let yr := if (0 <=? year) && (year <=? 99) then 1900 + year else year in
  let day := DateOps.days_from_civil (yr + month / 12) (month mod 12 + 1) 1 + date - 1 in
  DateOps.make rt year month date = day * DateOps.msPerDay + 0 - LocalTZA rt.
Proof. unfold DateOps.make. cbv zeta. lia. Qed.

(** X19. [getStartOfMonth] and [getEndOfMonth] of a date whose local year
    is not one of 0 to 99: the first is local midnight of day 1 of the
    date's month, the second is the millisecond before local midnight of
    day 1 of the month after, the date lies between the two, and they are
    28 to 31 days apart. For a local year from 0 to 99 the Date constructor
    reads the year as 1900 + year, and the "start of the month" is a date
    nineteen centuries after the date it was asked for. *)
Theorem month_bounds (rt : Runtime) (date : Date) :
  let year := DateOps.getFullYear rt date in
  let month := DateOps.getMonth rt date in
  let first := DateHelpers.getStartOfMonth rt date in
  let last := DateHelpers.getEndOfMonth rt date in
  (~ 0 <= year <= 99 ->
   first <= date <= last
   /\ (DateOps.getFullYear rt first = year /\ DateOps.getMonth rt first = month
       /\ DateOps.getDate rt first = 1 /\ DateOps.localTimeInDay rt first = 0)
   /\ (DateOps.getFullYear rt (last + 1) = year + (month + 1) / 12
       /\ DateOps.getMonth rt (last + 1) = (month + 1) mod 12
       /\ DateOps.getDate rt (last + 1) = 1 /\ DateOps.localTimeInDay rt (last + 1) = 0)
   /\ 28 * DateOps.msPerDay <= last + 1 - first <= 31 * DateOps.msPerDay)
  /\ (0 <= year <= 99 ->
      DateOps.getFullYear rt first = 1900 + year /\ DateOps.getMonth rt first = month
      /\ DateOps.getDate rt first = 1 /\ date < first).
Proof.
  intros year month first last.
  pose proof (days_from_civil_from_days (DateOps.localDay rt date)) as Hrt.
  pose proof (before_next_month (DateOps.localDay rt date)) as Hin.
  destruct (DateOps.civil_from_days (DateOps.localDay rt date)) as [[y m] d] eqn:Hc.
  destruct Hrt as (_ & Hm & Hd). cbv zeta in Hin. destruct Hin as (Hz & Hzd & Hlen).
  destruct (civil_getters rt date y m d Hc) as (Hy & Hmo & _).
  subst year month first last.
  unfold DateHelpers.getStartOfMonth, DateHelpers.getEndOfMonth.
  rewrite !Hy, !Hmo.
  assert (Hq : (m - 1) / 12 = 0 /\ (m - 1) mod 12 + 1 = m /\ (m - 1 + 1) / 12 = m / 12
               /\ (m - 1 + 1) mod 12 = m mod 12).
  { replace (m - 1 + 1) with m by lia. repeat split.
    - apply Z.div_small. lia.
    - rewrite Z.mod_small; lia. }
  destruct Hq as (Hq1 & Hq2 & Hq3 & Hq4).
  pose proof (local_split rt date) as Hdate.
  pose proof (localTimeInDay_range rt date) as Ht.
  rewrite !make_day. cbv zeta.
  rewrite Hq1, Hq2, Hq3, Hq4.
  split.
  - intros Hyear.
    assert (Hyr : (0 <=? y) && (y <=? 99) = false).
    { destruct (Z.leb_spec 0 y), (Z.leb_spec y 99); try reflexivity. lia. }
    rewrite Hyr. replace (y + 0) with y by lia.
    set (S0 := DateOps.days_from_civil y m 1) in *.
    set (N0 := DateOps.days_from_civil (y + m / 12) (m mod 12 + 1) 1) in *.
    destruct (localDay_of rt (S0 + 1 - 1) 0) as [HS _]; [unfold DateOps.msPerDay; lia |].
    destruct (localDay_of rt (N0 + 0 - 1) 0) as [HN _]; [unfold DateOps.msPerDay; lia |].
    rewrite !setHours_value, HS, HN.
    replace (((0 * 60 + 0) * 60 + 0) * 1000 + 0) with 0 by reflexivity.
    replace (((23 * 60 + 59) * 60 + 59) * 1000 + 999) with 86399999 by reflexivity.
    replace (S0 + 1 - 1) with S0 by lia.
    replace ((N0 + 0 - 1) * DateOps.msPerDay + 86399999 - LocalTZA rt + 1)
      with (N0 * DateOps.msPerDay + 0 - LocalTZA rt) by (unfold DateOps.msPerDay; lia).
    destruct (localDay_of rt S0 0) as [HS1 HS2]; [unfold DateOps.msPerDay; lia |].
    destruct (localDay_of rt N0 0) as [HN1 HN2]; [unfold DateOps.msPerDay; lia |].
    assert (HcS : DateOps.civil_from_days (DateOps.localDay rt (S0 * DateOps.msPerDay + 0
                                                                  - LocalTZA rt)) = (y, m, 1))
      by (rewrite HS1; apply civil_from_days_from_civil; lia).
    destruct (next_month m Hm) as (Hm' & _).
    assert (HcN : DateOps.civil_from_days (DateOps.localDay rt (N0 * DateOps.msPerDay + 0
                                                                  - LocalTZA rt))
                  = (y + m / 12, m mod 12 + 1, 1))
      by (rewrite HN1; apply civil_from_days_from_civil; lia).
    destruct (civil_getters _ _ _ _ _ HcS) as (G1 & G2 & G3).
    destruct (civil_getters _ _ _ _ _ HcN) as (G4 & G5 & G6).
    rewrite G1, G2, G3, G4, G5, G6, HS2, HN2.
    unfold DateOps.msPerDay in *.
    repeat split; lia.
  - intros Hyear.
    assert (Hyr : (0 <=? y) && (y <=? 99) = true).
    { destruct (Z.leb_spec 0 y), (Z.leb_spec y 99); try reflexivity; lia. }
    rewrite Hyr. replace (1900 + y + 0) with (1900 + y) by lia.
    set (S0 := DateOps.days_from_civil (1900 + y) m 1) in *.
    destruct (localDay_of rt (S0 + 1 - 1) 0) as [HS _]; [unfold DateOps.msPerDay; lia |].
    rewrite !setHours_value, HS.
    replace (((0 * 60 + 0) * 60 + 0) * 1000 + 0) with 0 by reflexivity.
    replace (S0 + 1 - 1) with S0 by lia.
    destruct (localDay_of rt S0 0) as [HS1 HS2]; [unfold DateOps.msPerDay; lia |].
    assert (HcS : DateOps.civil_from_days (DateOps.localDay rt (S0 * DateOps.msPerDay + 0
                                                                  - LocalTZA rt))
                  = (1900 + y, m, 1))
      by (rewrite HS1; apply civil_from_days_from_civil; lia).
    destruct (civil_getters _ _ _ _ _ HcS) as (G1 & G2 & G3).
    rewrite G1, G2, G3.
    split; [reflexivity | split; [reflexivity | split; [reflexivity |]]].
    assert (Hlater : DateOps.days_from_civil y m 1 + 31 < S0).
    { subst S0. clear -Hm Hyear.
      destruct (twelve_months m Hm) as [-> | [-> | [-> | [-> | [-> | [-> | [-> | [-> | [-> |
        [-> | [-> | ->]]]]]]]]]]]; month_constants; Z.div_mod_to_equations; lia. }
    unfold DateOps.msPerDay in *. lia.
Qed.

Lemma month_bounds_witness :
  let rt := {| now := 0; LocalTZA := 3600000; Date_parse := fun _ => None |} in
  (DateOps.toISOString (DateHelpers.getStartOfMonth rt 1709251199999)
   = "2024-02-29T23:00:00.000Z"
   /\ DateHelpers.getStartOfMonth rt 1709251199999 <= 1709251199999
      <= DateHelpers.getEndOfMonth rt 1709251199999)
  /\ DateOps.getFullYear rt
       (DateHelpers.getStartOfMonth rt (DateOps.days_from_civil 50 6 15 * DateOps.msPerDay))
     = 1950.
Proof.
  intros rt.
  destruct (month_bounds rt 1709251199999) as [Hin _].
  destruct (month_bounds rt (DateOps.days_from_civil 50 6 15 * DateOps.msPerDay)) as [_ Hold].
  split.
  - split; [vm_compute; reflexivity |].
    apply Hin. vm_compute. intros [_ H]. apply H. reflexivity.
  - destruct Hold as (Hy & _); [vm_compute; split; discriminate |].
    rewrite Hy. vm_compute. reflexivity.
Defined.

(** ** The date part of a date *)

Lemma ascii_code_of_code (k : Z) : 0 <= k < 256 -> ascii_code (ascii_of_code k) = k.
Proof.
  intros Hk. unfold ascii_code, ascii_of_code.
  rewrite N_ascii_embedding by lia. lia.
Qed.

Lemma digit_char_code (n : Z) : ascii_code (DateOps.digit_char n) = 48 + n mod 10.
Proof.
  unfold DateOps.digit_char. apply ascii_code_of_code.
  pose proof (Z.mod_pos_bound n 10). lia.
Qed.

Lemma digit_char_digit (n : Z) : is_digit (DateOps.digit_char n) = true.
Proof.
  unfold is_digit. rewrite digit_char_code.
  pose proof (Z.mod_pos_bound n 10).
  apply andb_true_iff. split; [apply Z.leb_le | apply Z.leb_le]; lia.
Qed.

Lemma digit_is_not_T (c : ascii) : is_digit c = true -> Ascii.eqb c "T" = false.
Proof.
  intros H. destruct (Ascii.eqb_spec c "T") as [-> | _]; [discriminate H | reflexivity].
Qed.

Lemma pad_digits (w : nat) (n : Z) : forallb is_digit (DateOps.pad w n) = true.
Proof.
  revert n; induction w as [|w IH]; intros n; [reflexivity |].
  cbn [DateOps.pad]. rewrite forallb_app, IH. cbn [forallb]. now rewrite digit_char_digit.
Qed.

Lemma split_head_app (sep : ascii) (l rest : list ascii) :
  forallb (fun c => negb (Ascii.eqb c sep)) l = true ->
  split_head sep (l ++ sep :: rest) = l.
Proof.
  induction l as [|c l IH]; intros H.
  - cbn [app split_head]. now rewrite (proj2 (Ascii.eqb_eq sep sep) eq_refl).
  - cbn [forallb] in H. apply andb_true_iff in H as [Hc Hl].
    cbn [app split_head]. apply negb_true_iff in Hc. rewrite Hc. now rewrite IH.
Qed.

Lemma no_T_digits (l : list ascii) :
  forallb is_digit l = true -> forallb (fun c => negb (Ascii.eqb c "T")) l = true.
Proof.
  intros H. apply forallb_forall. intros c Hc.
  apply negb_true_iff, digit_is_not_T. exact (proj1 (forallb_forall _ _) H c Hc).
Qed.

Lemma formatDate_date_part (t : Date) : DateHelpers.formatDate t = text (date_part_text t).
Proof.
  unfold DateHelpers.formatDate, DateOps.toISOString, date_part_text.
  destruct (DateOps.civil_from_days (t / DateOps.msPerDay)) as [[y m] d].
  rewrite chars_text. f_equal.
  set (year := if (0 <=? y) && (y <=? 9999) then DateOps.pad 4 y
               else (if y <? 0 then "-"%char else "+"%char) :: DateOps.pad 6 (Z.abs y)).
  match goal with
  | |- split_head _ (year ++ "-"%char :: ?mm ++ "-"%char :: ?dd ++ "T"%char :: ?rest) = _ =>
      replace (year ++ "-"%char :: mm ++ "-"%char :: dd ++ "T"%char :: rest)
        with ((year ++ "-"%char :: mm ++ "-"%char :: dd) ++ "T"%char :: rest)
        by (rewrite <- !app_assoc; cbn [app]; rewrite <- !app_assoc; reflexivity)
  end.
  apply split_head_app.
  rewrite forallb_app. cbn [forallb]. rewrite forallb_app. cbn [forallb].
  rewrite !(no_T_digits _ (pad_digits _ _)).
  assert (Hy : forallb (fun c => negb (Ascii.eqb c "T")) year = true).
  { subst year. destruct ((0 <=? y) && (y <=? 9999)).
    - apply no_T_digits, pad_digits.
    - cbn [forallb]. rewrite (no_T_digits _ (pad_digits _ _)). now destruct (y <? 0). }
  rewrite Hy. reflexivity.
Qed.

Lemma pad2_value (n : Z) :
  0 <= n <= 99 ->
  DateOps.pad 2 n = [DateOps.digit_char (n / 10); DateOps.digit_char n]
  /\ (ascii_code (DateOps.digit_char (n / 10)) - 48) * 10
     + (ascii_code (DateOps.digit_char n) - 48) = n.
Proof.
  intros Hn. split; [reflexivity |]. rewrite !digit_char_code.
  Z.div_mod_to_equations; lia.
Qed.

Lemma pad4_value (n : Z) :
  0 <= n <= 9999 ->
  DateOps.pad 4 n = [DateOps.digit_char (n / 10 / 10 / 10); DateOps.digit_char (n / 10 / 10);
                     DateOps.digit_char (n / 10); DateOps.digit_char n]
  /\ (((ascii_code (DateOps.digit_char (n / 10 / 10 / 10)) - 48) * 10
       + (ascii_code (DateOps.digit_char (n / 10 / 10)) - 48)) * 10
      + (ascii_code (DateOps.digit_char (n / 10)) - 48)) * 10
     + (ascii_code (DateOps.digit_char n) - 48) = n.
Proof.
  intros Hn. split; [reflexivity |]. rewrite !digit_char_code.
  Z.div_mod_to_equations; lia.
Qed.

(** X20. [formatDate] returns the date part of the ISO form, which names
    the day in universal time: for a year from 0 to 9999 it is the ten
    characters YYYY-MM-DD, and read back as a date (a date-only form is
    midnight, universal time) it gives the start of that day; east of
    Greenwich a local time of day earlier than the offset falls on the day
    before in universal time, so that a local midnight is "formatted" as
    the day before. *)
Theorem formatDate_utc_day (t : Date) :
  let '(y, m, d) := DateOps.civil_from_days (t / DateOps.msPerDay) in
  (0 <= y <= 9999 ->
   DateHelpers.formatDate t
   = text (DateOps.pad 4 y ++ "-"%char :: DateOps.pad 2 m ++ "-"%char :: DateOps.pad 2 d)
   /\ String.length (DateHelpers.formatDate t) = 10%nat
   /\ parse_day (DateHelpers.formatDate t) = Some (t / DateOps.msPerDay * DateOps.msPerDay))
  /\ (forall t', t' / DateOps.msPerDay = t / DateOps.msPerDay ->
        DateHelpers.formatDate t' = DateHelpers.formatDate t)
  /\ (forall rt : Runtime,
        0 < LocalTZA rt <= DateOps.msPerDay ->
        DateOps.localTimeInDay rt t < LocalTZA rt ->
        t / DateOps.msPerDay = DateOps.localDay rt t - 1).
Proof.
  pose proof (days_from_civil_from_days (t / DateOps.msPerDay)) as Hrt.
  pose proof (formatDate_date_part t) as Hf. unfold date_part_text in Hf.
  destruct (DateOps.civil_from_days (t / DateOps.msPerDay)) as [[y m] d] eqn:Hc.
  destruct Hrt as (Hz & Hm & Hd).
  split; [| split].
  - intros Hy.
    assert (Hyr : (0 <=? y) && (y <=? 9999) = true).
    { apply andb_true_iff. split; apply Z.leb_le; lia. }
    rewrite Hyr in Hf.
    destruct (pad4_value y Hy) as [Py Vy].
    destruct (pad2_value m) as [Pm Vm]; [lia |].
    destruct (pad2_value d) as [Pd Vd]; [lia |].
    split; [exact Hf |]. rewrite Hf, Py, Pm, Pd. cbn [app].
    split; [reflexivity |].
    unfold parse_day. rewrite chars_text.
    change (ascii_code "-" =? 45) with true. cbn [andb forallb].
    rewrite !digit_char_digit. cbn [andb].
    rewrite Vy, Vm, Vd.
    destruct (Z.leb_spec 1 m); [| lia]. destruct (Z.leb_spec m 12); [| lia].
    destruct (Z.leb_spec 1 d); [| lia]. destruct (Z.leb_spec d 31); [| lia].
    cbn [andb]. now rewrite Hz.
  - intros t' Ht'. rewrite !formatDate_date_part. unfold date_part_text. now rewrite Ht'.
  - intros rt Hoff Hlocal.
    pose proof (local_split rt t) as Hsplit.
    pose proof (localTimeInDay_range rt t) as Hrange.
    unfold DateOps.msPerDay in *.
    symmetry. apply Z.div_unique with (r := DateOps.localTimeInDay rt t + 86400000 - LocalTZA rt);
      lia.
Qed.

Lemma formatDate_utc_day_witness :
  DateHelpers.formatDate 1709251199999 = "2024-02-29"
  /\ parse_day (DateHelpers.formatDate 1709251199999) = Some 1709164800000
  /\ DateHelpers.formatDate (DateHelpers.getStartOfMonth day_runtime 1709251199999)
     = "2024-02-29"
  /\ DateOps.getDate day_runtime (DateHelpers.getStartOfMonth day_runtime 1709251199999) = 1.
Proof.
  pose proof (formatDate_utc_day 1709251199999) as H.
  assert (Hc : DateOps.civil_from_days (1709251199999 / DateOps.msPerDay) = (2024, 2, 29))
    by (vm_compute; reflexivity).
  rewrite Hc in H. destruct H as (H & _). destruct H as (Hf & _ & Hp); [lia |].
  split; [rewrite Hf; vm_compute; reflexivity |].
  split; [rewrite Hp; vm_compute; reflexivity |].
  split; vm_compute; reflexivity.
Defined.

(** ** The period [week], end to end *)

Lemma week_range_values (rt : Runtime) :
  let today := DateOps.localDay rt (now rt) in
  DateRange.startDate (DateHelpers.getPastWeekRange rt)
  = (today - 7) * DateOps.msPerDay - LocalTZA rt
  /\ DateRange.endDate (DateHelpers.getPastWeekRange rt)
     = today * DateOps.msPerDay + (DateOps.msPerDay - 1) - LocalTZA rt.
Proof.
  intros today. unfold DateHelpers.getPastWeekRange.
  cbn [DateRange.startDate DateRange.endDate].
  rewrite addDays_days, !setHours_value.
  assert (Hback : DateOps.localDay rt (now rt + -7 * DateOps.msPerDay) = today - 7).
  { unfold today, DateOps.localDay, DateOps.msPerDay.
    replace (now rt + -7 * 86400000 + LocalTZA rt)
      with (now rt + LocalTZA rt + -7 * 86400000) by lia.
    rewrite Z.div_add by lia. lia. }
  rewrite Hback. fold today. unfold DateOps.msPerDay. lia.
Qed.

Lemma local_days_between (rt : Runtime) (first last : Z) (t : Date) :
  (first * DateOps.msPerDay - LocalTZA rt <= t
   /\ t <= last * DateOps.msPerDay + (DateOps.msPerDay - 1) - LocalTZA rt)
  <-> on_local_days rt first last t = true.
Proof.
  unfold on_local_days, DateOps.localDay, DateOps.msPerDay.
  rewrite andb_true_iff, !Z.leb_le.
  split; intros [H1 H2]; split; Z.div_mod_to_equations; lia.
Qed.

(** X21. The period [week] from request to store: for a well-formed user,
    a page and a limit that read as positive numbers, and a cache that is
    out of reach, [getExpenses] with the period [week] returns, on every
    store that answers within the sort contract, the page of the user's
    expenses created on one of the eight local days that end today (of the
    category asked for, when one is), newest first, and [total] counts
    exactly those; whatever start and end dates the request carries play no
    part. *)
Theorem week_listing_window {S} (collection : Driver S) (docs_of : S -> list Expense)
    (rt : Runtime) (user : string) (uid : ObjectId)
    (startDate endDate cat page limit : option string) (p l : Z)
    (s : S) (d : gmap string (string * option Z)) :
  lawful collection docs_of ->
  ObjectId.new user = inr uid ->
  parsed_or page "1" = Num p -> parsed_or limit "20" = Num l -> 1 <= p -> 1 <= l ->
  let request := listing_request (Some "week") startDate endDate cat page limit in
  let today := DateOps.localDay rt (now rt) in
  let w := {| store := s; redis := {| reachable := false; data := d |} |} in
  let wanted x :=
    bool_decide (userId x = uid) && on_local_days rt (today - 7) today (createdAt x)
    && match cat with
       | Some (String a c) => bool_decide (category x = String a c)
       | _ => true
       end in
  exists expenses,
    ExpenseService.getExpenses collection rt user request w
    = (inr (listing request (expenses, Z.of_nat (List.length (List.filter wanted (docs_of s))))),
       w)
    /\ (forall x, x ∈ expenses -> x ∈ docs_of s /\ wanted x = true)
    /\ StronglySorted newer_or_same expenses
    /\ Z.of_nat (List.length expenses)
       = Z.min l (Z.max 0 (Z.of_nat (List.length (List.filter wanted (docs_of s)))
                           - (p - 1) * l)).
Proof.
  intros Hlaw Huid Hp Hl Hp1 Hl1 request today w wanted.
  destruct (week_range_values rt) as [Hstart Hend]. fold today in Hstart, Hend.
  set (range := DateHelpers.getPastWeekRange rt) in *.
  assert (Hfilters : listing_filters rt uid request
                     = page_filter uid (Some (DateRange.startDate range))
                         (Some (DateRange.endDate range)) cat l ((p - 1) * l)).
  { unfold listing_filters, request, listing_request, page_filter.
    cbn [ExpenseQueryParams.period ExpenseQueryParams.startDate ExpenseQueryParams.endDate
         ExpenseQueryParams.category ExpenseQueryParams.page ExpenseQueryParams.limit
         string_truthy].
    fold (parsed_or page "1"). fold (parsed_or limit "20"). rewrite Hp, Hl.
    reflexivity. }
  set (q := ExpenseRepository.build_query uid (Some (DateRange.startDate range))
              (Some (DateRange.endDate range)) cat).
  assert (Hwin : forall t, (DateRange.startDate range <=? t) && (t <=? DateRange.endDate range)
                           = on_local_days rt (today - 7) today t).
  { intros t. apply eq_true_iff_eq.
    rewrite andb_true_iff, !Z.leb_le, <- local_days_between, Hstart, Hend. tauto. }
  assert (Hq : forall x, matches q x = wanted x).
  { intros x. unfold q, matches, ExpenseRepository.build_query, wanted.
    cbn [q_id q_userId q_gte q_lte q_category holds]. rewrite <- Hwin.
    destruct cat as [[|a c]|]; cbn [string_truthy holds andb];
      rewrite ?andb_true_r, <- ?andb_assoc; reflexivity. }
  assert (Hlist : List.filter (matches q) (docs_of s) = List.filter wanted (docs_of s))
    by (apply filter_ext; exact Hq).
  destruct (findWithFilters_lawful collection docs_of uid (Some (DateRange.startDate range))
              (Some (DateRange.endDate range)) cat l ((p - 1) * l) s Hlaw)
    as (r & Hrun & all & HP & Hsorted & ->); [lia | nia |].
  fold q in HP, Hrun. rewrite Hlist in HP, Hrun.
  exists (Mongo.page ((p - 1) * l) l all).
  split; [| split; [| split]].
  - rewrite (getExpenses_read_through collection rt user request w uid Huid) by reflexivity.
    cbn [store redis reachable w]. rewrite Hfilters, Hrun. reflexivity.
  - intros x Hx. apply page_subset in Hx.
    assert (Hin : In x (List.filter wanted (docs_of s)))
      by (eapply Permutation_in; [exact HP | now apply list_elem_of_In]).
    apply filter_In in Hin as [Hin Hw]. split; [now apply list_elem_of_In | exact Hw].
  - unfold Mongo.page. destruct (Z.eqb_spec l 0); [lia |].
    apply StronglySorted_take.
    rewrite <- (take_drop (Z.to_nat ((p - 1) * l)) all) in Hsorted.
    clear -Hsorted.
    induction (take (Z.to_nat ((p - 1) * l)) all) as [|a t IH]; [exact Hsorted |].
    simpl in Hsorted. apply StronglySorted_inv in Hsorted as [Hs _]. exact (IH Hs).
  - rewrite page_length by nia. now rewrite (Permutation_length HP).
Qed.

Lemma week_listing_window_witness :
  let rt := {| now := 10 * DateOps.msPerDay; LocalTZA := 0; Date_parse := fun _ => None |} in
  let c := {| docs := numbered (fun k => k * DateOps.msPerDay) 25; nextId := 26 |} in
  let w := {| store := c; redis := {| reachable := false; data := ∅ |} |} in
  exists expenses,
    ExpenseService.getExpenses Mongo.driver rt alice
      (listing_request (Some "week") None None None None None) w
    = (inr (listing (listing_request (Some "week") None None None None None) (expenses, 8)), w)
    /\ List.length expenses = 8%nat.
Proof.
  intros rt c w.
  destruct (week_listing_window Mongo.driver docs rt alice {| toHexString := alice |}
              None None None None None 1 20 c ∅ mongo_lawful eq_refl eq_refl eq_refl)
    as (expenses & Hrun & _ & _ & Hlen); [lia | lia |].
  cbv zeta in Hrun, Hlen.
  assert (Hn : List.length
                 (List.filter
                    (fun x => bool_decide (userId x = {| toHexString := alice |})
                              && on_local_days rt (DateOps.localDay rt (now rt) - 7)
                                   (DateOps.localDay rt (now rt)) (createdAt x) && true)
                    (docs c)) = 8%nat) by (vm_compute; reflexivity).
  rewrite Hn in Hrun, Hlen.
  exists expenses. split; [exact Hrun | lia].
Defined.

(** ** Pages and the page count of the response *)

Lemma ceil_div_bounds (n l : Z) :
  0 <= n -> 1 <= l ->
  0 <= - (- n / l) /\ (- (- n / l) - 1) * l < n <= - (- n / l) * l.
Proof. intros Hn Hl. Z.div_mod_to_equations. nia. Qed.

(** X22. The page count that [createPaginatedResponse] reports and the
    pages that [findWithFilters] returns fit together: for a limit of at
    least 1, on every store that answers within the sort contract, [pages]
    is the least number of pages that hold [total] expenses; every page
    before the last one is full, the last one holds the remaining expenses
    (at least one), and every page after it is empty. *)
Theorem pages_cover_listing {S} (collection : Driver S) (docs_of : S -> list Expense)
    (uid : ObjectId) (startDate endDate : option Date) (cat : option string)
    (limit page : Z) (s : S) :
  lawful collection docs_of -> 1 <= limit -> 1 <= page ->
  exists expenses total pages,
    ExpenseRepository.findWithFilters collection
      (page_filter uid startDate endDate cat limit ((page - 1) * limit)) s
    = (inr (expenses, total), s)
    /\ total = Z.of_nat (List.length
                 (List.filter (matches (ExpenseRepository.build_query uid startDate endDate
                                          cat)) (docs_of s)))
    /\ (forall message,
          createPaginatedResponse (VArr (map transformExpenseToResponse expenses))
            (Num page) (Num limit) (Num total) message
          = VObj [("success", VBool true);
                  ("message", VStr message);
                  ("data", VArr (map transformExpenseToResponse expenses));
                  ("pagination", VObj [("page", VNum (Num page));
                                       ("limit", VNum (Num limit));
                                       ("total", VNum (Num total));
                                       ("pages", VNum (Num pages))])])
    /\ (0 <= pages /\ (pages - 1) * limit < total <= pages * limit)
    /\ (page < pages -> Z.of_nat (List.length expenses) = limit)
    /\ (page = pages ->
        Z.of_nat (List.length expenses) = total - (pages - 1) * limit
        /\ 1 <= Z.of_nat (List.length expenses) <= limit)
    /\ (pages < page -> expenses = []).
Proof.
  intros Hlaw Hlim Hpage.
  destruct (findWithFilters_lawful collection docs_of uid startDate endDate cat limit
              ((page - 1) * limit) s Hlaw) as (r & Hrun & all & HP & _ & ->); [lia | nia |].
  set (total := Z.of_nat (List.length
                  (List.filter (matches (ExpenseRepository.build_query uid startDate endDate cat))
                               (docs_of s)))) in *.
  assert (Hlen : Z.of_nat (List.length (Mongo.page ((page - 1) * limit) limit all))
                 = Z.min limit (Z.max 0 (total - (page - 1) * limit))).
  { rewrite page_length by nia. now rewrite (Permutation_length HP). }
  assert (Htotal : 0 <= total) by (unfold total; lia).
  destruct (ceil_div_bounds total limit Htotal Hlim) as (Hp0 & Hlow & Hhigh).
  set (pages := - (- total / limit)) in *.
  exists (Mongo.page ((page - 1) * limit) limit all), total, pages.
  split; [exact Hrun |]. split; [reflexivity |]. split.
  { intros message. unfold createPaginatedResponse, Math_ceil_div.
    destruct (Z.eqb_spec limit 0); [lia | reflexivity]. }
  split; [lia |]. split; [| split].
  - intros Hlt. rewrite Hlen. nia.
  - intros ->. rewrite Hlen. nia.
  - intros Hgt.
    assert (Hzero : Z.of_nat (List.length (Mongo.page ((page - 1) * limit) limit all)) = 0)
      by (rewrite Hlen; nia).
    destruct (Mongo.page _ _ all); [reflexivity | simpl in Hzero; lia].
Qed.

Lemma pages_cover_listing_witness :
  let c := {| docs := numbered (fun k => 1000 * k) 25; nextId := 26 |} in
  exists expenses,
    ExpenseRepository.findWithFilters Mongo.driver
      (page_filter {| toHexString := alice |} None None None 10 20) c = (inr (expenses, 25), c)
    /\ Math_ceil_div (Num 25) (Num 10) = Num 3
    /\ List.length expenses = 5%nat.
Proof.
  intros c.
  destruct (pages_cover_listing Mongo.driver docs {| toHexString := alice |} None None None
              10 3 c mongo_lawful)
    as (expenses & total & pages & Hrun & Htotal & _ & Hpages & _ & Hlast & _); [lia | lia |].
  change ((3 - 1) * 10) with 20 in Hrun.
  assert (Ht : total = 25) by (rewrite Htotal; vm_compute; reflexivity).
  subst total. exists expenses. split; [exact Hrun | split; [reflexivity |]].
  assert (Hp : pages = 3) by nia.
  destruct Hlast as [Hlast _]; [now rewrite Hp | lia].
Defined.
